(** * A shallow embedding of the RAG demo (rag_system) and its checked properties

    The Python sources are embedded module by module:
    - [Py]              the built-ins the sources call (str methods, dicts,
                        exceptions);
    - [Json]            the standard library's [json.loads];
    - [Runtime]         the world the code runs in: the wall clock, the three
                        external collaborators and the calls made to them;
    - [EmbeddingModel]  app/embedding_model.py;
    - [LlmWrapper]      app/llm_wrapper.py;
    - [RagEngine]       app/rag_engine.py;
    - [StockAgent]      agent/stock_agent.py;
    - [FinancialAgent]  app/financial_agent.py;
    followed by the facts proved about them: the retrieval pipeline, the
    decision parser and order placement, the broker strategy.

    Strings are sequences of code points, floats are binary64 (the kernel's
    primitive floats), exceptions are values of [Py.result]. *)

From Stdlib Require Import ZArith NArith String Ascii List Bool Lia.
From Stdlib Require Import Floats DecimalString.
From Stdlib Require DecimalPos DecimalZ.
From Stdlib Require Import Permutation Sorted Mergesort.
Import ListNotations.

Set Implicit Arguments.
Set Warnings "-register-all".

(* ================================================================== *)
(** ** Python built-ins *)
(* ================================================================== *)

Module Py.

(** A Python [str] is a sequence of Unicode code points. *)
Definition char := N.
Definition str := list char.

(** A source literal (all the literals of the sources are ASCII). *)
Definition lit (s : string) : str := map N_of_ascii (list_ascii_of_string s).

Definition chr (a : ascii) : char := N_of_ascii a.

Fixpoint str_eqb (a b : str) : bool :=
  match a, b with
  | [], [] => true
  | x :: a', y :: b' => N.eqb x y && str_eqb a' b'
  | _, _ => false
  end.

(** Exceptions: the built-in classes the embedded code can raise itself, the
    decoder's error, and whatever a collaborator raises.  All of them derive
    from [Exception]. *)
Inductive exn :=
| IndexError (msg : str)
| TypeError (msg : str)
| JSONDecodeError (msg : str) (doc : str) (pos : nat)
| RecursionError (msg : str)
| External (cls : str) (msg : str).

Inductive result (A : Type) :=
| Ok (a : A)
| Raise (e : exn).
Arguments Ok {A} a.
Arguments Raise {A} e.

(** A number that is an [int] or a [float] ([x if c else 0]). *)
Inductive num :=
| Int (z : Z)
| Float (f : float).

(** [str(n)] for an [int]. *)
Definition str_of_Z (z : Z) : str := lit (NilZero.string_of_int (Z.to_int z)).
Definition str_of_nat (n : nat) : str := str_of_Z (Z.of_nat n).

(** [float(n)] for a non-negative [int] below 2^63 (rounds to nearest even,
    exact below 2^53). *)
Definition float_of_nat (n : nat) : float :=
  PrimFloat.of_uint63 (Uint63.of_Z (Z.of_nat n)).

(** [sep.join(l)] *)
Fixpoint join (sep : str) (l : list str) : str :=
  match l with
  | [] => []
  | [x] => x
  | x :: t => x ++ sep ++ join sep t
  end.

(** [c.isspace()]: the code points [str.split()] without argument splits at. *)
Definition isspace (c : char) : bool :=
  ((9 <=? c) && (c <=? 13) || (28 <=? c) && (c <=? 32)
   || (c =? 133) || (c =? 160) || (c =? 5760)
   || (8192 <=? c) && (c <=? 8202)
   || (c =? 8232) || (c =? 8233) || (c =? 8239) || (c =? 8287)
   || (c =? 12288))%N.

(** [s.split()]: the maximal runs of non-whitespace, in order.  [cur] is the
    run being read, reversed. *)
Fixpoint split_aux (cur : str) (s : str) : list str :=
  match s with
  | [] => match cur with [] => [] | _ => [rev cur] end
  | c :: t =>
      if isspace c
      then match cur with
           | [] => split_aux [] t
           | _ => rev cur :: split_aux [] t
           end
      else split_aux (c :: cur) t
  end.

Definition split (s : str) : list str := split_aux [] s.

(** [l[i]] for [i >= 0] on a list. *)
Definition index {A} (l : list A) (i : nat) : result A :=
  match nth_error l i with
  | Some x => Ok x
  | None => Raise (IndexError (lit "list index out of range"))
  end.

(** [o[i]] where [o] may be [None]. *)
Definition subscript {A} (o : option (list A)) (i : nat) : result A :=
  match o with
  | Some l => index l i
  | None => Raise (TypeError (lit "'NoneType' object is not subscriptable"))
  end.

(** Truth value of an object that is [None] or a list. *)
Definition truthy {A} (o : option (list A)) : bool :=
  match o with
  | Some (_ :: _) => true
  | _ => false
  end.

(** [s.startswith(p)] *)
Fixpoint startswith (s p : str) : bool :=
  match p, s with
  | [], _ => true
  | x :: p', y :: s' => N.eqb x y && startswith s' p'
  | _ :: _, [] => false
  end.

(** [s.endswith(p)] *)
Definition endswith (s p : str) : bool := startswith (rev s) (rev p).

(** [s.find(sub)]: the lowest index where [sub] occurs, or -1.  [i] is the
    index of the head of [s] in the whole string. *)
Fixpoint find_from (i : Z) (s sub : str) : Z :=
  if startswith s sub then i
  else match s with
       | [] => (-1)%Z
       | _ :: t => find_from (i + 1) t sub
       end.

Definition find (s sub : str) : Z := find_from 0 s sub.

(** [s.rfind(sub)]: the highest index where [sub] occurs, or -1. *)
Fixpoint rfind_from (i : Z) (s sub : str) : Z :=
  match s with
  | [] => if startswith [] sub then i else (-1)%Z
  | _ :: t =>
      let r := rfind_from (i + 1) t sub in
      if (0 <=? r)%Z then r
      else if startswith s sub then i else (-1)%Z
  end.

Definition rfind (s sub : str) : Z := rfind_from 0 s sub.

(** A slice bound as [s[a:b]] reads it: counted from the end when negative,
    then clipped to [0, len(s)]. *)
Definition slice_bound (len i : Z) : Z :=
  let j := if (i <? 0)%Z then (i + len)%Z else i in
  Z.max 0 (Z.min len j).

(** [s[a:b]] *)
Definition slice (s : str) (a b : Z) : str :=
  let len := Z.of_nat (length s) in
  let a' := slice_bound len a in
  let b' := slice_bound len b in
  firstn (Z.to_nat (b' - a')) (skipn (Z.to_nat a') s).

(** [s.replace(old, new)]: every non-overlapping occurrence, left to right.
    [skip] counts the characters of a matched occurrence still to drop. *)
Fixpoint replace_aux (old new : str) (skip : nat) (s : str) : str :=
  match s with
  | [] => []
  | c :: t =>
      match skip with
      | S k => replace_aux old new k t
      | O =>
          if startswith s old
          then new ++ replace_aux old new (length old - 1) t
          else c :: replace_aux old new 0 t
      end
  end.

Definition replace (s old new : str) : str :=
  match old with
  | [] => new ++ flat_map (fun c => c :: new) s
  | _ => replace_aux old new 0 s
  end.

(** [s.count(c, 0, pos)] for a single character. *)
Definition count_before (s : str) (c : char) (pos : nat) : nat :=
  length (filter (N.eqb c) (firstn pos s)).

(** The objects [json.loads] builds.  A float is kept as the literal that
    denotes it ([float(lexeme)]); a dict as its items in insertion order,
    keys distinct. *)
Inductive value :=
| VNone
| VBool (b : bool)
| VInt (z : Z)
| VFloat (lexeme : str)
| VStr (s : str)
| VList (items : list value)
| VDict (items : list (str * value)).

Definition dict := list (str * value).

(** [d[k] = v] *)
Fixpoint dict_set (d : dict) (k : str) (v : value) : dict :=
  match d with
  | [] => [(k, v)]
  | (k', v') :: t =>
      if str_eqb k' k then (k', v) :: t else (k', v') :: dict_set t k v
  end.

(** [d.get(k)]: [None] of the option when the key is absent. *)
Fixpoint dict_get (d : dict) (k : str) : option value :=
  match d with
  | [] => None
  | (k', v) :: t => if str_eqb k' k then Some v else dict_get t k
  end.

(** [k in d] *)
Definition dict_mem (d : dict) (k : str) : bool :=
  match dict_get d k with
  | Some _ => true
  | None => false
  end.

(** [dict(pairs)] *)
Definition dict_of_pairs (pairs : list (str * value)) : dict :=
  fold_left (fun d kv => dict_set d (fst kv) (snd kv)) pairs [].

(** [str(e)] for an exception. *)
Definition str_of_exn (e : exn) : str :=
  match e with
  | IndexError msg | TypeError msg | RecursionError msg | External _ msg => msg
  | JSONDecodeError msg doc pos =>
      let lineno := count_before doc 10%N pos + 1 in
      let colno :=
        (Z.of_nat pos - rfind (firstn pos doc) [10%N])%Z in
      msg ++ lit ": line " ++ str_of_nat lineno ++ lit " column "
          ++ str_of_Z colno ++ lit " (char " ++ str_of_nat pos ++ lit ")"
  end.

End Py.

(* ================================================================== *)
(** ** json.loads *)
(* ================================================================== *)

(** The standard library's decoder with its default settings (strict, no
    hooks), as [StockAgent.get_decision] calls it.  Two limits of the
    interpreter are left out, the bound on the digits of an integer and the
    bound on the nesting depth; both end in exceptions that derive from
    [Exception].  The [fuel] of the scanner is set from the length
    of the document, which is always enough
    ([JsonFacts.loads_fuel_suffices]). *)
Module Json.
Import Py.
Local Open Scope N_scope.

Inductive scan (A : Type) :=
| Scanned (a : A) (rest : str) (idx : nat)
| Failed (msg : str) (pos : nat)
| TooDeep.
Arguments Scanned {A} a rest idx.
Arguments Failed {A} msg pos.
Arguments TooDeep {A}.

Definition is_ws (c : char) : bool :=
  (c =? chr " ") || (c =? 9) || (c =? 10) || (c =? 13).

Fixpoint skip_ws (s : str) (idx : nat) : str * nat :=
  match s with
  | c :: t => if is_ws c then skip_ws t (S idx) else (s, idx)
  | [] => ([], idx)
  end.

Definition is_digit (c : char) : bool := (chr "0" <=? c) && (c <=? chr "9").

Fixpoint span_digits (s : str) : str * str :=
  match s with
  | c :: t =>
      if is_digit c
      then let (d, r) := span_digits t in (c :: d, r)
      else ([], s)
  | [] => ([], [])
  end.

Definition hex_digit (c : char) : option N :=
  if is_digit c then Some (c - chr "0")
  else if (chr "a" <=? c) && (c <=? chr "f") then Some (c - chr "a" + 10)
  else if (chr "A" <=? c) && (c <=? chr "F") then Some (c - chr "A" + 10)
  else None.

Definition hex4 (a b c d : char) : option N :=
  match hex_digit a, hex_digit b, hex_digit c, hex_digit d with
  | Some x, Some y, Some z, Some t => Some (((x * 16 + y) * 16 + z) * 16 + t)
  | _, _, _, _ => None
  end.

Definition unescape (c : char) : option char :=
  if c =? 34 then Some (34)
  else if c =? chr "\" then Some (chr "\")
  else if c =? chr "/" then Some (chr "/")
  else if c =? chr "b" then Some 8
  else if c =? chr "f" then Some 12
  else if c =? chr "n" then Some 10
  else if c =? chr "r" then Some 13
  else if c =? chr "t" then Some 9
  else None.

Definition is_high_surrogate (c : N) : bool := (55296 <=? c) && (c <=? 56319).
Definition is_low_surrogate (c : N) : bool := (56320 <=? c) && (c <=? 57343).
Definition join_surrogates (hi lo : N) : N :=
  65536 + ((hi - 55296) * 1024 + (lo - 56320)).

Definition invalid_u : str := lit "Invalid \uXXXX escape".

(** [scanstring(s, end, strict=True)]: [s] is what follows the opening quote,
    [idx] its index, [begin] the index of the quote, [acc] the characters
    decoded so far, reversed. *)
Fixpoint scanstring (s : str) (idx begin : nat) (acc : str) : scan str :=
  match s with
  | [] => Failed (lit "Unterminated string starting at") begin
  | c :: t =>
      if c =? 34 then Scanned (rev acc) t (S idx)
      else if c =? chr "\" then
        match t with
        | [] => Failed (lit "Unterminated string starting at") begin
        | e :: t1 =>
            if e =? chr "u" then
              match t1 with
              | h1 :: h2 :: h3 :: h4 :: ((_ :: _) as t5) =>
                  match hex4 h1 h2 h3 h4 with
                  | None => Failed invalid_u (S idx)
                  | Some u =>
                      match t5 with
                      | b :: v :: g1 :: g2 :: g3 :: g4 :: ((_ :: _) as t11) =>
                          if is_high_surrogate u && (b =? chr "\")
                             && (v =? chr "u")
                          then
                            match hex4 g1 g2 g3 g4 with
                            | None => Failed invalid_u (idx + 7)
                            | Some u2 =>
                                if is_low_surrogate u2
                                then scanstring t11 (idx + 12) begin
                                       (join_surrogates u u2 :: acc)
                                else scanstring t5 (idx + 6) begin (u :: acc)
                            end
                          else scanstring t5 (idx + 6) begin (u :: acc)
                      | _ => scanstring t5 (idx + 6) begin (u :: acc)
                      end
                  end
              | _ => Failed invalid_u (S idx)
              end
            else
              match unescape e with
              | Some ch => scanstring t1 (idx + 2) begin (ch :: acc)
              | None => Failed (lit "Invalid \escape") idx
              end
        end
      else if c <=? 31 then Failed (lit "Invalid control character at") idx
      else scanstring t (S idx) begin (c :: acc)
  end.

Definition Z_of_digits (ds : str) : Z :=
  fold_left (fun a c => (a * 10 + Z.of_N (c - chr "0"))%Z) ds 0%Z.

(** The parts of a number, each with what follows it: an optional minus
    sign; the integer digits, a lone 0 or digits not starting with 0; a
    fraction, a point and at least one digit; an exponent, [e] or [E], an
    optional sign and at least one digit. *)
Definition scan_sign (s : str) : bool * str :=
  match s with
  | c :: t => if c =? chr "-" then (true, t) else (false, s)
  | [] => (false, [])
  end.

Definition scan_integer (s : str) : option (str * str) :=
  match s with
  | c :: t =>
      if c =? chr "0" then Some ([c], t)
      else if is_digit c then let (d, r) := span_digits t in Some (c :: d, r)
      else None
  | [] => None
  end.

Definition scan_frac (s : str) : str * str :=
  match s with
  | c :: t =>
      if c =? chr "." then
        match span_digits t with
        | ([], _) => ([], s)
        | (fd, r) => (c :: fd, r)
        end
      else ([], s)
  | [] => ([], s)
  end.

Definition scan_exp (s : str) : str * str :=
  match s with
  | c :: t =>
      if (c =? chr "e") || (c =? chr "E") then
        let '(sign, t') :=
          match t with
          | g :: t2 =>
              if (g =? chr "-") || (g =? chr "+") then ([g], t2) else ([], t)
          | [] => ([], t)
          end in
        match span_digits t' with
        | ([], _) => ([], s)
        | (ed, r) => (c :: sign ++ ed, r)
        end
      else ([], s)
  | [] => ([], s)
  end.

(** The number at the head of [s], if any: the object it denotes and what
    follows it. *)
Definition match_number (s : str) : option (value * str) :=
  let '(neg, s1) := scan_sign s in
  match scan_integer s1 with
  | None => None
  | Some (ds, r1) =>
      let '(frac, r2) := scan_frac r1 in
      let '(exp, r3) := scan_exp r2 in
      let sign := if neg then [chr "-"] else [] in
      match frac, exp with
      | [], [] =>
          Some (VInt (if neg then - Z_of_digits ds else Z_of_digits ds), r3)
      | _, _ => Some (VFloat (sign ++ ds ++ frac ++ exp), r3)
      end
  end.

(** [s[idx:idx+len(word)] == word], and what follows the word. *)
Definition keyword (s word : str) : option str :=
  if startswith s word then Some (skipn (length word) s) else None.

Definition expecting_value : str := lit "Expecting value".
Definition expecting_name : str :=
  lit "Expecting property name enclosed in double quotes".

(** [scan_once(string, idx)] with the loops of [JSONObject] and [JSONArray];
    [StopIteration(idx)] is reported as the decoder turns it, into
    "Expecting value" at [idx]. *)
Fixpoint scan_once (fuel : nat) (s : str) (idx : nat) : scan value :=
  match fuel with
  | O => TooDeep
  | S fuel' =>
      match s with
      | [] => Failed expecting_value idx
      | c :: t =>
          if c =? 34 then
            match scanstring t (S idx) idx [] with
            | Scanned v r i => Scanned (VStr v) r i
            | Failed m p => Failed m p
            | TooDeep => TooDeep
            end
          else if c =? chr "{" then
            let (r, i) := skip_ws t (S idx) in
            match r with
            | c1 :: r1 =>
                if c1 =? chr "}" then Scanned (VDict []) r1 (S i)
                else members fuel' r i []
            | [] => members fuel' r i []
            end
          else if c =? chr "[" then
            let (r, i) := skip_ws t (S idx) in
            match r with
            | c1 :: r1 =>
                if c1 =? chr "]" then Scanned (VList []) r1 (S i)
                else elements fuel' r i []
            | [] => elements fuel' r i []
            end
          else
            match keyword s (lit "null"), keyword s (lit "true"),
                  keyword s (lit "false") with
            | Some r, _, _ => Scanned VNone r (idx + 4)
            | _, Some r, _ => Scanned (VBool true) r (idx + 4)
            | _, _, Some r => Scanned (VBool false) r (idx + 5)
            | None, None, None =>
                match match_number s with
                | Some (v, r) => Scanned v r (idx + (length s - length r))
                | None =>
                    match keyword s (lit "NaN"), keyword s (lit "Infinity"),
                          keyword s (lit "-Infinity") with
                    | Some r, _, _ => Scanned (VFloat (lit "NaN")) r (idx + 3)
                    | _, Some r, _ =>
                        Scanned (VFloat (lit "Infinity")) r (idx + 8)
                    | _, _, Some r =>
                        Scanned (VFloat (lit "-Infinity")) r (idx + 9)
                    | None, None, None => Failed expecting_value idx
                    end
                end
            end
      end
  end

(** The members of an object from a key on; [pairs] are those read so far,
    reversed. *)
with members (fuel : nat) (s : str) (idx : nat) (pairs : list (str * value))
  : scan value :=
  match fuel with
  | O => TooDeep
  | S fuel' =>
      match s with
      | c :: t =>
          if c =? 34 then
            match scanstring t (S idx) idx [] with
            | Scanned key r i =>
                let (r, i) := skip_ws r i in
                match r with
                | c1 :: r1 =>
                    if c1 =? chr ":" then
                      let (r, i) := skip_ws r1 (S i) in
                      match scan_once fuel' r i with
                      | Scanned v r i =>
                          let (r, i) := skip_ws r i in
                          match r with
                          | c2 :: r2 =>
                              if c2 =? chr "}" then
                                Scanned
                                  (VDict (dict_of_pairs (rev ((key, v) :: pairs))))
                                  r2 (S i)
                              else if c2 =? chr "," then
                                let (r, i) := skip_ws r2 (S i) in
                                members fuel' r i ((key, v) :: pairs)
                              else Failed (lit "Expecting ',' delimiter") i
                          | [] => Failed (lit "Expecting ',' delimiter") i
                          end
                      | Failed m p => Failed m p
                      | TooDeep => TooDeep
                      end
                    else Failed (lit "Expecting ':' delimiter") i
                | [] => Failed (lit "Expecting ':' delimiter") i
                end
            | Failed m p => Failed m p
            | TooDeep => TooDeep
            end
          else Failed expecting_name idx
      | [] => Failed expecting_name idx
      end
  end

(** The elements of an array from a value on; [items] are those read so
    far, reversed. *)
with elements (fuel : nat) (s : str) (idx : nat) (items : list value)
  : scan value :=
  match fuel with
  | O => TooDeep
  | S fuel' =>
      match scan_once fuel' s idx with
      | Scanned v r i =>
          let (r, i) := skip_ws r i in
          match r with
          | c :: r1 =>
              if c =? chr "]" then Scanned (VList (rev (v :: items))) r1 (S i)
              else if c =? chr "," then
                let (r, i) := skip_ws r1 (S i) in
                elements fuel' r i (v :: items)
              else Failed (lit "Expecting ',' delimiter") i
          | [] => Failed (lit "Expecting ',' delimiter") i
          end
      | Failed m p => Failed m p
      | TooDeep => TooDeep
      end
  end.

(** [json.loads(s)] *)
Definition loads (s : str) : result value :=
  if startswith s [65279] then
    Raise (JSONDecodeError
             (lit "Unexpected UTF-8 BOM (decode using utf-8-sig)") s 0)
  else
    let (r, i) := skip_ws s 0 in
    match scan_once (2 * length s + 2) r i with
    | Scanned v r i =>
        let (r, i) := skip_ws r i in
        match r with
        | [] => Ok v
        | _ :: _ => Raise (JSONDecodeError (lit "Extra data") s i)
        end
    | Failed m p => Raise (JSONDecodeError m s p)
    | TooDeep =>
        Raise (RecursionError
                 (lit "maximum recursion depth exceeded while decoding a JSON object from a unicode string"))
    end.

End Json.

(* ================================================================== *)
(** ** The world: clock and collaborators *)
(* ================================================================== *)

Module Runtime.
Import Py.

(** What chromadb's [collection.query] returns (the keys the code reads). *)
Record QueryResult := {
  qr_documents : option (list (list str));
  qr_distances : option (list (list float))
}.

(** What llama_cpp's [Llama.__call__] returns (the keys the code reads). *)
Record Choice := { choice_text : str }.
Record Completion := { choices : list Choice }.

(** A call made to a collaborator. *)
Inductive Call :=
| EncodeCall (sentences : list str)
| QueryCall (query_embeddings : list (list float)) (n_results : nat)
| LlmCall (prompt : str) (max_tokens : nat).

(** The state the code runs in: the readings [time.time()] gives, how many
    were taken, and the calls made so far, latest first. *)
Record World := {
  clock : nat -> float;
  ticks : nat;
  calls : list Call
}.

(** The process-wide handles [embedder], [collection] and [llm].  Their
    answers may depend on the world (sampling, state of the store). *)
Record Env := {
  embedder_encode : World -> list str -> result (list (list float));
  collection_query : World -> list (list float) -> nat -> result QueryResult;
  llm : World -> str -> nat -> result Completion
}.

(** Computations: state passing, with exceptions. *)
Definition M (A : Type) := World -> result A * World.

Definition ret {A} (a : A) : M A := fun w => (Ok a, w).

Definition bind {A B} (m : M A) (k : A -> M B) : M B :=
  fun w => match m w with
           | (Ok a, w') => k a w'
           | (Raise e, w') => (Raise e, w')
           end.

Definition lift {A} (r : result A) : M A := fun w => (r, w).

Definition tick (w : World) : World :=
  {| clock := clock w; ticks := S (ticks w); calls := calls w |}.

(** [time.time()]: the next reading of the clock. *)
Definition time_time : M float :=
  fun w => (Ok (clock w (ticks w)), tick w).

Definition log (c : Call) (w : World) : World :=
  {| clock := clock w; ticks := ticks w; calls := c :: calls w |}.

Definition call_encode (env : Env) (sentences : list str) : M (list (list float)) :=
  fun w => (embedder_encode env w sentences, log (EncodeCall sentences) w).

Definition call_query (env : Env) (vs : list (list float)) (k : nat) : M QueryResult :=
  fun w => (collection_query env w vs k, log (QueryCall vs k) w).

Definition call_llm (env : Env) (prompt : str) (max_tokens : nat) : M Completion :=
  fun w => (llm env w prompt max_tokens, log (LlmCall prompt max_tokens) w).

End Runtime.

Declare Scope py_scope.
Delimit Scope py_scope with py.
Notation "x <- m ;; k" := (Runtime.bind m (fun x => k))
  (at level 61, m at next level, right associativity) : py_scope.

(* ================================================================== *)
(** ** app/embedding_model.py *)
(* ================================================================== *)

Module EmbeddingModel.
Import Py Runtime.
Local Open Scope py_scope.

(** The [results] dict after [query_embedding] added its keys.  A key that
    may be absent for [dict.get] is an [option]. *)
Record Results := {
  documents : option (list (list str));
  distances : option (list (list float));
  embedding_time : option float;
  query_time : option float;
  total_retrieval_time : option float;
  embedding_dimensions : option nat;
  embedding_model : option str
}.

Section WithEnv.
Variable env : Env.

Definition query_embedding (question : str) (k : nat) : M Results :=
  start_time <- time_time ;;
  encoded <- call_encode env [question] ;;
  q_embed <- lift (index encoded 0) ;;
  t1 <- time_time ;;
  let embedding_time := (t1 - start_time)%float in
  query_start <- time_time ;;
  results <- call_query env [q_embed] k ;;
  t2 <- time_time ;;
  let query_time := (t2 - query_start)%float in
  ret {| documents := qr_documents results;
         distances := qr_distances results;
         embedding_time := Some embedding_time;
         query_time := Some query_time;
         total_retrieval_time := Some (embedding_time + query_time)%float;
         embedding_dimensions := Some (length q_embed);
         embedding_model := Some (lit "all-MiniLM-L6-v2") |}.

End WithEnv.
End EmbeddingModel.

(* ================================================================== *)
(** ** app/llm_wrapper.py *)
(* ================================================================== *)

Module LlmWrapper.
Import Py Runtime.
Local Open Scope py_scope.

Record Answer := {
  text : str;
  generation_time : float;
  input_tokens : nat;
  output_tokens : nat;
  total_tokens : nat;
  tokens_per_second : num
}.

Section WithEnv.
Variable env : Env.

Definition generate_answer (prompt : str) : M Answer :=
  start_time <- time_time ;;
  let input_tokens := length (split prompt) in
  response <- call_llm env prompt 200 ;;
  end_time <- time_time ;;
  let generation_time := (end_time - start_time)%float in
  choice0 <- lift (index (choices response) 0) ;;
  let output_text := choice_text choice0 in
  let output_tokens := length (split output_text) in
  ret {| text := output_text;
         generation_time := generation_time;
         input_tokens := input_tokens;
         output_tokens := output_tokens;
         total_tokens := input_tokens + output_tokens;
         tokens_per_second :=
           if (0 <? generation_time)%float
           then Float (float_of_nat output_tokens / generation_time)%float
           else Int 0 |}.

End WithEnv.
End LlmWrapper.

(* ================================================================== *)
(** ** app/rag_engine.py *)
(* ================================================================== *)

Module RagEngine.
Import Py Runtime.
Local Open Scope py_scope.

(** The f-string of both entry points. *)
Definition build_prompt (context question : str) : str :=
  lit "Context:" ++ [10%N] ++ context ++ [10%N; 10%N] ++ lit "Question: "
      ++ question ++ [10%N] ++ lit "Answer:".

Record Timing := {
  t_embedding_time : num;
  t_query_time : num;
  t_total_retrieval_time : num;
  t_context_building_time : float;
  t_generation_time : float;
  t_total_pipeline_time : float
}.

Record Tokens := {
  k_input_tokens : nat;
  k_output_tokens : nat;
  k_total_tokens : nat;
  k_tokens_per_second : num
}.

Record Embedding := {
  e_model : str;
  e_dimensions : nat;
  e_query_embedding_shape : str
}.

Record Debug := {
  question : str;
  retrieved_documents : list str;
  similarity_distances : list float;
  context : str;
  prompt : str;
  answer : str;
  num_docs_retrieved : nat;
  context_length : nat;
  timing : Timing;
  tokens : Tokens;
  embedding : Embedding;
  process_steps : list str
}.

(** [d.get(key, 0)] on a key holding a float. *)
Definition get0 (o : option float) : num :=
  match o with
  | Some f => Float f
  | None => Int 0
  end.

Section WithEnv.
Variable env : Env.

Definition query_rag (question : str) : M str :=
  results <- EmbeddingModel.query_embedding env question 3 ;;
  docs <- lift (subscript (EmbeddingModel.documents results) 0) ;;
  let context := join [10%N; 10%N] docs in
  let prompt := build_prompt context question in
  llm_response <- LlmWrapper.generate_answer env prompt ;;
  ret (LlmWrapper.text llm_response).

Definition query_rag_debug (question : str) : M Debug :=
  total_start_time <- time_time ;;
  retrieval_start <- time_time ;;
  results <- EmbeddingModel.query_embedding env question 3 ;;
  retrieval_end <- time_time ;;
  retrieved_docs <-
    (if truthy (EmbeddingModel.documents results)
     then lift (subscript (EmbeddingModel.documents results) 0)
     else ret []) ;;
  distances <-
    (if truthy (EmbeddingModel.distances results)
     then lift (subscript (EmbeddingModel.distances results) 0)
     else ret []) ;;
  context_start <- time_time ;;
  let context := join [10%N; 10%N] retrieved_docs in
  let prompt := build_prompt context question in
  context_end <- time_time ;;
  generation_start <- time_time ;;
  llm_response <- LlmWrapper.generate_answer env prompt ;;
  generation_end <- time_time ;;
  total_end_time <- time_time ;;
  let context_building_time := (context_end - context_start)%float in
  let total_time := (total_end_time - total_start_time)%float in
  let dims :=
    match EmbeddingModel.embedding_dimensions results with
    | Some d => d
    | None => 0
    end in
  ret {| question := question;
         retrieved_documents := retrieved_docs;
         similarity_distances := distances;
         context := context;
         prompt := prompt;
         answer := LlmWrapper.text llm_response;
         num_docs_retrieved := length retrieved_docs;
         context_length := length context;
         timing :=
           {| t_embedding_time := get0 (EmbeddingModel.embedding_time results);
              t_query_time := get0 (EmbeddingModel.query_time results);
              t_total_retrieval_time :=
                get0 (EmbeddingModel.total_retrieval_time results);
              t_context_building_time := context_building_time;
              t_generation_time := LlmWrapper.generation_time llm_response;
              t_total_pipeline_time := total_time |};
         tokens :=
           {| k_input_tokens := LlmWrapper.input_tokens llm_response;
              k_output_tokens := LlmWrapper.output_tokens llm_response;
              k_total_tokens := LlmWrapper.total_tokens llm_response;
              k_tokens_per_second := LlmWrapper.tokens_per_second llm_response |};
         embedding :=
           {| e_model :=
                match EmbeddingModel.embedding_model results with
                | Some m => m
                | None => lit "unknown"
                end;
              e_dimensions := dims;
              e_query_embedding_shape :=
                lit "(" ++ str_of_nat dims ++ lit ",)" |};
         process_steps :=
           [ lit "1. Query embedding generation";
             lit "2. Vector similarity search";
             lit "3. Document retrieval";
             lit "4. Context building";
             lit "5. Prompt construction";
             lit "6. LLM text generation" ] |}.

End WithEnv.
End RagEngine.

(* ================================================================== *)
(** ** agent/stock_agent.py *)
(* ================================================================== *)

Module StockAgent.
Import Py Runtime.
Local Open Scope py_scope.

Definition craft_prompt (user_query market : str) : str :=
  lit "You are a stock trading agent. Your job is to analyze the following user query and market context, "
  ++ lit "and recommend a trading action in JSON format." ++ [10%N]
  ++ lit "User Query: " ++ user_query ++ [10%N]
  ++ lit "Market: " ++ market ++ [10%N]
  ++ lit "Respond ONLY with a JSON object like: {'action': 'buy'/'sell'/'hold', 'symbol': 'AAPL', 'amount': 10, 'reason': '...'}."
  ++ [10%N]
  ++ lit "If you don't have enough information, respond with: {'action': 'hold', 'reason': 'Insufficient data'}.".

(** The body of the [try] block of [get_decision]. *)
Definition parse_decision (rag_response : str) : result value :=
  let start := find rag_response (lit "{") in
  let end_ := (rfind rag_response (lit "}") + 1)%Z in
  let json_str := slice rag_response start end_ in
  Json.loads (replace json_str (lit "'") [34%N]).

(** The dict of the [except] clause. *)
Definition fallback (e : exn) (rag_response : str) : value :=
  VDict [ (lit "action", VStr (lit "hold"));
          (lit "reason", VStr (lit "Failed to parse decision: " ++ str_of_exn e));
          (lit "raw_response", VStr rag_response) ].

Section WithEnv.
Variable env : Env.

Definition get_decision (user_query market : str) : M value :=
  let prompt := craft_prompt user_query market in
  rag_response <- RagEngine.query_rag env prompt ;;
  ret (match parse_decision rag_response with
       | Ok decision => decision
       | Raise e => fallback e rag_response
       end).

End WithEnv.

Record OrderResult := {
  status : str;
  order : dict;
  message : value
}.

(** [x in ["buy", "sell"]] for [x = decision.get("action")]. *)
Definition is_buy_or_sell (x : option value) : bool :=
  match x with
  | Some (VStr s) => str_eqb s (lit "buy") || str_eqb s (lit "sell")
  | _ => false
  end.

Section WithFormat.
(** [format(v)], what an f-string field without a format spec shows of an
    object: a built-in, taken as given. *)
Variable format : value -> str.

(** [decision[k]] inside the f-string, where the key is known to be there. *)
Definition field (decision : dict) (k : str) : str :=
  match dict_get decision k with
  | Some v => format v
  | None => []
  end.

Definition place_order (decision : dict) : OrderResult :=
  if is_buy_or_sell (dict_get decision (lit "action"))
     && dict_mem decision (lit "symbol")
     && dict_mem decision (lit "amount")
  then {| status := lit "success";
          order := decision;
          message :=
            VStr (lit "Order placed: " ++ field decision (lit "action")
                  ++ lit " " ++ field decision (lit "amount")
                  ++ lit " shares of " ++ field decision (lit "symbol")) |}
  else {| status := lit "no_action";
          order := decision;
          message :=
            match dict_get decision (lit "reason") with
            | Some r => r
            | None => VStr (lit "No valid action taken.")
            end |}.

End WithFormat.
End StockAgent.

(* ================================================================== *)
(** ** app/financial_agent.py *)
(* ================================================================== *)

Module FinancialAgent.
Import Py Runtime.

(** A numpy scalar, as [row['Close']] gives it, in one of the dtypes pandas
    infers for a column of numbers: float64 (NaN when missing), int64 for a
    column of integers written without a decimal point, uint64 for one that
    holds integers beyond int64.  An integer is kept as its value. *)
Inductive scalar :=
| Float64 (x : float)
| Int64 (n : Z)
| UInt64 (n : Z).

(** [float(n)] for an integer: the nearest binary64, ties to even. *)
Definition float_of_Z (n : Z) : float :=
  SF2Prim (binary_normalize prec emax n 0 false).

(** The value of a scalar as a float64, as numpy converts it for a true
    division, and Python for the format [.2f]. *)
Definition to_float (a : scalar) : float :=
  match a with
  | Float64 x => x
  | Int64 n | UInt64 n => float_of_Z n
  end.

(** Two's complement on 64 bits: the result of an int64 operation. *)
Definition wrap_int64 (n : Z) : Z :=
  ((n + 2 ^ 63) mod 2 ^ 64 - 2 ^ 63)%Z.

Definition wrap_uint64 (n : Z) : Z := (n mod 2 ^ 64)%Z.

(** [a - b] on numpy scalars: integers of one dtype wrap around (with a
    warning, no exception), every other pair is subtracted as float64. *)
Definition sub (a b : scalar) : scalar :=
  match a, b with
  | Int64 x, Int64 y => Int64 (wrap_int64 (x - y))
  | UInt64 x, UInt64 y => UInt64 (wrap_uint64 (x - y))
  | _, _ => Float64 (to_float a - to_float b)
  end.

(** [a / b] on numpy scalars: a true division in float64, also of integers;
    a division by zero gives an infinity or NaN (with a warning). *)
Definition truediv (a b : scalar) : float := (to_float a / to_float b)%float.

(** [pd.isna(a)] *)
Definition isna (a : scalar) : bool :=
  match a with
  | Float64 x => is_nan x
  | Int64 _ | UInt64 _ => false
  end.

(** A row of a data frame after [pd.to_datetime(..., errors='coerce')]: the
    date in nanoseconds since the epoch, [None] for NaT; the close price.
    pandas gives the whole column one dtype; nothing below depends on it. *)
Record Row := {
  Date : option Z;
  Close : scalar
}.

(** What the code sees of the disk.  [isdir] is [os.path.isdir] and
    [listdir] is [os.listdir], which raises when the directory cannot be
    listed.  [read_csv] stands for [pd.read_csv] and the column accesses of
    the [try] block: it raises when the file cannot be parsed or lacks a
    [Date] column, and also stands for a frame on which the block raises
    later on (a [Close] column that is missing or holds strings or
    booleans, dates with a time zone); the loop skips the file either way. *)
Record FileSystem := {
  module_dir : str;
  isdir : str -> bool;
  listdir : str -> result (list str);
  read_csv : str -> result (list Row)
}.

(** [os.path.join(a, b)] *)
Definition path_join (a b : str) : str :=
  if startswith b (lit "/") then b
  else match a with
       | [] => b
       | _ => if endswith a (lit "/") then a ++ b else a ++ lit "/" ++ b
       end.

(** [f"{x:.2f}"]: the decimal expansion of the float rounded to two places,
    half to even. *)
Definition format_2f (x : float) : str :=
  match Prim2SF x with
  | S754_nan => lit "nan"
  | S754_infinity s => if s then lit "-inf" else lit "inf"
  | S754_zero s => if s then lit "-0.00" else lit "0.00"
  | S754_finite s m e =>
      let n := (Z.pos m * 100)%Z in
      let hundredths :=
        match e with
        | Zneg p =>
            let d := Z.pow_pos 2 p in
            let q := (n / d)%Z in
            let r := (n mod d)%Z in
            match (2 * r ?= d)%Z with
            | Lt => q
            | Gt => (q + 1)%Z
            | Eq => if Z.even q then q else (q + 1)%Z
            end
        | _ => (n * 2 ^ e)%Z
        end in
      let cents := (hundredths mod 100)%Z in
      (if s then lit "-" else [])
        ++ str_of_Z (hundredths / 100) ++ lit "."
        ++ (if (cents <? 10)%Z then lit "0" else []) ++ str_of_Z cents
  end.

(** [f"{x:.2f}"] where [x] is a numpy scalar or [None]. *)
Definition format_opt_2f (x : option scalar) : result str :=
  match x with
  | Some a => Ok (format_2f (to_float a))
  | None =>
      Raise (TypeError (lit "unsupported format string passed to NoneType.__format__"))
  end.

(** [f"{market}"] *)
Definition format_market (market : option str) : str :=
  match market with
  | Some m => m
  | None => lit "None"
  end.

(** [FinancialRAGAgent.answer]: the market is not passed on. *)
Definition financial_rag_agent_answer (env : Env) (question : str)
  (market : option str) : M RagEngine.Debug :=
  RagEngine.query_rag_debug env question.

Definition market_dirs : list (str * str) :=
  [ (lit "S&P 500", lit "SP500_data");
    (lit "NASDAQ", lit "NASDAQ_data");
    (lit "S&P 600", lit "SP600_data");
    (lit "Dow Jones", lit "DOWJONES_data");
    (lit "NYSE", lit "NYSE_data");
    (lit "Crypto", lit "CRYPTO_data") ].

(** [market_dirs.get(market, default)] *)
Fixpoint dirs_get (d : list (str * str)) (market : option str) (default : str)
  : str :=
  match d with
  | [] => default
  | (k, v) :: t =>
      match market with
      | Some m => if str_eqb k m then v else dirs_get t market default
      | None => default
      end
  end.

(** The four variables the loop of [BrokerAgent.answer] updates. *)
Record Best := {
  best_symbol : option str;
  best_return : float;
  best_start : option scalar;
  best_end : option scalar
}.

Definition initial : Best :=
  {| best_symbol := None;
     best_return := neg_infinity;
     best_start := None;
     best_end := None |}.

Record Reply := {
  answer_text : str;
  agent : str
}.

Definition ns_per_day : Z := 86400 * 1000000000.

(** [df.dropna(subset=['Date', 'Close'])] *)
Fixpoint dropna (df : list Row) : list (Z * scalar) :=
  match df with
  | [] => []
  | r :: t =>
      match Date r with
      | Some d => if isna (Close r) then dropna t else (d, Close r) :: dropna t
      | None => dropna t
      end
  end.

Section WithPandas.
(** [df.sort_values('Date')] on rows without NaT: pandas sorts with an
    unstable quicksort by default, so it is taken as given (see [sorts]). *)
Variable sort_values : list (Z * scalar) -> list (Z * scalar).
Variable fs : FileSystem.
(** [datetime.now().date()], in days since the epoch. *)
Variable today : Z.

Definition one_month_ago : Z := today - 30.

(** The rows of [recent] of one file. *)
Definition recent_rows (df : list Row) : list (Z * scalar) :=
  filter (fun r => (one_month_ago * ns_per_day <=? fst r)%Z)
         (sort_values (dropna df)).

(** The body of the [try] block for one file: [None] stands for the
    [continue] on fewer than two rows, otherwise the return and the two
    prices. *)
Definition symbol_return (path : str) : result (option (float * scalar * scalar)) :=
  match read_csv fs path with
  | Raise e => Raise e
  | Ok df =>
      let recent := recent_rows df in
      if length recent <? 2 then Ok None
      else
        let start_price := snd (hd (0%Z, Float64 nan) recent) in
        let end_price := snd (last recent (0%Z, Float64 nan)) in
        let ret := (truediv (sub end_price start_price) start_price * 100)%float in
        Ok (Some (ret, start_price, end_price))
  end.

(** One round of the loop over [os.listdir(data_dir)]. *)
Definition visit (data_dir : str) (b : Best) (fname : str) : Best :=
  if negb (endswith fname (lit ".csv")) then b
  else
    let symbol := replace fname (lit ".csv") [] in
    match symbol_return (path_join data_dir fname) with
    | Ok (Some (ret, start_price, end_price)) =>
        if (best_return b <? ret)%float
        then {| best_symbol := Some symbol;
                best_return := ret;
                best_start := Some start_price;
                best_end := Some end_price |}
        else b
    | Ok None => b
    | Raise _ => b
    end.

Definition scan (data_dir : str) (fnames : list str) : Best :=
  fold_left (visit data_dir) fnames initial.

Definition agent_name : str := lit "Broker Agent".

(** The reply built from the loop's variables (the final [if best_symbol]). *)
Definition reply_for (market : option str) (b : Best) : result Reply :=
  match best_symbol b with
  | Some (c :: s) =>
      match format_opt_2f (best_start b), format_opt_2f (best_end b) with
      | Ok from_, Ok to_ =>
          Ok {| answer_text :=
                  lit "Based on the last month of " ++ format_market market
                  ++ lit " data, the best stock to invest in is " ++ (c :: s)
                  ++ lit " with a return of " ++ format_2f (best_return b)
                  ++ lit "% (from $" ++ from_ ++ lit " to $" ++ to_ ++ lit "). "
                  ++ lit "This is based on recent price performance. For a personalized portfolio, please provide your risk tolerance and investment goals.";
                agent := agent_name |}
      | Raise e, _ => Raise e
      | _, Raise e => Raise e
      end
  | _ =>
      Ok {| answer_text :=
              lit "Sorry, I could not determine the best stock to invest in for "
              ++ format_market market ++ lit " due to insufficient data.";
            agent := agent_name |}
  end.

(** [BrokerAgent.answer].  The listing is outside the [try]: what
    [os.listdir] raises is raised to the caller. *)
Definition answer (question : str) (market : option str) : result Reply :=
  let base_dir := path_join (module_dir fs) (lit "../data") in
  let subdir := dirs_get market_dirs market (lit "SP500_data") in
  let data_dir := path_join base_dir subdir in
  if negb (isdir fs data_dir) then
    Ok {| answer_text :=
            lit "No data available for " ++ format_market market ++ lit ".";
          agent := agent_name |}
  else
    match listdir fs data_dir with
    | Raise e => Raise e
    | Ok fnames => reply_for market (scan data_dir fnames)
    end.

End WithPandas.
End FinancialAgent.

Unset Implicit Arguments.

(* ================================================================== *)
(** ** Properties of the retrieval pipeline *)
(* ================================================================== *)

Module PipelineFacts.
Import Py Runtime.

(** The comparison guarding the division: a time that is [<= 0] is not [> 0]. *)
Lemma leb_zero_not_pos (x : float) :
  (x <=? 0)%float = true -> (0 <? x)%float = false.
Proof.
  rewrite leb_spec, ltb_spec. unfold SFleb, SFltb.
  destruct (Prim2SF x) as [[]|[]| |[] m e]; simpl; congruence.
Qed.

Lemma bind_ok {A B} (m : M A) (k : A -> M B) w a w' :
  m w = (Ok a, w') -> bind m k w = k a w'.
Proof. intros H. unfold bind. now rewrite H. Qed.

Lemma bind_time {B} (k : float -> M B) w :
  bind time_time k w = k (clock w (ticks w)) (tick w).
Proof. reflexivity. Qed.

(** The world in which the store is queried, and the one left after. *)
Definition at_query (question : str) (w : World) : World :=
  tick (tick (log (EncodeCall [question]) (tick w))).

Definition after_query (question : str) (v : list float) (k : nat) (w : World)
  : World :=
  tick (log (QueryCall [v] k) (at_query question w)).

(** What [query_embedding] returns when neither collaborator raises. *)
Definition results_of (question : str) (v : list float) (qr : QueryResult)
  (w : World) : EmbeddingModel.Results :=
  let n := ticks w in
  let embedding_time := (clock w (1 + n) - clock w n)%float in
  let query_time := (clock w (3 + n) - clock w (2 + n))%float in
  {| EmbeddingModel.documents := qr_documents qr;
     EmbeddingModel.distances := qr_distances qr;
     EmbeddingModel.embedding_time := Some embedding_time;
     EmbeddingModel.query_time := Some query_time;
     EmbeddingModel.total_retrieval_time :=
       Some (embedding_time + query_time)%float;
     EmbeddingModel.embedding_dimensions := Some (length v);
     EmbeddingModel.embedding_model := Some (lit "all-MiniLM-L6-v2") |}.

(** [query_embedding], run: every way it can end. *)
Lemma query_embedding_run env question k w :
  EmbeddingModel.query_embedding env question k w =
  match embedder_encode env (tick w) [question] with
  | Raise e => (Raise e, log (EncodeCall [question]) (tick w))
  | Ok [] => (Raise (IndexError (lit "list index out of range")),
              log (EncodeCall [question]) (tick w))
  | Ok (v :: _) =>
      match collection_query env (at_query question w) [v] k with
      | Raise e => (Raise e, log (QueryCall [v] k) (at_query question w))
      | Ok qr => (Ok (results_of question v qr w), after_query question v k w)
      end
  end.
Proof.
  unfold EmbeddingModel.query_embedding.
  rewrite bind_time. unfold bind at 1. unfold call_encode.
  destruct (embedder_encode env (tick w) [question]) as [[|v vs]|e];
    reflexivity.
Qed.

(** [generate_answer], run. *)
Definition answer_of (prompt : str) (c : Choice) (w : World) : LlmWrapper.Answer :=
  let generation_time := (clock w (S (ticks w)) - clock w (ticks w))%float in
  let input_tokens := length (split prompt) in
  let output_tokens := length (split (choice_text c)) in
  {| LlmWrapper.text := choice_text c;
     LlmWrapper.generation_time := generation_time;
     LlmWrapper.input_tokens := input_tokens;
     LlmWrapper.output_tokens := output_tokens;
     LlmWrapper.total_tokens := input_tokens + output_tokens;
     LlmWrapper.tokens_per_second :=
       if (0 <? generation_time)%float
       then Float (float_of_nat output_tokens / generation_time)%float
       else Int 0 |}.

Definition after_llm (prompt : str) (w : World) : World :=
  tick (log (LlmCall prompt 200) (tick w)).

Lemma generate_answer_run env prompt w :
  LlmWrapper.generate_answer env prompt w =
  match llm env (tick w) prompt 200 with
  | Raise e => (Raise e, log (LlmCall prompt 200) (tick w))
  | Ok {| choices := [] |} =>
      (Raise (IndexError (lit "list index out of range")), after_llm prompt w)
  | Ok {| choices := c :: _ |} => (Ok (answer_of prompt c w), after_llm prompt w)
  end.
Proof.
  unfold LlmWrapper.generate_answer.
  rewrite bind_time. unfold bind at 1. unfold call_llm.
  destruct (llm env (tick w) prompt 200) as [[[|c cs]]|e]; reflexivity.
Qed.

End PipelineFacts.

Module PipelineExamples.
Import Py Runtime.

(** A clock that advances by one second per reading. *)
Definition steady_clock (n : nat) : float := float_of_nat n.

Definition world0 : World :=
  {| clock := steady_clock; ticks := 0; calls := [] |}.

(** A provider returning one fixed vector, a store returning fixed documents,
    a model returning a fixed text. *)
Definition fixed_env (v : list float) (qr : QueryResult) (reply : str) : Env :=
  {| embedder_encode := fun _ _ => Ok [v];
     collection_query := fun _ _ _ => Ok qr;
     llm := fun _ _ _ => Ok {| choices := [ {| choice_text := reply |} ] |} |}.

Definition one_doc : QueryResult :=
  {| qr_documents := Some [[lit "AAPL closed at $150"; lit "MSFT closed at $300"]];
     qr_distances := Some [[0.25%float; 0.5%float]] |}.

Definition no_docs : QueryResult :=
  {| qr_documents := Some [[]]; qr_distances := Some [[]] |}.

End PipelineExamples.

Section PipelineClaims.
Import Py Runtime PipelineFacts PipelineExamples.

(** C7. For every generation in which the model returns a completion, the
    answer record reports token counts that are whitespace-delimited word
    counts, and its tokens-per-second is the output token count divided by
    the generation time when that time is strictly positive, and the integer
    0 when it is zero or negative (no division takes place then). *)
Theorem tokens_per_second_guarded env prompt w c cs :
  llm env (tick w) prompt 200 = Ok {| choices := c :: cs |} ->
  exists a w',
    LlmWrapper.generate_answer env prompt w = (Ok a, w') /\
    LlmWrapper.text a = choice_text c /\
    LlmWrapper.input_tokens a = length (split prompt) /\
    LlmWrapper.output_tokens a = length (split (LlmWrapper.text a)) /\
    LlmWrapper.generation_time a
      = (clock w (S (ticks w)) - clock w (ticks w))%float /\
    ((0 <? LlmWrapper.generation_time a)%float = true ->
       LlmWrapper.tokens_per_second a
       = Float (float_of_nat (LlmWrapper.output_tokens a)
                / LlmWrapper.generation_time a)%float) /\
    ((LlmWrapper.generation_time a <=? 0)%float = true ->
       LlmWrapper.tokens_per_second a = Int 0).
Proof.
  intros Hllm.
  exists (answer_of prompt c w), (after_llm prompt w).
  split.
  { rewrite generate_answer_run, Hllm. reflexivity. }
  repeat split.
  - intros Hpos. cbn. cbn in Hpos. now rewrite Hpos.
  - intros Hneg. apply leb_zero_not_pos in Hneg. cbn. cbn in Hneg.
    now rewrite Hneg.
Qed.

Lemma tokens_per_second_guarded_witness :
  exists a w',
    LlmWrapper.generate_answer (fixed_env [] no_docs (lit "buy low sell high"))
      (lit "What now?") world0 = (Ok a, w') /\
    LlmWrapper.output_tokens a = 4 /\
    LlmWrapper.tokens_per_second a = Float 4%float.
Proof.
  destruct (tokens_per_second_guarded
              (fixed_env [] no_docs (lit "buy low sell high"))
              (lit "What now?") world0
              {| choice_text := lit "buy low sell high" |} [] eq_refl)
    as (a & w' & Hrun & Htext & _ & Hout & Htime & Hpos & _).
  exists a, w'. split; [exact Hrun|].
  rewrite Htext in Hout. split; [exact Hout|].
  rewrite Hpos; rewrite Htime, ?Hout; vm_compute; reflexivity.
Defined.

(** A vector is malformed for a model of dimension [dim] when its length is
    not [dim] or a component is NaN or infinite. *)
Definition finite (x : float) : bool := negb (is_nan x) && negb (is_infinity x).

Definition malformed (dim : nat) (v : list float) : bool :=
  negb (length v =? dim) || negb (forallb finite v).

(** C8, as stated, fails: a provider that returns the one-component vector
    [nan] for a model of dimension 384 (wrong dimensionality, not finite)
    does not make [query_embedding] fail; the vector is passed to the store
    as it is and the store's result is returned. *)
Lemma malformed_vector_reaches_store :
  malformed 384 [nan] = true /\
  exists r w',
    EmbeddingModel.query_embedding (fixed_env [nan] no_docs []) (lit "q") 3 world0
      = (Ok r, w') /\
    calls w' = [QueryCall [[nan]] 3; EncodeCall [lit "q"]] /\
    EmbeddingModel.embedding_dimensions r = Some 1.
Proof.
  split; [reflexivity|].
  eexists _, _. split; [rewrite query_embedding_run; reflexivity|].
  split; reflexivity.
Qed.

(** C8, amended. [query_embedding] validates nothing and defines no error of
    its own: when the provider raises, that exception leaves unchanged; when
    it returns a vector, whatever its length and components, exactly that
    vector is passed to the store with [k], and the outcome is the store's,
    its exception or its result with the dimension of the vector recorded. *)
Theorem query_embedding_validates_nothing env question k w :
  match embedder_encode env (tick w) [question] with
  | Raise e =>
      exists w', EmbeddingModel.query_embedding env question k w = (Raise e, w')
  | Ok [] =>
      exists msg w',
        EmbeddingModel.query_embedding env question k w
        = (Raise (IndexError msg), w')
  | Ok (v :: _) =>
      exists r w',
        EmbeddingModel.query_embedding env question k w = (r, w') /\
        (exists w'', calls w' = QueryCall [v] k :: EncodeCall [question] :: calls w''
                     /\ calls w'' = calls w) /\
        match collection_query env (at_query question w) [v] k with
        | Raise e => r = Raise e
        | Ok qr =>
            exists res,
              r = Ok res /\
              EmbeddingModel.documents res = qr_documents qr /\
              EmbeddingModel.distances res = qr_distances qr /\
              EmbeddingModel.embedding_dimensions res = Some (length v)
        end
  end.
Proof.
  rewrite query_embedding_run.
  destruct (embedder_encode env (tick w) [question]) as [[|v vs]|e].
  - eexists _, _. reflexivity.
  - destruct (collection_query env (at_query question w) [v] k) as [qr|e].
    + eexists _, _. split; [reflexivity|]. split.
      * exists w. split; reflexivity.
      * eexists. repeat split.
    + eexists _, _. split; [reflexivity|]. split.
      * exists w. split; reflexivity.
      * reflexivity.
  - eexists. reflexivity.
Qed.

(** The documents the debug entry point reads off a store result. *)
Definition first_documents (qr : QueryResult) : list str :=
  match qr_documents qr with
  | Some (docs :: _) => docs
  | _ => []
  end.

Definition blank_line : str := [10%N; 10%N].

(** The prompt template, spelled out. *)
Definition template (context question : str) : str :=
  lit "Context:" ++ [10%N] ++ context ++ blank_line
      ++ lit "Question: " ++ question ++ [10%N] ++ lit "Answer:".

Ltac run_step :=
  first [ rewrite bind_time
        | rewrite query_embedding_run
        | rewrite generate_answer_run ];
  cbv beta.

(** The debug entry point, run with collaborators that answer. *)
Lemma query_rag_debug_ok env question w v vs qr c cs :
  (forall w', embedder_encode env w' [question] = Ok (v :: vs)) ->
  (forall w', collection_query env w' [v] 3 = Ok qr) ->
  (forall w',
     llm env w' (template (join blank_line (first_documents qr)) question) 200
     = Ok {| choices := c :: cs |}) ->
  exists d w',
    RagEngine.query_rag_debug env question w = (Ok d, w') /\
    RagEngine.retrieved_documents d = first_documents qr /\
    RagEngine.context d = join blank_line (RagEngine.retrieved_documents d) /\
    RagEngine.prompt d = template (RagEngine.context d) question /\
    RagEngine.num_docs_retrieved d = length (first_documents qr) /\
    hd_error (calls w') = Some (LlmCall (RagEngine.prompt d) 200) /\
    RagEngine.answer d = choice_text c.
Proof.
  intros Henc Hquery Hllm.
  unfold RagEngine.query_rag_debug.
  do 2 run_step.
  erewrite bind_ok
    by (rewrite query_embedding_run, Henc, Hquery; reflexivity).
  run_step.
  assert (Hdocs :
    (if truthy (EmbeddingModel.documents (results_of question v qr (tick (tick w))))
     then lift (subscript (EmbeddingModel.documents
                             (results_of question v qr (tick (tick w)))) 0)
     else ret [])
    = ret (first_documents qr)).
  { unfold first_documents. cbn.
    destruct (qr_documents qr) as [[|d0 ds]|]; reflexivity. }
  rewrite Hdocs. clear Hdocs.
  unfold bind at 1, ret at 1.
  set (dists := if truthy _ then _ else _).
  assert (Hdists : exists ds, forall w0, dists w0 = (Ok ds, w0)).
  { subst dists. cbn. destruct (qr_distances qr) as [[|x0 xs]|];
      eexists; intros; reflexivity. }
  destruct Hdists as (ds & Hds).
  unfold bind at 1. rewrite Hds.
  do 2 run_step.
  run_step.
  erewrite bind_ok
    by (rewrite generate_answer_run; unfold RagEngine.build_prompt;
        fold blank_line;
        change (lit "Context:" ++ [10%N] ++ ?c ++ blank_line
                  ++ lit "Question: " ++ ?q ++ [10%N] ++ lit "Answer:")
          with (template c q);
        rewrite Hllm; reflexivity).
  do 2 run_step.
  eexists _, _. split; [reflexivity|].
  cbn [RagEngine.retrieved_documents RagEngine.context RagEngine.prompt
       RagEngine.answer RagEngine.num_docs_retrieved].
  repeat split.
Qed.

(** The plain entry point, run with collaborators that answer and a store
    result that holds a list of documents for the query. *)
Lemma query_rag_ok env question w v vs docs rest dists c cs :
  (forall w', embedder_encode env w' [question] = Ok (v :: vs)) ->
  (forall w', collection_query env w' [v] 3
              = Ok {| qr_documents := Some (docs :: rest);
                      qr_distances := dists |}) ->
  (forall w',
     llm env w' (template (join blank_line docs) question) 200
     = Ok {| choices := c :: cs |}) ->
  exists w',
    RagEngine.query_rag env question w = (Ok (choice_text c), w') /\
    hd_error (calls w')
    = Some (LlmCall (template (join blank_line docs) question) 200).
Proof.
  intros Henc Hquery Hllm.
  unfold RagEngine.query_rag.
  erewrite bind_ok
    by (rewrite query_embedding_run, Henc, Hquery; reflexivity).
  unfold bind at 1, lift at 1. cbn [results_of EmbeddingModel.documents
    qr_documents subscript index nth_error].
  erewrite bind_ok
    by (rewrite generate_answer_run; unfold RagEngine.build_prompt;
        fold blank_line;
        change (lit "Context:" ++ [10%N] ++ ?c ++ blank_line
                  ++ lit "Question: " ++ ?q ++ [10%N] ++ lit "Answer:")
          with (template c q);
        rewrite Hllm; reflexivity).
  eexists. split; reflexivity.
Qed.

(** C1. For every question and every result the store returns for it, the
    debug entry point returns a trace whose context is the retrieved chunk
    texts joined with a blank line in the order of the result (the empty
    string when there is none) and whose prompt is the fixed template around
    that context and the question; that prompt is what the model is called
    with. *)
Theorem debug_context_and_prompt env question w v vs qr c cs :
  (forall w', embedder_encode env w' [question] = Ok (v :: vs)) ->
  (forall w', collection_query env w' [v] 3 = Ok qr) ->
  (forall w',
     llm env w' (template (join blank_line (first_documents qr)) question) 200
     = Ok {| choices := c :: cs |}) ->
  exists d w',
    RagEngine.query_rag_debug env question w = (Ok d, w') /\
    RagEngine.retrieved_documents d = first_documents qr /\
    RagEngine.context d = join blank_line (first_documents qr) /\
    (first_documents qr = [] -> RagEngine.context d = []) /\
    RagEngine.prompt d = template (RagEngine.context d) question /\
    hd_error (calls w') = Some (LlmCall (RagEngine.prompt d) 200).
Proof.
  intros Henc Hquery Hllm.
  destruct (query_rag_debug_ok env question w v vs qr c cs Henc Hquery Hllm)
    as (d & w' & Hrun & Hdocs & Hctx & Hprompt & _ & Hcall & _).
  exists d, w'. rewrite Hdocs in Hctx.
  repeat split; try assumption.
  intros Hnone. now rewrite Hctx, Hnone.
Qed.

Lemma debug_context_and_prompt_witness :
  exists d w',
    RagEngine.query_rag_debug
      (fixed_env [0.5%float] one_doc (lit "Up."))
      (lit "How is AAPL doing?") world0 = (Ok d, w') /\
    RagEngine.context d
    = lit "AAPL closed at $150" ++ blank_line ++ lit "MSFT closed at $300".
Proof.
  destruct (debug_context_and_prompt
              (fixed_env [0.5%float] one_doc (lit "Up."))
              (lit "How is AAPL doing?") world0 [0.5%float] [] one_doc
              {| choice_text := lit "Up." |} []
              (fun _ => eq_refl) (fun _ => eq_refl) (fun _ => eq_refl))
    as (d & w' & Hrun & _ & Hctx & _).
  exists d, w'. split; [exact Hrun|]. rewrite Hctx. reflexivity.
Defined.

(** C9. For every question, when the store holds no documents and so
    returns an empty list of documents for the query, neither entry point
    fails: both build the prompt around the empty context and return what
    the model answers to it. *)
Theorem empty_store_proceeds env question w v vs rest dists c cs :
  (forall w', embedder_encode env w' [question] = Ok (v :: vs)) ->
  (forall w', collection_query env w' [v] 3
              = Ok {| qr_documents := Some ([] :: rest);
                      qr_distances := dists |}) ->
  (forall w', llm env w' (template [] question) 200
              = Ok {| choices := c :: cs |}) ->
  (exists w',
     RagEngine.query_rag env question w = (Ok (choice_text c), w') /\
     hd_error (calls w') = Some (LlmCall (template [] question) 200)) /\
  (exists d w',
     RagEngine.query_rag_debug env question w = (Ok d, w') /\
     RagEngine.retrieved_documents d = [] /\
     RagEngine.num_docs_retrieved d = 0 /\
     RagEngine.context d = [] /\
     RagEngine.prompt d = template [] question /\
     hd_error (calls w') = Some (LlmCall (template [] question) 200) /\
     RagEngine.answer d = choice_text c).
Proof.
  intros Henc Hquery Hllm. split.
  - exact (query_rag_ok env question w v vs [] rest dists c cs Henc Hquery Hllm).
  - destruct (query_rag_debug_ok env question w v vs _ c cs Henc Hquery Hllm)
      as (d & w' & Hrun & Hdocs & Hctx & Hprompt & Hnum & Hcall & Hans).
    cbn in Hdocs, Hnum. rewrite Hdocs in Hctx. cbn in Hctx.
    rewrite Hctx in Hprompt. rewrite Hprompt in Hcall.
    exists d, w'. repeat split; assumption.
Qed.

Lemma empty_store_proceeds_witness :
  (exists w',
     RagEngine.query_rag (fixed_env [0.5%float] no_docs (lit "I do not know."))
       (lit "How is AAPL doing?") world0
     = (Ok (lit "I do not know."), w')) /\
  (exists d w',
     RagEngine.query_rag_debug
       (fixed_env [0.5%float] no_docs (lit "I do not know."))
       (lit "How is AAPL doing?") world0 = (Ok d, w') /\
     RagEngine.context d = []).
Proof.
  destruct (empty_store_proceeds
              (fixed_env [0.5%float] no_docs (lit "I do not know."))
              (lit "How is AAPL doing?") world0 [0.5%float] [] [] (Some [[]])
              {| choice_text := lit "I do not know." |} []
              (fun _ => eq_refl) (fun _ => eq_refl) (fun _ => eq_refl))
    as ((w1 & Hplain & _) & (d & w2 & Hrun & _ & _ & Hctx & _)).
  split.
  - exists w1. exact Hplain.
  - exists d, w2. split; assumption.
Defined.

End PipelineClaims.

(* ================================================================== *)
(** ** Properties of the decision parser and of order placement *)
(* ================================================================== *)

Module StringFacts.
Import Py.

Lemma str_eqb_eq (a b : str) : str_eqb a b = true <-> a = b.
Proof.
  revert b. induction a as [|x a IH]; intros [|y b]; simpl;
    try (split; [discriminate|discriminate]); try tauto.
  rewrite andb_true_iff, N.eqb_eq, IH. split.
  - intros [-> ->]. reflexivity.
  - intros H. injection H as -> ->. auto.
Qed.

Lemma startswith_nil (s : str) : startswith s [] = true.
Proof. destruct s; reflexivity. Qed.

Lemma startswith_char (c x : char) (s : str) :
  startswith (x :: s) [c] = N.eqb c x.
Proof. simpl. now rewrite startswith_nil, andb_true_r. Qed.

(** A one-character needle is found at the first position holding it. *)
Lemma find_from_absent (c : char) (s : str) (i : Z) :
  ~ In c s -> find_from i s [c] = (-1)%Z.
Proof.
  revert i. induction s as [|x s IH]; intros i Hc; [reflexivity|].
  cbn [find_from]. rewrite startswith_char.
  destruct (N.eqb_spec c x) as [->|Hne].
  - exfalso. apply Hc. now left.
  - apply IH. intros Hin. apply Hc. now right.
Qed.

Lemma find_from_first (c : char) (p t : str) (i : Z) :
  ~ In c p -> find_from i (p ++ c :: t) [c] = (i + Z.of_nat (length p))%Z.
Proof.
  revert i. induction p as [|x p IH]; intros i Hc;
    cbn [find_from app]; rewrite startswith_char.
  - rewrite N.eqb_refl. simpl. lia.
  - destruct (N.eqb_spec c x) as [->|Hne].
    + exfalso. apply Hc. now left.
    + rewrite IH by (intros Hin; apply Hc; now right). simpl length. lia.
Qed.

(** [rfind] with a one-character needle: -1 when it is absent, else the
    position of its last occurrence. *)
Lemma rfind_from_spec (c : char) (s : str) (i : Z) :
  (0 <= i)%Z ->
  (rfind_from i s [c] = (-1)%Z /\ ~ In c s) \/
  (exists p t, s = p ++ c :: t /\ ~ In c t /\
               rfind_from i s [c] = (i + Z.of_nat (length p))%Z).
Proof.
  revert i. induction s as [|x s IH]; intros i Hi.
  - left. split; [reflexivity|intros []].
  - destruct (IH (i + 1)%Z ltac:(lia)) as [[Hr Hc]|(p & t & -> & Ht & Hr)].
    + cbn [rfind_from]. rewrite Hr, startswith_char. cbn [Z.leb Z.compare].
      destruct (N.eqb_spec c x) as [->|Hne].
      * right. exists [], s. repeat split; [assumption|simpl; lia].
      * left. split; [reflexivity|]. intros [Heq|Hin]; [congruence|auto].
    + right. exists (x :: p), t. repeat split; [assumption|].
      cbn [rfind_from app]. rewrite Hr.
      destruct (Z.leb_spec 0 (i + 1 + Z.of_nat (length p))); simpl length; lia.
Qed.

Lemma rfind_from_last (c : char) (p t : str) (i : Z) :
  (0 <= i)%Z -> ~ In c t ->
  rfind_from i (p ++ c :: t) [c] = (i + Z.of_nat (length p))%Z.
Proof.
  revert i. induction p as [|x p IH]; intros i Hi Hc; cbn [rfind_from app].
  - destruct (rfind_from_spec c t (i + 1) ltac:(lia))
      as [[Hr _]|(p & u & -> & _ & _)].
    + rewrite Hr, startswith_char, N.eqb_refl. simpl. lia.
    + exfalso. apply Hc. apply in_or_app. right. now left.
  - rewrite IH by (try assumption; lia).
    destruct (Z.leb_spec 0 (i + 1 + Z.of_nat (length p))); simpl length; lia.
Qed.

Lemma slice_bound_inside (len i : Z) :
  (0 <= i <= len)%Z -> slice_bound len i = i.
Proof.
  intros H. unfold slice_bound.
  destruct (Z.ltb_spec i 0); lia.
Qed.

(** [ (p + m + t)[len(p) : len(p) + len(m)] == m ] *)
Lemma slice_middle (p m t : str) :
  slice (p ++ m ++ t) (Z.of_nat (length p)) (Z.of_nat (length p + length m)) = m.
Proof.
  unfold slice. rewrite !length_app.
  rewrite !slice_bound_inside by lia.
  replace (Z.to_nat (Z.of_nat (length p + length m) - Z.of_nat (length p)))
    with (length m) by lia.
  rewrite Nat2Z.id, skipn_app, skipn_all, Nat.sub_diag. cbn [app skipn].
  rewrite firstn_app, firstn_all, Nat.sub_diag. cbn [firstn].
  apply app_nil_r.
Qed.

(** A slice that ends at 0 is empty. *)
Lemma slice_to_zero (s : str) (a : Z) : slice s a 0 = [].
Proof.
  unfold slice.
  assert (H : slice_bound (Z.of_nat (length s)) 0 = 0%Z)
    by (apply slice_bound_inside; lia).
  rewrite H.
  assert (Ha : (0 <= slice_bound (Z.of_nat (length s)) a)%Z)
    by (unfold slice_bound; lia).
  replace (Z.to_nat (0 - slice_bound (Z.of_nat (length s)) a)) with 0 by lia.
  reflexivity.
Qed.

(** [s[-1:e]] is empty, or the last character when [e] is the length. *)
Lemma slice_from_last (s : str) (e : Z) :
  (0 <= e <= Z.of_nat (length s))%Z ->
  slice s (-1) e = [] \/
  (exists q z, s = q ++ [z] /\ e = Z.of_nat (length s) /\ slice s (-1) e = [z]).
Proof.
  intros He. destruct s as [|x s'] using rev_ind.
  - left. unfold slice. simpl. now destruct (Z.to_nat _).
  - clear IHs'. rewrite length_app in *. cbn [length] in *.
    unfold slice. rewrite length_app. cbn [length].
    rewrite (slice_bound_inside _ e) by lia.
    assert (Ha : slice_bound (Z.of_nat (length s' + 1)) (-1)
                 = Z.of_nat (length s')).
    { unfold slice_bound. cbn [Z.ltb Z.compare]. lia. }
    rewrite Ha, Nat2Z.id, skipn_app, skipn_all, Nat.sub_diag. cbn [app skipn].
    destruct (Z.eq_dec e (Z.of_nat (length s' + 1))) as [->|Hne].
    + right. exists s', x. repeat split.
      replace (Z.to_nat (Z.of_nat (length s' + 1) - Z.of_nat (length s')))
        with 1 by lia.
      reflexivity.
    + left. replace (Z.to_nat (e - Z.of_nat (length s'))) with 0 by lia.
      reflexivity.
Qed.

End StringFacts.

(** The decoder: what is scanned is consumed, and the fuel is enough. *)
Module JsonFacts.
Import Py Json.

(** Case analysis on whatever a hypothesis or the goal branches on. *)
Ltac break_in H :=
  repeat match type of H with
         | context [match ?x with _ => _ end] => destruct x eqn:?
         | context [if ?c then _ else _] => destruct c eqn:?
         end.

Ltac inject_all :=
  repeat match goal with
         | E : (_, _) = (_, _) |- _ => injection E as ? ?
         | E : Some _ = Some _ |- _ => injection E as ?
         | E : Scanned _ _ _ = Scanned _ _ _ |- _ => injection E as ? ? ?
         end; subst.

Lemma skip_ws_length s idx r i :
  skip_ws s idx = (r, i) -> length r <= length s.
Proof.
  revert idx. induction s as [|c t IH]; intros idx; cbn [skip_ws].
  - intros [= <- <-]. cbn. lia.
  - destruct (is_ws c).
    + intros H. apply IH in H. cbn [length]. lia.
    + intros [= <- <-]. lia.
Qed.

Lemma startswith_length s w : startswith s w = true -> length w <= length s.
Proof.
  revert w. induction s as [|c t IH]; intros [|x w]; cbn; try lia; try discriminate.
  intros H. apply andb_true_iff in H as [_ H]. apply IH in H. lia.
Qed.

Lemma keyword_consumes s w r :
  keyword s w = Some r -> w <> [] -> length r < length s.
Proof.
  unfold keyword. destruct (startswith s w) eqn:E; [|discriminate].
  intros [= <-] Hw. apply startswith_length in E.
  rewrite length_skipn. destruct w; [contradiction|cbn in *; lia].
Qed.

Lemma span_digits_length s d r : span_digits s = (d, r) -> length r <= length s.
Proof.
  revert d r. induction s as [|c t IH]; intros d r; cbn [span_digits].
  - intros [= <- <-]. cbn. lia.
  - destruct (is_digit c).
    + destruct (span_digits t) as [d' r'] eqn:E. intros [= <- <-].
      specialize (IH _ _ eq_refl). cbn [length]. lia.
    + intros [= <- <-]. lia.
Qed.

Ltac spans :=
  repeat match goal with
         | E : span_digits _ = (_, _) |- _ => apply span_digits_length in E
         end.

Lemma scan_sign_length s neg r : scan_sign s = (neg, r) -> length r <= length s.
Proof.
  unfold scan_sign. intros H. break_in H; inject_all; cbn [length]; lia.
Qed.

Lemma scan_integer_consumes s ds r :
  scan_integer s = Some (ds, r) -> length r < length s.
Proof.
  unfold scan_integer. intros H. break_in H; try discriminate;
    inject_all; spans; cbn [length]; lia.
Qed.

Lemma scan_frac_length s f r : scan_frac s = (f, r) -> length r <= length s.
Proof.
  unfold scan_frac. intros H. break_in H; inject_all; spans; cbn [length] in *; try lia.
Qed.

Lemma scan_exp_length s f r : scan_exp s = (f, r) -> length r <= length s.
Proof.
  unfold scan_exp. intros H. break_in H;
    repeat match goal with
           | E : match ?x with _ => _ end = _ |- _ => break_in E
           end;
    inject_all; spans; cbn [length] in *; lia.
Qed.

Lemma match_number_consumes s v r :
  match_number s = Some (v, r) -> length r < length s.
Proof.
  unfold match_number. intros H.
  destruct (scan_sign s) as [neg s1] eqn:E1.
  destruct (scan_integer s1) as [[ds r1]|] eqn:E2; [|discriminate].
  destruct (scan_frac r1) as [frac r2] eqn:E3.
  destruct (scan_exp r2) as [exp r3] eqn:E4.
  apply scan_sign_length in E1. apply scan_integer_consumes in E2.
  apply scan_frac_length in E3. apply scan_exp_length in E4.
  break_in H; inject_all; lia.
Qed.

(** A string is scanned to its closing quote, which is consumed. *)
Lemma scanstring_bounded n : forall s, length s <= n -> forall idx b acc,
  scanstring s idx b acc <> TooDeep /\
  forall v r i, scanstring s idx b acc = Scanned v r i -> length r < length s.
Proof.
  induction n as [|n IH]; intros s Hn idx b acc.
  { destruct s; [|cbn in Hn; lia]. split; discriminate. }
  assert (IHs : forall t, length t <= n -> forall idx b acc v r i,
            scanstring t idx b acc = Scanned v r i -> length r < length t).
  { intros t Ht idx' b' acc' v r i H.
    exact (proj2 (IH t Ht idx' b' acc') v r i H). }
  assert (IHt : forall t, length t <= n -> forall idx b acc,
            scanstring t idx b acc <> TooDeep).
  { intros t Ht idx' b' acc'. exact (proj1 (IH t Ht idx' b' acc')). }
  destruct s as [|c t]; [split; [discriminate|discriminate]|].
  cbn [length] in Hn. cbn [scanstring]. split.
  - repeat match goal with
           | |- context [match ?x with _ => _ end] => destruct x eqn:?
           | |- context [if ?c then _ else _] => destruct c eqn:?
           end; try discriminate; apply IHt; subst; cbn [length] in *; lia.
  - intros v r i H.
    break_in H; try discriminate; inject_all; cbn [length] in *; try lia;
      apply IHs in H; cbn [length] in *; lia.
Qed.

Lemma scanstring_consumes s idx b acc v r i :
  scanstring s idx b acc = Scanned v r i -> length r < length s.
Proof. apply (scanstring_bounded (length s) s (le_n _)). Qed.

Lemma scanstring_not_too_deep s idx b acc : scanstring s idx b acc <> TooDeep.
Proof. apply (scanstring_bounded (length s) s (le_n _)). Qed.

Ltac break_goal :=
  repeat match goal with
         | |- context [match ?x with _ => _ end] => destruct x eqn:?
         | |- context [if ?c then _ else _] => destruct c eqn:?
         end.

(** What the scanners consumed, read off the equations in the context. *)
Ltac consumed :=
  repeat match goal with
         | E : skip_ws _ _ = (_, _) |- _ => apply skip_ws_length in E
         | E : scanstring _ _ _ _ = Scanned _ _ _ |- _ =>
             apply scanstring_consumes in E
         | E : scanstring _ _ _ _ = TooDeep |- _ =>
             exfalso; exact (scanstring_not_too_deep _ _ _ _ E)
         | E : keyword _ _ = Some _ |- _ =>
             apply keyword_consumes in E; [|discriminate]
         | E : match_number _ = Some _ |- _ => apply match_number_consumes in E
         end.

(** Fuel: twice the length of the text (and one or two more) is enough, and
    what is scanned is consumed. *)
Lemma scan_fuel (fuel : nat) :
  (forall s idx,
     (2 * length s + 1 <= fuel -> scan_once fuel s idx <> TooDeep) /\
     (forall v r i, scan_once fuel s idx = Scanned v r i -> length r < length s)) /\
  (forall s idx ps,
     (2 * length s + 2 <= fuel -> members fuel s idx ps <> TooDeep) /\
     (forall v r i, members fuel s idx ps = Scanned v r i -> length r < length s)) /\
  (forall s idx items,
     (2 * length s + 2 <= fuel -> elements fuel s idx items <> TooDeep) /\
     (forall v r i, elements fuel s idx items = Scanned v r i -> length r < length s)).
Proof.
  induction fuel as [|fuel (IHso & IHme & IHel)].
  { repeat split; intros; cbn in *; try lia; discriminate. }
  assert (Hso : forall s idx v r i,
            scan_once fuel s idx = Scanned v r i -> length r < length s)
    by (intros s idx; apply (IHso s idx)).
  assert (Hme : forall s idx ps v r i,
            members fuel s idx ps = Scanned v r i -> length r < length s)
    by (intros s idx ps; apply (IHme s idx ps)).
  assert (Hel : forall s idx it v r i,
            elements fuel s idx it = Scanned v r i -> length r < length s)
    by (intros s idx it; apply (IHel s idx it)).
  assert (Dso : forall s idx, 2 * length s + 1 <= fuel ->
                              scan_once fuel s idx <> TooDeep)
    by (intros s idx; apply (IHso s idx)).
  assert (Dme : forall s idx ps, 2 * length s + 2 <= fuel ->
                                 members fuel s idx ps <> TooDeep)
    by (intros s idx ps; apply (IHme s idx ps)).
  assert (Del : forall s idx it, 2 * length s + 2 <= fuel ->
                                 elements fuel s idx it <> TooDeep)
    by (intros s idx it; apply (IHel s idx it)).
  clear IHso IHme IHel.
  split; [|split].
  - intros s idx. split.
    + intros Hf. cbn [scan_once]. break_goal; try discriminate; consumed;
        subst; cbn [length] in *;
        first [ apply Dme; cbn [length]; lia | apply Del; cbn [length]; lia ].
    + intros v r i H. cbn [scan_once] in H.
      break_in H; try discriminate; inject_all; consumed;
        cbn [length] in *; try lia;
        first [ apply Hme in H | apply Hel in H ]; cbn [length] in *; lia.
  - intros s idx ps. split.
    + intros Hf. cbn [members]. break_goal; try discriminate; consumed;
        subst; cbn [length] in *;
        try (apply Dme; cbn [length]; lia);
        match goal with
        | E : scan_once fuel ?r ?i = TooDeep |- _ =>
            exfalso; apply (Dso r i); [cbn [length]; lia|exact E]
        | E : scan_once fuel ?r ?i = Scanned _ _ _ |- _ =>
            apply Hso in E; apply Dme; consumed; cbn [length] in *; lia
        end.
    + intros v r i H. cbn [members] in H.
      break_in H; try discriminate; inject_all; consumed;
        repeat match goal with
               | E : scan_once fuel _ _ = Scanned _ _ _ |- _ => apply Hso in E
               | E : members fuel _ _ _ = Scanned _ _ _ |- _ => apply Hme in E
               end; consumed; cbn [length] in *; lia.
  - intros s idx items. split.
    + intros Hf. cbn [elements]. break_goal; try discriminate; consumed;
        subst; cbn [length] in *;
        match goal with
        | E : scan_once fuel ?r ?i = TooDeep |- _ =>
            exfalso; apply (Dso r i); [cbn [length]; lia|exact E]
        | E : scan_once fuel ?r ?i = Scanned _ _ _ |- _ =>
            apply Hso in E; apply Del; consumed; cbn [length] in *; lia
        end.
    + intros v r i H. cbn [elements] in H.
      break_in H; try discriminate; inject_all; consumed;
        repeat match goal with
               | E : scan_once fuel _ _ = Scanned _ _ _ |- _ => apply Hso in E
               | E : elements fuel _ _ _ = Scanned _ _ _ |- _ => apply Hel in E
               end; consumed; cbn [length] in *; lia.
Qed.

(** [json.loads] as modelled never runs out of fuel. *)
Lemma loads_fuel_suffices (s : str) :
  forall msg, Json.loads s <> Raise (RecursionError msg).
Proof.
  intros msg. unfold loads.
  destruct (startswith s [65279%N]); [discriminate|].
  destruct (skip_ws s 0) as [r i] eqn:Hws.
  apply skip_ws_length in Hws.
  destruct (scan_once (2 * length s + 2) r i) as [v r' i'| |] eqn:Hscan.
  - destruct (skip_ws r' i') as [[|] ?]; discriminate.
  - discriminate.
  - exfalso. apply (proj1 (proj1 (scan_fuel _) r i)) in Hscan; [exact Hscan|lia].
Qed.

End JsonFacts.

Module ParserFacts.
Import Py StringFacts.

Definition open_brace : char := 123%N.
Definition close_brace : char := 125%N.

(** The substring [get_decision] hands to the decoder. *)
Definition extract (response : str) : str :=
  slice response (find response [open_brace])
        (rfind response [close_brace] + 1).

Lemma parse_decision_extract (response : str) :
  StockAgent.parse_decision response
  = Json.loads (replace (extract response) [39%N] [34%N]).
Proof. reflexivity. Qed.

(** Without a closing brace nothing is extracted. *)
Lemma extract_without_close (response : str) :
  ~ In close_brace response -> extract response = [].
Proof.
  intros Hc. unfold extract, rfind.
  destruct (rfind_from_spec close_brace response 0 ltac:(lia))
    as [[Hr _]|(p & t & -> & _ & _)].
  - rewrite Hr. apply slice_to_zero.
  - exfalso. apply Hc. apply in_or_app. right. now left.
Qed.

(** Without an opening brace what is extracted is empty or a lone closing
    brace. *)
Lemma extract_without_open (response : str) :
  ~ In open_brace response ->
  extract response = [] \/ extract response = [close_brace].
Proof.
  intros Ho. unfold extract, find, rfind.
  rewrite find_from_absent by assumption.
  destruct (rfind_from_spec close_brace response 0 ltac:(lia))
    as [[Hr _]|(p & t & Hs & Ht & Hr)].
  - rewrite Hr. left. apply slice_to_zero.
  - rewrite Hr.
    destruct (slice_from_last response (0 + Z.of_nat (length p) + 1))
      as [Hnil|(q & z & Hq & He & Hz)].
    + rewrite Hs, length_app. cbn [length]. lia.
    + now left.
    + right. rewrite Hz. f_equal.
      rewrite Hs, length_app in He. cbn [length] in He.
      assert (Hl : length t = 0) by lia.
      destruct t; [|discriminate].
      rewrite Hs in Hq. apply app_inj_tail in Hq as [_ Hq]. now symmetry.
Qed.

(** Between text without an opening brace and text without a closing one,
    an object in braces is extracted whole. *)
Lemma extract_object (before body after : str) :
  ~ In open_brace before -> ~ In close_brace after ->
  extract (before ++ (open_brace :: body ++ [close_brace]) ++ after)
  = open_brace :: body ++ [close_brace].
Proof.
  intros Hb Ha. unfold extract, find, rfind.
  cbn [app]. rewrite find_from_first by assumption.
  replace (before ++ open_brace :: (body ++ [close_brace]) ++ after)
    with ((before ++ open_brace :: body) ++ close_brace :: after)
    by (rewrite <- !app_assoc; reflexivity).
  rewrite rfind_from_last by (assumption || lia).
  replace ((before ++ open_brace :: body) ++ close_brace :: after)
    with (before ++ (open_brace :: body ++ [close_brace]) ++ after)
    by (rewrite <- !app_assoc; cbn [app]; rewrite <- app_assoc; reflexivity).
  replace (0 + Z.of_nat (length (before ++ open_brace :: body)) + 1)%Z
    with (Z.of_nat (length before + length (open_brace :: body ++ [close_brace]))).
  - rewrite Z.add_0_l. apply slice_middle.
  - rewrite length_app. cbn [length]. rewrite length_app. cbn [length]. lia.
Qed.

End ParserFacts.

Section AgentClaims.
Import Py Runtime StringFacts ParserFacts PipelineExamples.

(** The fallback decision for a response and the text of a cause. *)
Definition hold_decision (cause response : str) : value :=
  VDict [ (lit "action", VStr (lit "hold"));
          (lit "reason", VStr (lit "Failed to parse decision: " ++ cause));
          (lit "raw_response", VStr response) ].

Lemma loads_nothing :
  Json.loads (replace [] [39%N] [34%N])
  = Raise (JSONDecodeError (lit "Expecting value") [] 0).
Proof. reflexivity. Qed.

Lemma loads_lone_close :
  Json.loads (replace [close_brace] [39%N] [34%N])
  = Raise (JSONDecodeError (lit "Expecting value") [close_brace] 0).
Proof. reflexivity. Qed.

(** C3. For every response the pipeline returns, [get_decision] returns a
    decision and raises nothing: when decoding the extracted, quote-normalised
    text fails, the decision is the fallback with action "hold", a reason that
    names the failure and its cause, and the response itself as raw response;
    a response without an opening or without a closing brace always ends
    there. *)
Theorem get_decision_never_raises env user_query market w response w1 :
  RagEngine.query_rag env (StockAgent.craft_prompt user_query market) w
  = (Ok response, w1) ->
  exists decision,
    StockAgent.get_decision env user_query market w = (Ok decision, w1) /\
    (forall e,
       Json.loads (replace (extract response) [39%N] [34%N]) = Raise e ->
       decision = hold_decision (str_of_exn e) response) /\
    (~ In open_brace response \/ ~ In close_brace response ->
       decision
       = hold_decision (lit "Expecting value: line 1 column 1 (char 0)") response).
Proof.
  intros Hrag.
  unfold StockAgent.get_decision.
  rewrite (PipelineFacts.bind_ok _ _ _ _ _ Hrag).
  eexists. split; [reflexivity|].
  rewrite parse_decision_extract. split.
  - intros e He. rewrite He. reflexivity.
  - intros Hnone.
    assert (Hx : extract response = [] \/ extract response = [close_brace]).
    { destruct Hnone as [Ho|Hc].
      - now apply extract_without_open.
      - left. now apply extract_without_close. }
    destruct Hx as [-> | ->].
    + rewrite loads_nothing. reflexivity.
    + rewrite loads_lone_close. reflexivity.
Qed.

Lemma get_decision_never_raises_witness :
  exists w1,
    StockAgent.get_decision
      (fixed_env [0.5%float] no_docs (lit "I would rather not say."))
      (lit "Should I buy AAPL today?") (lit "NASDAQ") world0
    = (Ok (hold_decision (lit "Expecting value: line 1 column 1 (char 0)")
             (lit "I would rather not say.")), w1).
Proof.
  eexists.
  destruct (get_decision_never_raises
              (fixed_env [0.5%float] no_docs (lit "I would rather not say."))
              (lit "Should I buy AAPL today?") (lit "NASDAQ") world0
              (lit "I would rather not say.") _ eq_refl)
    as (decision & Hrun & _ & Hnone).
  rewrite Hrun. rewrite Hnone; [reflexivity|].
  left. vm_compute. intuition discriminate.
Defined.









(** C5. For every decision, [place_order] answers "success" exactly when
    the action is "buy" or "sell" and the keys symbol and amount are both
    there; otherwise it answers "no_action" with the decision's reason as its
    message, or the default message when there is no reason.  The decision
    {action: "hold", reason: "Insufficient data"} is answered "no_action"
    with the message "Insufficient data". *)
Theorem place_order_status format decision :
  let r := StockAgent.place_order format decision in
  let placeable :=
    (dict_get decision (lit "action") = Some (VStr (lit "buy")) \/
     dict_get decision (lit "action") = Some (VStr (lit "sell"))) /\
    dict_get decision (lit "symbol") <> None /\
    dict_get decision (lit "amount") <> None in
  StockAgent.order r = decision /\
  (StockAgent.status r = lit "success" <-> placeable) /\
  (~ placeable ->
     StockAgent.status r = lit "no_action" /\
     StockAgent.message r
     = match dict_get decision (lit "reason") with
       | Some reason => reason
       | None => VStr (lit "No valid action taken.")
       end) /\
  (let hold := [ (lit "action", VStr (lit "hold"));
                 (lit "reason", VStr (lit "Insufficient data")) ] in
   StockAgent.status (StockAgent.place_order format hold) = lit "no_action" /\
   StockAgent.message (StockAgent.place_order format hold)
   = VStr (lit "Insufficient data")).
Proof.
  intros r placeable.
  assert (Hiff :
    is_true (StockAgent.is_buy_or_sell (dict_get decision (lit "action"))
             && dict_mem decision (lit "symbol")
             && dict_mem decision (lit "amount")) <-> placeable).
  { unfold is_true, placeable, dict_mem, StockAgent.is_buy_or_sell.
    rewrite !andb_true_iff.
    destruct (dict_get decision (lit "action")) as [[| | | |a| |]|];
      destruct (dict_get decision (lit "symbol"));
      destruct (dict_get decision (lit "amount"));
      try (split; [intros [[H _] _]; discriminate
                  | intros [[H|H] _]; discriminate]);
      try (split; [intros [[_ H] _]; discriminate
                  | intros [_ [H _]]; congruence]);
      try (split; [intros [_ H]; discriminate
                  | intros [_ [_ H]]; congruence]).
    rewrite orb_true_iff, !str_eqb_eq. split.
    - intros [[[-> | ->] _] _]; repeat split; auto; discriminate.
    - intros [[H|H] _]; injection H as ->; auto. }
  subst r. unfold StockAgent.place_order at 1 2 3 4.
  destruct (StockAgent.is_buy_or_sell (dict_get decision (lit "action"))
            && dict_mem decision (lit "symbol")
            && dict_mem decision (lit "amount")) eqn:Hc;
    cbn [StockAgent.status StockAgent.order StockAgent.message];
    (split; [reflexivity|]); (split; [|split; [|split; reflexivity]]).
  - split; [intros _; apply Hiff; reflexivity|reflexivity].
  - intros Hn. exfalso. apply Hn, Hiff. reflexivity.
  - split; [intros H; discriminate H|].
    intros H. apply Hiff in H. discriminate H.
  - intros _. split; reflexivity.
Qed.

End AgentClaims.

(* ================================================================== *)
(** ** Properties of the broker strategy *)
(* ================================================================== *)

Module FloatFacts.

Ltac compare_cases :=
  repeat match goal with
         | H : context [Z.compare ?x ?y] |- _ =>
             destruct (Z.compare_spec x y); cbn [CompOpp] in H
         | |- context [Z.compare ?x ?y] =>
             destruct (Z.compare_spec x y); cbn [CompOpp]
         | H : context [Pos.compare ?x ?y] |- _ =>
             destruct (Pos.compare_spec x y); cbn [CompOpp] in H
         | |- context [Pos.compare ?x ?y] =>
             destruct (Pos.compare_spec x y); cbn [CompOpp]
         end.

(** The order of the specification floats is transitive: below something
    that is below or equal to a third is below the third. *)
Lemma SFcompare_lt_le (a b c : spec_float) :
  SFcompare a b = Some Lt ->
  SFcompare b c = Some Lt \/ SFcompare b c = Some Eq ->
  SFcompare a c = Some Lt.
Proof.
  destruct a as [[]|[]| |[] ma ea], b as [[]|[]| |[] mb eb],
    c as [[]|[]| |[] mc ec]; cbn [SFcompare];
    change (Pos.compare_cont Eq) with Pos.compare;
    intros Hab [Hbc|Hbc]; try discriminate; try reflexivity;
    injection Hab as Hab; injection Hbc as Hbc; f_equal;
    compare_cases; try discriminate; try reflexivity; try lia.
Qed.

Lemma SFcompare_refl_not_lt (a : spec_float) : SFcompare a a <> Some Lt.
Proof.
  destruct a as [[]|[]| |[] m e]; cbn [SFcompare]; try discriminate;
    change (Pos.compare_cont Eq) with Pos.compare;
    rewrite Z.compare_refl, Pos.compare_refl; discriminate.
Qed.

(** What the loop of the broker relies on: once [r] has beaten [b], whatever
    did not beat [b] is not at or above [r]. *)
Lemma beaten_stays_beaten (b r x : float) :
  (b <? r)%float = true -> (b <? x)%float = false -> (r <=? x)%float = false.
Proof.
  rewrite !ltb_spec, leb_spec. unfold SFltb, SFleb.
  intros Hbr Hbx.
  destruct (SFcompare (Prim2SF b) (Prim2SF r)) as [[]|] eqn:Ebr;
    try discriminate.
  destruct (SFcompare (Prim2SF r) (Prim2SF x)) as [[]|] eqn:Erx;
    try reflexivity; exfalso.
  - rewrite (SFcompare_lt_le _ _ _ Ebr (or_intror Erx)) in Hbx. discriminate.
  - rewrite (SFcompare_lt_le _ _ _ Ebr (or_introl Erx)) in Hbx. discriminate.
Qed.

Lemma ltb_irrefl (r : float) : (r <? r)%float = false.
Proof.
  rewrite ltb_spec. unfold SFltb.
  destruct (SFcompare (Prim2SF r) (Prim2SF r)) as [[]|] eqn:E; try reflexivity.
  now apply SFcompare_refl_not_lt in E.
Qed.

Lemma leb_false_ltb_false (r x : float) :
  (r <=? x)%float = false -> (r <? x)%float = false.
Proof.
  rewrite ltb_spec, leb_spec. unfold SFltb, SFleb.
  destruct (SFcompare (Prim2SF r) (Prim2SF x)) as [[]|]; congruence.
Qed.

End FloatFacts.

Module BrokerFacts.
Import Py FinancialAgent FloatFacts.

(** What is asked of [sort_values]: the rows it returns are the rows it was
    given, in ascending order of date. *)
Definition by_date (a b : Z * scalar) : Prop := (fst a <= fst b)%Z.

Definition sorts (sort_values : list (Z * scalar) -> list (Z * scalar)) : Prop :=
  forall l, Permutation l (sort_values l) /\ Sorted by_date (sort_values l).

(** The first instant of the lookback window. *)
Definition cutoff (today : Z) : Z := ((today - 30) * ns_per_day)%Z.

(** A row of the file dated within the window. *)
Definition dated_in_window (today : Z) (r : Row) : bool :=
  match Date r with
  | Some d => (cutoff today <=? d)%Z
  | None => false
  end.

(** The usable rows of a frame within the window, in file order. *)
Definition window (today : Z) (df : list Row) : list (Z * scalar) :=
  filter (fun r => (cutoff today <=? fst r)%Z) (dropna df).

(** The return the code computes from the first and the last close:
    [(end_price - start_price) / start_price * 100], in the arithmetic of
    their dtype. *)
Definition percent_return (start_price end_price : scalar) : float :=
  (truediv (sub end_price start_price) start_price * 100)%float.

(** What a file puts forward: its symbol, return and two prices. *)
Record Candidate := {
  c_symbol : str;
  c_return : float;
  c_start : scalar;
  c_end : scalar
}.

Definition chosen (c : Candidate) : Best :=
  {| best_symbol := Some (c_symbol c);
     best_return := c_return c;
     best_start := Some (c_start c);
     best_end := Some (c_end c) |}.

Definition pick (b : Best) (c : option Candidate) : Best :=
  match c with
  | Some c => if (best_return b <? c_return c)%float then chosen c else b
  | None => b
  end.

Section WithPandas.
Variable sort_values : list (Z * scalar) -> list (Z * scalar).
Variable fs : FileSystem.
Variable today : Z.
Variable data_dir : str.

Definition candidate (fname : str) : option Candidate :=
  if endswith fname (lit ".csv") then
    match symbol_return sort_values fs today (path_join data_dir fname) with
    | Ok (Some (ret, start_price, end_price)) =>
        Some {| c_symbol := replace fname (lit ".csv") [];
                c_return := ret;
                c_start := start_price;
                c_end := end_price |}
    | _ => None
    end
  else None.

Lemma visit_pick (b : Best) (fname : str) :
  visit sort_values fs today data_dir b fname = pick b (candidate fname).
Proof.
  unfold visit, candidate, pick.
  destruct (endswith fname (lit ".csv")); [|reflexivity]. cbn [negb].
  destruct (symbol_return _ _ _ _) as [[[[ret s] e]|]|]; reflexivity.
Qed.

Lemma fold_visit_pick (fnames : list str) (b : Best) :
  fold_left (visit sort_values fs today data_dir) fnames b
  = fold_left pick (map candidate fnames) b.
Proof.
  revert b. induction fnames as [|f l IH]; intros b; [reflexivity|].
  cbn [fold_left map]. now rewrite visit_pick, IH.
Qed.

Lemma scan_pick (fnames : list str) :
  scan sort_values fs today data_dir fnames
  = fold_left pick (map candidate fnames) initial.
Proof. apply fold_visit_pick. Qed.

End WithPandas.

(** Facts about sorted permutations. *)
Lemma Permutation_filter {A} (f : A -> bool) (l l' : list A) :
  Permutation l l' -> Permutation (filter f l) (filter f l').
Proof.
  induction 1 as [|x l l' _ IH|x y l|l l' l'' _ IH1 _ IH2]; cbn [filter].
  - constructor.
  - destruct (f x); [now constructor|assumption].
  - destruct (f x), (f y); try apply Permutation_refl; apply perm_swap.
  - now transitivity (filter f l').
Qed.

Lemma StronglySorted_filter {A} (R : A -> A -> Prop) (f : A -> bool) l :
  StronglySorted R l -> StronglySorted R (filter f l).
Proof.
  induction 1 as [|x l Hs IH Hall]; cbn [filter]; [constructor|].
  destruct (f x); [|assumption].
  constructor; [assumption|].
  rewrite Forall_forall in *. intros y Hy.
  apply filter_In in Hy as [Hy _]. auto.
Qed.

Lemma by_date_trans : Relations_1.Transitive by_date.
Proof. intros a b c. unfold by_date. lia. Qed.

Lemma sorted_head_least (x : Z * scalar) l :
  StronglySorted by_date (x :: l) -> forall y, In y (x :: l) -> by_date x y.
Proof.
  intros Hs y [<-|Hy]; [unfold by_date; lia|].
  apply StronglySorted_inv in Hs as [_ Hall].
  rewrite Forall_forall in Hall. auto.
Qed.

Lemma sorted_last_greatest (l : list (Z * scalar)) d :
  StronglySorted by_date l -> forall y, In y l -> by_date y (last l d).
Proof.
  induction 1 as [|x l Hs IH Hall]; intros y Hy; [destruct Hy|].
  destruct l as [|z l'].
  - destruct Hy as [<-|[]]. unfold by_date. cbn. lia.
  - change (last (x :: z :: l') d) with (last (z :: l') d).
    destruct Hy as [<-|Hy]; [|auto].
    rewrite Forall_forall in Hall. apply Hall.
    destruct (exists_last (l := z :: l') ltac:(discriminate)) as (q & w & Hq).
    rewrite Hq, last_last. apply in_or_app. right. now left.
Qed.

Lemma last_In {A} (l : list A) d : l <> [] -> In (last l d) l.
Proof.
  intros Hl. destruct (exists_last Hl) as (q & w & ->).
  rewrite last_last. apply in_or_app. right. now left.
Qed.

Section WithSort.
Variable sort_values : list (Z * scalar) -> list (Z * scalar).
Hypothesis Hsort : sorts sort_values.
Variable today : Z.

(** The rows the code keeps are the usable rows of the window, sorted. *)
Lemma recent_rows_window (df : list Row) :
  Permutation (window today df) (recent_rows sort_values today df) /\
  StronglySorted by_date (recent_rows sort_values today df).
Proof.
  unfold window, recent_rows, cutoff, one_month_ago.
  destruct (Hsort (dropna df)) as [Hp Hs]. split.
  - now apply Permutation_filter.
  - apply StronglySorted_filter, Sorted_StronglySorted; [|assumption].
    exact by_date_trans.
Qed.

Lemma dropna_dated (df : list Row) :
  length (window today df) <= length (filter (dated_in_window today) df).
Proof.
  unfold window, dated_in_window.
  induction df as [|r df IH]; cbn [dropna filter]; [cbn; lia|].
  destruct (Date r) as [d|]; [|assumption].
  destruct (isna (Close r)); cbn [filter fst];
    destruct (cutoff today <=? d)%Z; cbn [length]; lia.
Qed.

Variable fs : FileSystem.

(** What the [try] block computes for a file that can be read. *)
Lemma symbol_return_spec (path : str) (df : list Row) :
  read_csv fs path = Ok df ->
  (length (window today df) < 2 ->
   symbol_return sort_values fs today path = Ok None) /\
  (2 <= length (window today df) ->
   exists d0 s d1 e,
     symbol_return sort_values fs today path
     = Ok (Some (percent_return s e, s, e)) /\
     In (d0, s) (window today df) /\ In (d1, e) (window today df) /\
     forall r, In r (window today df) -> (d0 <= fst r <= d1)%Z).
Proof.
  intros Hread. unfold symbol_return. rewrite Hread.
  destruct (recent_rows_window df) as [Hp Hs].
  rewrite (Permutation_length Hp).
  set (recent := recent_rows sort_values today df) in *.
  split; intros Hlen.
  - apply Nat.ltb_lt in Hlen. now rewrite Hlen.
  - destruct (Nat.ltb_spec (length recent) 2) as [Hlt|_]; [lia|].
    destruct recent as [|[d0 s] rest] eqn:Hrec; [cbn in Hlen; lia|].
    destruct (last ((d0, s) :: rest) (0%Z, Float64 nan)) as [d1 e] eqn:Hlast.
    exists d0, s, d1, e. cbn [hd snd]. split; [reflexivity|].
    assert (Hin : In (d1, e) ((d0, s) :: rest)).
    { rewrite <- Hlast. apply last_In. discriminate. }
    split; [|split].
    + apply (Permutation_in _ (Permutation_sym Hp)). now left.
    + now apply (Permutation_in _ (Permutation_sym Hp)).
    + intros r Hr. apply (Permutation_in _ Hp) in Hr. split.
      * exact (sorted_head_least _ _ Hs r Hr).
      * pose proof (sorted_last_greatest _ (0%Z, Float64 nan) Hs r Hr) as Hle.
        rewrite Hlast in Hle. exact Hle.
Qed.

Variable data_dir : str.

(** A file with fewer than two rows dated within the window, or that cannot
    be read, puts nothing forward. *)
Lemma candidate_none (fname : str) :
  (forall df, read_csv fs (path_join data_dir fname) = Ok df ->
              length (filter (dated_in_window today) df) < 2) ->
  candidate sort_values fs today data_dir fname = None.
Proof.
  intros Hfew. unfold candidate.
  destruct (endswith fname (lit ".csv")); [|reflexivity].
  destruct (read_csv fs (path_join data_dir fname)) as [df|e] eqn:Hread.
  - destruct (symbol_return_spec _ df Hread) as [Hnone _].
    rewrite Hnone; [reflexivity|].
    pose proof (dropna_dated df). specialize (Hfew df eq_refl). lia.
  - unfold symbol_return. now rewrite Hread.
Qed.

(** A file that puts a candidate forward: what the candidate is. *)
Lemma candidate_some (fname : str) (c : Candidate) :
  candidate sort_values fs today data_dir fname = Some c ->
  endswith fname (lit ".csv") = true /\
  c_symbol c = replace fname (lit ".csv") [] /\
  c_return c = percent_return (c_start c) (c_end c) /\
  exists df d0 d1,
    read_csv fs (path_join data_dir fname) = Ok df /\
    2 <= length (window today df) /\
    In (d0, c_start c) (window today df) /\
    In (d1, c_end c) (window today df) /\
    forall r, In r (window today df) -> (d0 <= fst r <= d1)%Z.
Proof.
  unfold candidate.
  destruct (endswith fname (lit ".csv")); [|discriminate].
  destruct (read_csv fs (path_join data_dir fname)) as [df|e] eqn:Hread.
  - destruct (symbol_return_spec _ df Hread) as [Hnone Hsome].
    destruct (Nat.lt_ge_cases (length (window today df)) 2) as [Hlt|Hge].
    + rewrite (Hnone Hlt). discriminate.
    + destruct (Hsome Hge) as (d0 & s & d1 & e & -> & H0 & H1 & Hall).
      intros [= <-]. cbn. repeat split.
      exists df, d0, d1. repeat split; try assumption; apply Hall; assumption.
  - unfold symbol_return. rewrite Hread. discriminate.
Qed.

End WithSort.

(** The loop over the candidates: nothing is chosen when no return is above
    minus infinity; otherwise the chosen candidate is the first whose return
    no candidate exceeds. *)
Lemma fold_pick_spec (cs : list (option Candidate)) :
  (fold_left pick cs initial = initial /\
   forall c, In (Some c) cs -> (neg_infinity <? c_return c)%float = false) \/
  (exists cs1 c cs2,
     cs = cs1 ++ Some c :: cs2 /\
     fold_left pick cs initial = chosen c /\
     (neg_infinity <? c_return c)%float = true /\
     (forall c', In (Some c') cs1 -> (c_return c <=? c_return c')%float = false) /\
     (forall c', In (Some c') cs2 -> (c_return c <? c_return c')%float = false)).
Proof.
  induction cs as [|x cs IH] using rev_ind.
  - left. split; [reflexivity|intros c []].
  - rewrite fold_left_app. cbn [fold_left].
    destruct IH as [[Hb Hnone]|(cs1 & c & cs2 & -> & Hb & Hc & H1 & H2)];
      rewrite Hb.
    + destruct x as [c|]; cbn [pick initial best_return].
      * destruct (neg_infinity <? c_return c)%float eqn:Hc.
        -- right. exists cs, c, []. repeat split; try assumption.
           ++ intros c' Hin.
              apply (beaten_stays_beaten neg_infinity); auto.
           ++ intros c' [].
        -- left. split; [reflexivity|].
           intros c' Hin. apply in_app_or in Hin as [Hin|[Heq|[]]]; auto.
           now injection Heq as <-.
      * left. split; [reflexivity|].
        intros c' Hin. apply in_app_or in Hin as [Hin|[Heq|[]]]; auto.
        discriminate.
    + destruct x as [c0|]; cbn [pick chosen best_return].
      * destruct (c_return c <? c_return c0)%float eqn:Hlt.
        -- right. exists (cs1 ++ Some c :: cs2), c0, [].
           repeat split.
           ++ destruct (neg_infinity <? c_return c0)%float eqn:E;
                [reflexivity|].
              pose proof (beaten_stays_beaten _ _ _ Hc E) as Hx.
              apply leb_false_ltb_false in Hx. congruence.
           ++ intros c' Hin.
              apply (beaten_stays_beaten (c_return c)); [assumption|].
              apply in_app_or in Hin as [Hin|[Heq|Hin]].
              ** apply leb_false_ltb_false. auto.
              ** injection Heq as <-. apply ltb_irrefl.
              ** auto.
           ++ intros c' [].
        -- right. exists cs1, c, (cs2 ++ [Some c0]).
           repeat split; try assumption.
           ++ now rewrite <- app_assoc.
           ++ intros c' Hin. apply in_app_or in Hin as [Hin|[Heq|[]]]; auto.
              now injection Heq as <-.
      * right. exists cs1, c, (cs2 ++ [None]).
        repeat split; try assumption.
        -- now rewrite <- app_assoc.
        -- intros c' Hin. apply in_app_or in Hin as [Hin|[Heq|[]]]; auto.
           discriminate.
Qed.

End BrokerFacts.

(** A sort by date to run the broker with: the standard merge sort. *)
Module DateOrder <: Orders.TotalLeBool.

Definition t : Type := (Z * FinancialAgent.scalar)%type.

Definition leb (a b : t) : bool := (fst a <=? fst b)%Z.

Lemma leb_total (a b : t) : leb a b = true \/ leb b a = true.
Proof.
  unfold leb. destruct (Z.leb_spec (fst a) (fst b)); [now left|right].
  apply Z.leb_le. lia.
Qed.

End DateOrder.

Module DateSort := Mergesort.Sort DateOrder.

Module BrokerExamples.
Import Py FinancialAgent BrokerFacts.

Lemma date_sort_sorts : sorts DateSort.sort.
Proof.
  intros l. split; [apply DateSort.Permuted_sort|].
  pose proof (DateSort.Sorted_sort l) as Hs.
  induction Hs as [|x l' Hs IH Hhd]; constructor; [assumption|].
  destruct Hhd as [|y l'' Hxy]; constructor.
  unfold by_date. apply Z.leb_le. exact Hxy.
Qed.

Definition today0 : Z := 20000.

(** Noon of the day [n] days before [today0]. *)
Definition days_ago (n : Z) : option Z :=
  Some ((today0 - n) * ns_per_day + ns_per_day / 2)%Z.

Definition sp500_dir : str := lit "/srv/app/../data/SP500_data".

(** A disk with one directory of market data, given as the named frames. *)
Definition disk (files : list (str * list Row)) : FileSystem :=
  {| module_dir := lit "/srv/app";
     isdir := fun p => str_eqb p sp500_dir;
     listdir := fun p =>
       if str_eqb p sp500_dir then Ok (map fst files)
       else Raise (External (lit "FileNotFoundError") p);
     read_csv := fun p =>
       match List.find (fun f => str_eqb p (path_join sp500_dir (fst f))) files with
       | Some f => Ok (snd f)
       | None => Raise (External (lit "FileNotFoundError") p)
       end |}.

(** The same directory, which exists and cannot be listed. *)
Definition locked_disk : FileSystem :=
  {| module_dir := lit "/srv/app";
     isdir := fun p => str_eqb p sp500_dir;
     listdir := fun p => Raise (External (lit "PermissionError") p);
     read_csv := fun p => Raise (External (lit "PermissionError") p) |}.

(** Closes written with a decimal point. *)
Definition rising : list Row :=
  [ {| Date := days_ago 20; Close := Float64 100 |};
    {| Date := days_ago 10; Close := Float64 105 |};
    {| Date := days_ago 1; Close := Float64 110 |} ].

(** Closes written as integers. *)
Definition falling : list Row :=
  [ {| Date := days_ago 1; Close := Int64 48 |};
    {| Date := days_ago 20; Close := Int64 50 |} ].

(** One row in the window, after a far older one: a raw return of 900%. *)
Definition thin : list Row :=
  [ {| Date := days_ago 400; Close := Float64 1 |};
    {| Date := days_ago 2; Close := Float64 10 |} ].

Definition worthless : list Row :=
  [ {| Date := days_ago 9; Close := Float64 0 |};
    {| Date := days_ago 3; Close := Float64 0 |} ].

Definition also_rising : list Row :=
  [ {| Date := days_ago 9; Close := Int64 50 |};
    {| Date := days_ago 3; Close := Int64 55 |} ].


End BrokerExamples.

Section BrokerClaims.
Import Py FinancialAgent FloatFacts BrokerFacts BrokerExamples StringFacts.

(** The directory [BrokerAgent.answer] reads for a market. *)
Definition data_dir_of (fs : FileSystem) (market : option str) : str :=
  path_join (path_join (module_dir fs) (lit "../data"))
            (dirs_get market_dirs market (lit "SP500_data")).

(** The recommendation the answer words for a chosen candidate. *)
Definition recommendation (market : option str) (c : Candidate) : Reply :=
  {| answer_text :=
       lit "Based on the last month of " ++ format_market market
       ++ lit " data, the best stock to invest in is " ++ c_symbol c
       ++ lit " with a return of " ++ format_2f (c_return c)
       ++ lit "% (from $" ++ format_2f (to_float (c_start c))
       ++ lit " to $" ++ format_2f (to_float (c_end c)) ++ lit "). "
       ++ lit "This is based on recent price performance. For a personalized portfolio, please provide your risk tolerance and investment goals.";
     agent := lit "Broker Agent" |}.

Definition insufficient (market : option str) : Reply :=
  {| answer_text :=
       lit "Sorry, I could not determine the best stock to invest in for "
       ++ format_market market ++ lit " due to insufficient data.";
     agent := lit "Broker Agent" |}.

Definition no_data (market : option str) : Reply :=
  {| answer_text :=
       lit "No data available for " ++ format_market market ++ lit ".";
     agent := lit "Broker Agent" |}.

Lemma answer_unfold sort_values fs today question market :
  answer sort_values fs today question market
  = if negb (isdir fs (data_dir_of fs market)) then Ok (no_data market)
    else
      match listdir fs (data_dir_of fs market) with
      | Raise e => Raise e
      | Ok fnames =>
          reply_for market
            (scan sort_values fs today (data_dir_of fs market) fnames)
      end.
Proof. reflexivity. Qed.

Lemma reply_for_initial market : reply_for market initial = Ok (insufficient market).
Proof. reflexivity. Qed.

Lemma reply_for_chosen market c :
  reply_for market (chosen c)
  = match c_symbol c with
    | [] => Ok (insufficient market)
    | _ :: _ => Ok (recommendation market c)
    end.
Proof.
  unfold reply_for, chosen, recommendation.
  cbn [best_symbol best_start best_end best_return format_opt_2f].
  destruct (c_symbol c); reflexivity.
Qed.

(** The loop ends on nothing or on a candidate of the listing. *)
Lemma scan_outcome sort_values fs today data_dir fnames :
  scan sort_values fs today data_dir fnames = initial \/
  exists c, scan sort_values fs today data_dir fnames = chosen c.
Proof.
  rewrite scan_pick.
  destruct (fold_pick_spec (map (candidate sort_values fs today data_dir) fnames))
    as [[Hb _]|(cs1 & c & cs2 & _ & Hb & _)]; eauto.
Qed.

(** C4, as stated, fails for a market whose directory exists and cannot be
    listed: no symbol has a row, let alone two, and the answer is not the
    insufficient-data reply but the error of the listing, raised to the
    caller. *)
Lemma unlistable_directory_raises :
  isdir locked_disk (data_dir_of locked_disk (Some (lit "S&P 500"))) = true /\
  (forall fname,
     read_csv locked_disk
       (path_join (data_dir_of locked_disk (Some (lit "S&P 500"))) fname)
     = Raise (External (lit "PermissionError")
                (path_join (data_dir_of locked_disk (Some (lit "S&P 500"))) fname))) /\
  answer DateSort.sort locked_disk today0 (lit "Best stock?") (Some (lit "S&P 500"))
  = Raise (External (lit "PermissionError") sp500_dir).
Proof.
  split; [vm_compute; reflexivity|]. split; [reflexivity|].
  vm_compute. reflexivity.
Qed.

(** C4, amended. A symbol whose file has fewer than two rows dated within
    the lookback window is skipped: the loop ends in the same state with the
    file in the listing as without it, whatever its prices.  The answer
    raises nothing but what listing the directory of the market raises, and
    when that directory can be listed and no file of the listing has two
    such rows, the answer is the insufficient-data reply. *)
Theorem thin_symbols_are_skipped sort_values fs today :
  sorts sort_values ->
  (forall data_dir before fname after,
     (forall df, read_csv fs (path_join data_dir fname) = Ok df ->
                 length (filter (dated_in_window today) df) < 2) ->
     scan sort_values fs today data_dir (before ++ fname :: after)
     = scan sort_values fs today data_dir (before ++ after)) /\
  (forall question market,
     (exists reply, answer sort_values fs today question market = Ok reply) \/
     (exists e,
        isdir fs (data_dir_of fs market) = true /\
        listdir fs (data_dir_of fs market) = Raise e /\
        answer sort_values fs today question market = Raise e)) /\
  (forall question market fnames,
     isdir fs (data_dir_of fs market) = true ->
     listdir fs (data_dir_of fs market) = Ok fnames ->
     (forall fname df,
        In fname fnames ->
        read_csv fs (path_join (data_dir_of fs market) fname) = Ok df ->
        length (filter (dated_in_window today) df) < 2) ->
     answer sort_values fs today question market
     = Ok {| answer_text :=
               lit "Sorry, I could not determine the best stock to invest in for "
               ++ format_market market ++ lit " due to insufficient data.";
             agent := lit "Broker Agent" |}).
Proof.
  intros Hsort. split; [|split].
  - intros data_dir before fname after Hfew.
    rewrite !scan_pick, !map_app, !fold_left_app. cbn [map fold_left].
    now rewrite (candidate_none sort_values Hsort today fs data_dir fname Hfew).
  - intros question market. rewrite answer_unfold.
    destruct (isdir fs (data_dir_of fs market)) eqn:Hdir; cbn [negb];
      [|left; eauto].
    destruct (listdir fs (data_dir_of fs market)) as [fnames|e];
      [|right; exists e; auto].
    left.
    destruct (scan_outcome sort_values fs today (data_dir_of fs market) fnames)
      as [-> | (c & ->)].
    + rewrite reply_for_initial. eauto.
    + rewrite reply_for_chosen. destruct (c_symbol c); eauto.
  - intros question market fnames Hdir Hls Hfew.
    rewrite answer_unfold, Hdir, Hls, scan_pick. cbn [negb].
    assert (Hnone : forall l b,
              (forall f, In f l -> In f fnames) ->
              fold_left pick
                (map (candidate sort_values fs today (data_dir_of fs market)) l) b
              = b).
    { induction l as [|f l IH]; intros b Hl; [reflexivity|].
      cbn [map fold_left].
      rewrite (candidate_none sort_values Hsort today fs _ f).
      - apply IH. intros g Hg. apply Hl. now right.
      - intros df. apply Hfew. apply Hl. now left. }
    rewrite Hnone by auto. apply reply_for_initial.
Qed.

Lemma thin_symbols_are_skipped_witness :
  let fs := disk [(lit "A.csv", rising); (lit "C.csv", thin)] in
  scan DateSort.sort fs today0 sp500_dir [lit "C.csv"; lit "A.csv"]
  = scan DateSort.sort fs today0 sp500_dir [lit "A.csv"].
Proof.
  intros fs.
  apply (proj1 (thin_symbols_are_skipped DateSort.sort fs today0 date_sort_sorts)
           sp500_dir [] (lit "C.csv") [lit "A.csv"]).
  intros df Hdf. vm_compute in Hdf. injection Hdf as <-.
  vm_compute. lia.
Defined.











End BrokerClaims.

(* ================================================================== *)
(** ** More about the retrieval pipeline *)
(* ================================================================== *)

Section PipelineMore.
Import Py Runtime PipelineFacts PipelineExamples.

Ltac step_in H :=
  first [ rewrite bind_time in H
        | rewrite query_embedding_run in H
        | rewrite generate_answer_run in H ];
  cbv beta in H.

(** The first list of a store result field, as the debug entry point reads
    it: empty when the field is [None] or an empty list. *)
Definition first_or_empty {A} (field : option (list (list A))) : list A :=
  match field with
  | Some (x :: _) => x
  | _ => []
  end.

Lemma guarded_first {A} (field : option (list (list A))) :
  (if truthy field then lift (subscript field 0) else ret [])
  = ret (first_or_empty field).
Proof. destruct field as [[|x l]|]; reflexivity. Qed.

(** Every successful run of the debug entry point, whatever the
    collaborators answer: the trace it returns and the world it leaves. *)
Lemma query_rag_debug_inversion env question w d w' :
  RagEngine.query_rag_debug env question w = (Ok d, w') ->
  exists v vs qr c cs,
    embedder_encode env (tick (tick (tick w))) [question] = Ok (v :: vs) /\
    collection_query env (at_query question (tick (tick w))) [v] 3 = Ok qr /\
    let docs := first_or_empty (qr_documents qr) in
    let prompt := template (join blank_line docs) question in
    let wl :=
      tick (tick (tick (tick (after_query question v 3 (tick (tick w)))))) in
    llm env (tick wl) prompt 200 = Ok {| choices := c :: cs |} /\
    RagEngine.question d = question /\
    RagEngine.retrieved_documents d = docs /\
    RagEngine.similarity_distances d = first_or_empty (qr_distances qr) /\
    RagEngine.context d = join blank_line docs /\
    RagEngine.prompt d = prompt /\
    RagEngine.answer d = choice_text c /\
    RagEngine.num_docs_retrieved d = length docs /\
    RagEngine.context_length d = length (join blank_line docs) /\
    RagEngine.tokens d
    = {| RagEngine.k_input_tokens := length (split prompt);
         RagEngine.k_output_tokens := length (split (choice_text c));
         RagEngine.k_total_tokens :=
           length (split prompt) + length (split (choice_text c));
         RagEngine.k_tokens_per_second :=
           LlmWrapper.tokens_per_second (answer_of prompt c wl) |} /\
    RagEngine.e_dimensions (RagEngine.embedding d) = length v /\
    calls w'
    = LlmCall prompt 200 :: QueryCall [v] 3 :: EncodeCall [question] :: calls w /\
    ticks w' = 14 + ticks w.
Proof.
  intros H. unfold RagEngine.query_rag_debug in H.
  do 2 step_in H. unfold bind at 1 in H. step_in H.
  destruct (embedder_encode env (tick (tick (tick w))) [question])
    as [[|v vs]|e] eqn:Henc; try discriminate H.
  destruct (collection_query env (at_query question (tick (tick w))) [v] 3)
    as [qr|e] eqn:Hq; try discriminate H.
  step_in H. rewrite !guarded_first in H.
  unfold bind at 1, ret at 1 in H. unfold bind at 1, ret at 1 in H.
  do 3 step_in H. unfold bind at 1 in H. step_in H.
  change (RagEngine.build_prompt ?c ?q) with (template c q) in H.
  cbn [results_of EmbeddingModel.documents EmbeddingModel.distances] in H.
  match type of H with
  | context [llm env ?wl ?p 200] =>
      destruct (llm env wl p 200) as [[[|c cs]]|e] eqn:Hllm; try discriminate H
  end.
  do 2 step_in H. unfold ret in H. injection H as <- <-.
  exists v, vs, qr, c, cs.
  split; [first [exact Henc|reflexivity]|].
  split; [first [exact Hq|reflexivity]|]. cbv zeta.
  split; [first [exact Hllm|reflexivity]|]. repeat split.
Qed.

(** X1. Whatever the collaborators answer, a trace the debug entry point
    returns is consistent with itself: it echoes the question, its context is
    its retrieved documents joined by a blank line, its prompt is the
    template around that context, its two counts are the lengths of the
    retrieved documents and of the context, and its token counts are the
    word counts of its own prompt and answer, with their sum as total. *)
Theorem debug_trace_is_consistent env question w d w' :
  RagEngine.query_rag_debug env question w = (Ok d, w') ->
  RagEngine.question d = question /\
  RagEngine.context d = join blank_line (RagEngine.retrieved_documents d) /\
  RagEngine.prompt d = template (RagEngine.context d) question /\
  RagEngine.num_docs_retrieved d = length (RagEngine.retrieved_documents d) /\
  RagEngine.context_length d = length (RagEngine.context d) /\
  RagEngine.k_input_tokens (RagEngine.tokens d)
  = length (split (RagEngine.prompt d)) /\
  RagEngine.k_output_tokens (RagEngine.tokens d)
  = length (split (RagEngine.answer d)) /\
  RagEngine.k_total_tokens (RagEngine.tokens d)
  = RagEngine.k_input_tokens (RagEngine.tokens d)
    + RagEngine.k_output_tokens (RagEngine.tokens d).
Proof.
  intros H.
  destruct (query_rag_debug_inversion env question w d w' H)
    as (v & vs & qr & c & cs & _ & _ & _ & Hq & Hdocs & _ & Hctx & Hp & Ha
        & Hn & Hl & Htok & _).
  rewrite Hq, Hctx, Hp, Ha, Hn, Hl, Htok, Hdocs. cbn. repeat split.
Qed.

Lemma debug_trace_is_consistent_witness :
  exists d w',
    RagEngine.query_rag_debug (fixed_env [0.5%float] one_doc (lit "Up a bit."))
      (lit "How is AAPL doing?") world0 = (Ok d, w') /\
    RagEngine.num_docs_retrieved d = 2 /\
    RagEngine.context_length d = 40 /\
    RagEngine.k_total_tokens (RagEngine.tokens d) = 18.
Proof.
  destruct (query_rag_debug_ok
              (fixed_env [0.5%float] one_doc (lit "Up a bit."))
              (lit "How is AAPL doing?") world0 [0.5%float] [] one_doc
              {| choice_text := lit "Up a bit." |} []
              (fun _ => eq_refl) (fun _ => eq_refl) (fun _ => eq_refl))
    as (d & w' & Hrun & Hdocs & _ & _ & _ & _ & Hans).
  exists d, w'. split; [exact Hrun|].
  destruct (debug_trace_is_consistent _ _ _ _ _ Hrun)
    as (_ & Hctx & Hp & Hn & Hl & Hin & Hout & Ht).
  rewrite Hn, Hl, Ht, Hin, Hout, Hp, Hctx, Hdocs, Hans.
  vm_compute. repeat split.
Defined.

(** The calls and clock readings of a successful debug run. *)
Lemma query_rag_debug_calls env question w d w' :
  RagEngine.query_rag_debug env question w = (Ok d, w') ->
  exists v,
    calls w'
    = LlmCall (RagEngine.prompt d) 200
        :: QueryCall [v] 3 :: EncodeCall [question] :: calls w /\
    RagEngine.e_dimensions (RagEngine.embedding d) = length v /\
    ticks w' = 14 + ticks w.
Proof.
  intros H.
  destruct (query_rag_debug_inversion env question w d w' H)
    as (v & vs & qr & c & cs & _ & _ & _ & _ & _ & _ & _ & Hp & _
        & _ & _ & _ & Hdim & Hcalls & Hticks).
  exists v. rewrite Hp. auto.
Qed.

(** X2. A successful run of the debug entry point calls each collaborator
    exactly once and in this order: the provider with the question alone,
    the store with the first of the vectors the provider returned to that
    call and k = 3, the model with the prompt of the trace and 200 tokens
    at most.  Nothing is cached: the calls are made whatever was called
    before.  The dimension the trace reports is the length of that vector,
    and the clock is read 14 times. *)
Theorem debug_calls_each_collaborator_once env question w d w' :
  RagEngine.query_rag_debug env question w = (Ok d, w') ->
  exists v vs qr,
    embedder_encode env (tick (tick (tick w))) [question] = Ok (v :: vs) /\
    collection_query env (at_query question (tick (tick w))) [v] 3 = Ok qr /\
    RagEngine.retrieved_documents d = first_or_empty (qr_documents qr) /\
    calls w'
    = LlmCall (RagEngine.prompt d) 200
        :: QueryCall [v] 3 :: EncodeCall [question] :: calls w /\
    RagEngine.e_dimensions (RagEngine.embedding d) = length v /\
    ticks w' = 14 + ticks w.
Proof.
  intros H.
  destruct (query_rag_debug_inversion env question w d w' H)
    as (v & vs & qr & c & cs & Henc & Hq & _ & _ & Hdocs & _ & _ & Hp & _
        & _ & _ & _ & Hdim & Hcalls & Hticks).
  exists v, vs, qr. rewrite Hp. auto 7.
Qed.

Lemma debug_calls_each_collaborator_once_witness :
  exists d w',
    RagEngine.query_rag_debug (fixed_env [0.5%float] one_doc (lit "Up a bit."))
      (lit "How is AAPL doing?")
      {| clock := steady_clock; ticks := 0;
         calls := [EncodeCall [lit "How is AAPL doing?"]] |} = (Ok d, w') /\
    length (calls w') = 4 /\ ticks w' = 14.
Proof.
  destruct (query_rag_debug_ok
              (fixed_env [0.5%float] one_doc (lit "Up a bit."))
              (lit "How is AAPL doing?")
              {| clock := steady_clock; ticks := 0;
                 calls := [EncodeCall [lit "How is AAPL doing?"]] |}
              [0.5%float] [] one_doc
              {| choice_text := lit "Up a bit." |} []
              (fun _ => eq_refl) (fun _ => eq_refl) (fun _ => eq_refl))
    as (d & w' & Hrun & _).
  exists d, w'. split; [exact Hrun|].
  destruct (debug_calls_each_collaborator_once _ _ _ _ _ Hrun)
    as (v & vs & qr & _ & _ & _ & Hcalls & _ & Hticks).
  rewrite Hcalls, Hticks. split; reflexivity.
Defined.


(** The plain entry point, run: every way it can end. *)
Lemma query_rag_run env question w :
  RagEngine.query_rag env question w =
  match EmbeddingModel.query_embedding env question 3 w with
  | (Raise e, w1) => (Raise e, w1)
  | (Ok results, w1) =>
      match subscript (EmbeddingModel.documents results) 0 with
      | Raise e => (Raise e, w1)
      | Ok docs =>
          match LlmWrapper.generate_answer env
                  (template (join blank_line docs) question) w1 with
          | (Raise e, w2) => (Raise e, w2)
          | (Ok a, w2) => (Ok (LlmWrapper.text a), w2)
          end
      end
  end.
Proof.
  unfold RagEngine.query_rag. unfold bind at 1.
  destruct (EmbeddingModel.query_embedding env question 3 w) as [[res|e] w1];
    [|reflexivity].
  unfold bind at 1, lift at 1.
  destruct (subscript (EmbeddingModel.documents res) 0) as [docs|e];
    [|reflexivity].
  unfold bind at 1.
  change (RagEngine.build_prompt ?c ?q) with (template c q).
  destruct (LlmWrapper.generate_answer env _ w1) as [[a|e] w2]; reflexivity.
Qed.




(** X4. With collaborators whose answers do not change between calls, a
    store that returns at least one list of documents and a model that
    returns at least one choice, the two entry points agree: the answer of
    the trace is the text the plain entry point returns, the prompt of the
    trace is the prompt the plain entry point sends to the model, and both
    make the same calls.  (Without a list of documents they differ, see
    X5.) *)
Theorem plain_and_debug_agree env question w v vs docs rest dists c cs :
  (forall w', embedder_encode env w' [question] = Ok (v :: vs)) ->
  (forall w', collection_query env w' [v] 3
              = Ok {| qr_documents := Some (docs :: rest);
                      qr_distances := dists |}) ->
  (forall w',
     llm env w' (template (join blank_line docs) question) 200
     = Ok {| choices := c :: cs |}) ->
  exists a w1 d w2,
    RagEngine.query_rag env question w = (Ok a, w1) /\
    RagEngine.query_rag_debug env question w = (Ok d, w2) /\
    RagEngine.answer d = a /\
    hd_error (calls w1) = Some (LlmCall (RagEngine.prompt d) 200) /\
    calls w1 = calls w2.
Proof.
  intros Henc Hq Hllm.
  destruct (query_rag_ok env question w v vs docs rest dists c cs Henc Hq Hllm)
    as (w1 & Hplain & Hcall).
  destruct (query_rag_debug_ok env question w v vs _ c cs Henc Hq Hllm)
    as (d & w2 & Hdebug & Hdocs & Hctx & Hp & _ & _ & Hans).
  destruct (query_rag_debug_calls _ _ _ _ _ Hdebug)
    as (v' & Hcalls2 & _).
  exists (choice_text c), w1, d, w2.
  cbn in Hdocs. rewrite Hdocs in Hctx. rewrite Hctx in Hp.
  repeat split; try assumption.
  - now rewrite Hp.
  - rewrite Hcalls2, Hp.
    rewrite query_rag_run, query_embedding_run, Henc, Hq in Hplain.
    cbn [subscript index nth_error results_of EmbeddingModel.documents
         qr_documents] in Hplain.
    rewrite generate_answer_run, Hllm in Hplain.
    injection Hplain as <-.
    unfold RagEngine.query_rag_debug in Hdebug.
    do 2 step_in Hdebug. unfold bind at 1 in Hdebug. step_in Hdebug.
    rewrite Henc, Hq in Hdebug.
    assert (Hv : v' = v).
    { rewrite Hp in Hcalls2.
      step_in Hdebug. rewrite !guarded_first in Hdebug.
      unfold bind at 1, ret at 1 in Hdebug.
      unfold bind at 1, ret at 1 in Hdebug.
      do 3 step_in Hdebug. unfold bind at 1 in Hdebug. step_in Hdebug.
      change (RagEngine.build_prompt ?c ?q) with (template c q) in Hdebug.
      cbn [results_of EmbeddingModel.documents qr_documents first_or_empty]
        in Hdebug.
      rewrite Hllm in Hdebug. do 2 step_in Hdebug. unfold ret in Hdebug.
      injection Hdebug as _ <-. cbn in Hcalls2.
      now injection Hcalls2 as <-. }
    subst v'. reflexivity.
Qed.

Lemma plain_and_debug_agree_witness :
  exists a w1 d w2,
    RagEngine.query_rag (fixed_env [0.5%float] one_doc (lit "Up a bit."))
      (lit "How is AAPL doing?") world0 = (Ok a, w1) /\
    RagEngine.query_rag_debug (fixed_env [0.5%float] one_doc (lit "Up a bit."))
      (lit "How is AAPL doing?") world0 = (Ok d, w2) /\
    RagEngine.answer d = a.
Proof.
  destruct (plain_and_debug_agree
              (fixed_env [0.5%float] one_doc (lit "Up a bit."))
              (lit "How is AAPL doing?") world0 [0.5%float] []
              [lit "AAPL closed at $150"; lit "MSFT closed at $300"] []
              (Some [[0.25%float; 0.5%float]])
              {| choice_text := lit "Up a bit." |} []
              (fun _ => eq_refl) (fun _ => eq_refl) (fun _ => eq_refl))
    as (a & w1 & d & w2 & Hplain & Hdebug & Hans & _).
  exists a, w1, d, w2. auto.
Defined.

(** X5. The plain entry point lacks the guard of the debug one.  When the
    store's result holds no list of documents at all ([None], or an empty
    outer list), the plain entry point raises (a TypeError, or an
    IndexError) before the model is called, while the debug entry point
    goes on with an empty context. *)
Theorem plain_entry_point_lacks_guard env question w v vs qr c cs :
  truthy (qr_documents qr) = false ->
  (forall w', embedder_encode env w' [question] = Ok (v :: vs)) ->
  (forall w', collection_query env w' [v] 3 = Ok qr) ->
  (forall w', llm env w' (template [] question) 200
              = Ok {| choices := c :: cs |}) ->
  (exists e w1,
     RagEngine.query_rag env question w = (Raise e, w1) /\
     (qr_documents qr = None ->
      e = TypeError (lit "'NoneType' object is not subscriptable")) /\
     (qr_documents qr = Some [] ->
      e = IndexError (lit "list index out of range")) /\
     calls w1 = QueryCall [v] 3 :: EncodeCall [question] :: calls w) /\
  (exists d w2,
     RagEngine.query_rag_debug env question w = (Ok d, w2) /\
     RagEngine.context d = [] /\
     RagEngine.num_docs_retrieved d = 0).
Proof.
  intros Hfalsy Henc Hq Hllm. split.
  - rewrite query_rag_run, query_embedding_run, Henc, Hq.
    cbn [results_of EmbeddingModel.documents].
    destruct (qr_documents qr) as [[|x l]|]; try discriminate Hfalsy;
      eexists _, _; (split; [reflexivity|]);
      (split; [intros; try discriminate; reflexivity|]);
      (split; [intros; try discriminate; reflexivity|]); reflexivity.
  - assert (Hfirst : first_documents qr = []).
    { unfold first_documents.
      destruct (qr_documents qr) as [[|x l]|]; try discriminate Hfalsy;
        reflexivity. }
    destruct (query_rag_debug_ok env question w v vs qr c cs Henc Hq)
      as (d & w2 & Hrun & Hdocs & Hctx & _ & Hn & _).
    { rewrite Hfirst. exact Hllm. }
    exists d, w2. split; [exact Hrun|].
    rewrite Hctx, Hn, Hdocs, Hfirst. split; reflexivity.
Qed.

Definition no_list : QueryResult :=
  {| qr_documents := Some []; qr_distances := Some [] |}.

Lemma plain_entry_point_lacks_guard_witness :
  (exists w1,
     RagEngine.query_rag (fixed_env [0.5%float] no_list (lit "No idea."))
       (lit "How is AAPL doing?") world0
     = (Raise (IndexError (lit "list index out of range")), w1)) /\
  (exists d w2,
     RagEngine.query_rag_debug (fixed_env [0.5%float] no_list (lit "No idea."))
       (lit "How is AAPL doing?") world0 = (Ok d, w2) /\
     RagEngine.context d = []).
Proof.
  destruct (plain_entry_point_lacks_guard
              (fixed_env [0.5%float] no_list (lit "No idea."))
              (lit "How is AAPL doing?") world0 [0.5%float] [] no_list
              {| choice_text := lit "No idea." |} []
              eq_refl (fun _ => eq_refl) (fun _ => eq_refl) (fun _ => eq_refl))
    as ((e & w1 & Hplain & _ & He & _) & (d & w2 & Hdebug & Hctx & _)).
  split.
  - exists w1. rewrite <- (He eq_refl). exact Hplain.
  - exists d, w2. split; assumption.
Defined.

End PipelineMore.

(* ================================================================== *)
(** ** More about the decision parser and order placement *)
(* ================================================================== *)

Section AgentMore.
Import Py Runtime StringFacts JsonFacts ParserFacts PipelineExamples.

(** [s.replace(a, b)] for one character each: every [a] becomes [b]. *)
Definition swap (a b c : char) : char := if N.eqb c a then b else c.

Lemma replace_char (s : str) (a b : char) :
  replace s [a] [b] = map (swap a b) s.
Proof.
  unfold replace.
  induction s as [|c s IH]; [reflexivity|].
  cbn [replace_aux map length Nat.sub]. rewrite startswith_char.
  unfold swap at 1.
  destruct (N.eqb_spec a c) as [->|Hne].
  - rewrite N.eqb_refl. cbn [app]. now rewrite IH.
  - destruct (N.eqb_spec c a) as [->|_]; [contradiction|]. now rewrite IH.
Qed.

Lemma first_occurrence (c : char) (s : str) :
  In c s -> exists p t, s = p ++ c :: t /\ ~ In c p.
Proof.
  induction s as [|x s IH]; intros Hin; [destruct Hin|].
  destruct (N.eq_dec x c) as [->|Hne].
  - exists [], s. split; [reflexivity|intros []].
  - destruct Hin as [Heq|Hin]; [congruence|].
    destruct (IH Hin) as (p & t & -> & Hp).
    exists (x :: p), t. split; [reflexivity|].
    intros [Heq|Hin']; [congruence|auto].
Qed.

(** What is extracted is empty, a lone closing brace, or starts with the
    first opening brace. *)
Lemma extract_shape (response : str) :
  extract response = [] \/ extract response = [close_brace] \/
  exists t, extract response = open_brace :: t.
Proof.
  destruct (in_dec N.eq_dec open_brace response) as [Hin|Hout].
  - destruct (first_occurrence _ _ Hin) as (p & t & -> & Hp).
    unfold extract, find. rewrite find_from_first by assumption.
    unfold slice. rewrite Z.add_0_l.
    rewrite (slice_bound_inside _ (Z.of_nat (length p)))
      by (rewrite length_app; lia).
    rewrite Nat2Z.id, skipn_app, skipn_all, Nat.sub_diag. cbn [app skipn].
    destruct (Z.to_nat _) as [|n]; cbn [firstn]; [now left|].
    right. right. eauto.
  - destruct (extract_without_open response Hout) as [H|H]; auto.
Qed.

(** An object is what the scanner makes of members. *)
Lemma members_dict (fuel : nat) : forall s idx ps v r i,
  Json.members fuel s idx ps = Json.Scanned v r i -> exists d, v = VDict d.
Proof.
  induction fuel as [|fuel IH]; intros s idx ps v r i H; [discriminate H|].
  cbn [Json.members] in H.
  break_in H; try discriminate H;
    first [ injection H as <- _ _; eauto | eapply IH; exact H ].
Qed.

(** A text that starts with an opening brace decodes to a dict or not at
    all. *)
Lemma loads_brace_dict (t : str) (v : value) :
  Json.loads (open_brace :: t) = Ok v -> exists d, v = VDict d.
Proof.
  unfold Json.loads.
  replace (2 * length (open_brace :: t) + 2) with (S (2 * length t + 3))
    by (cbn [length]; lia).
  change (startswith (open_brace :: t) [65279%N]) with false. cbv iota.
  change (Json.skip_ws (open_brace :: t) 0) with (open_brace :: t, 0).
  cbv iota beta.
  cbn [Json.scan_once].
  change (N.eqb open_brace 34) with false.
  change (N.eqb open_brace (chr "{")) with true. cbv iota.
  intros H.
  destruct (Json.skip_ws t 1) as [r i].
  assert (Hm : forall ps v' r' i',
            Json.members (2 * length t + 3) r i ps = Json.Scanned v' r' i' ->
            exists d, v' = VDict d) by (intros; eapply members_dict; eauto).
  destruct r as [|c1 r1].
  - destruct (Json.members _ [] i []) as [v' r' i'| |] eqn:E;
      try discriminate H.
    destruct (Json.skip_ws r' i') as [[|] ?]; try discriminate H.
    injection H as <-. eapply Hm; eauto.
  - destruct (N.eqb c1 (chr "}")).
    + destruct (Json.skip_ws r1 (S i)) as [[|] ?]; try discriminate H.
      injection H as <-. eauto.
    + destruct (Json.members _ (c1 :: r1) i []) as [v' r' i'| |] eqn:E;
        try discriminate H.
      destruct (Json.skip_ws r' i') as [[|] ?]; try discriminate H.
      injection H as <-. eapply Hm; eauto.
Qed.

Lemma parse_decision_dict (response : str) (v : value) :
  StockAgent.parse_decision response = Ok v -> exists d, v = VDict d.
Proof.
  rewrite parse_decision_extract, replace_char.
  destruct (extract_shape response) as [-> | [-> | (t & ->)]];
    try discriminate.
  cbn [map]. change (swap 39%N 34%N open_brace) with open_brace.
  apply loads_brace_dict.
Qed.

(** X6. Whatever the model answers, the decision [get_decision] returns is
    a dict, never a list, a number or a string: what decodes starts at an
    opening brace, and the fallback is a dict.  [place_order], which reads
    it with [get] and [in], can always be applied to it. *)
Theorem get_decision_returns_a_dict env user_query market w response w1 :
  RagEngine.query_rag env (StockAgent.craft_prompt user_query market) w
  = (Ok response, w1) ->
  exists d, StockAgent.get_decision env user_query market w = (Ok (VDict d), w1).
Proof.
  intros Hrag. unfold StockAgent.get_decision.
  rewrite (PipelineFacts.bind_ok _ _ _ _ _ Hrag).
  destruct (StockAgent.parse_decision response) as [v|e] eqn:Hp.
  - destruct (parse_decision_dict _ _ Hp) as (d & ->). exists d. reflexivity.
  - eexists. reflexivity.
Qed.

Lemma get_decision_returns_a_dict_witness :
  exists d w1,
    StockAgent.get_decision
      (fixed_env [0.5%float] one_doc (lit "[1, 2, {'action': 'sell'}]"))
      (lit "Should I sell?") (lit "NYSE") world0 = (Ok (VDict d), w1) /\
    dict_get d (lit "action") = Some (VStr (lit "sell")).
Proof.
  destruct (get_decision_returns_a_dict
              (fixed_env [0.5%float] one_doc (lit "[1, 2, {'action': 'sell'}]"))
              (lit "Should I sell?") (lit "NYSE") world0
              (lit "[1, 2, {'action': 'sell'}]") _ eq_refl)
    as (d & Hrun).
  exists d. eexists. split; [exact Hrun|].
  vm_compute in Hrun. injection Hrun as <-. reflexivity.
Defined.

(** X7. [get_decision] reads exactly the span from the first opening to the
    last closing brace of the answer: whatever stands before the first
    opening brace and after the last closing brace is ignored, every single
    quote of the span (also one inside a value) becomes a double quote, and
    the decision is what the decoder makes of that text, or the fallback
    with the decoder's complaint. *)
Theorem get_decision_reads_the_brace_span
  env user_query market w before body after w1 :
  ~ In open_brace before -> ~ In close_brace after ->
  let span := open_brace :: body ++ [close_brace] in
  let response := before ++ span ++ after in
  RagEngine.query_rag env (StockAgent.craft_prompt user_query market) w
  = (Ok response, w1) ->
  StockAgent.get_decision env user_query market w
  = (Ok match Json.loads (map (swap 39%N 34%N) span) with
        | Ok decision => decision
        | Raise e =>
            VDict [ (lit "action", VStr (lit "hold"));
                    (lit "reason",
                     VStr (lit "Failed to parse decision: " ++ str_of_exn e));
                    (lit "raw_response", VStr response) ]
        end, w1).
Proof.
  intros Hb Ha span response Hrag.
  unfold StockAgent.get_decision.
  rewrite (PipelineFacts.bind_ok _ _ _ _ _ Hrag).
  rewrite parse_decision_extract. subst response span.
  rewrite extract_object by assumption.
  rewrite replace_char. reflexivity.
Qed.

Lemma get_decision_reads_the_brace_span_witness :
  exists w1,
    StockAgent.get_decision
      (fixed_env [0.5%float] one_doc
         (lit "I'd say {'action': 'hold', 'reason': 'don't know'} for now"))
      (lit "Should I buy?") (lit "NYSE") world0
    = (Ok (VDict
             [ (lit "action", VStr (lit "hold"));
               (lit "reason",
                VStr (lit "Failed to parse decision: Expecting ',' delimiter: line 1 column 35 (char 34)"));
               (lit "raw_response",
                VStr (lit "I'd say {'action': 'hold', 'reason': 'don't know'} for now")) ]),
       w1).
Proof.
  eexists.
  rewrite (get_decision_reads_the_brace_span
             (fixed_env [0.5%float] one_doc
                (lit "I'd say {'action': 'hold', 'reason': 'don't know'} for now"))
             (lit "Should I buy?") (lit "NYSE") world0
             (lit "I'd say ") (lit "'action': 'hold', 'reason': 'don't know'")
             (lit " for now") _
             ltac:(vm_compute; intuition discriminate)
             ltac:(vm_compute; intuition discriminate)
             eq_refl).
  vm_compute. reflexivity.
Defined.

(** X8. A response that cannot be decoded never places an order: the
    decision [get_decision] returns for it makes [place_order] answer
    "no_action", with the parse failure as its message, and the order it
    hands back still holds the response as raw response. *)
Theorem unparsable_response_places_no_order
  format env user_query market w response w1 e :
  RagEngine.query_rag env (StockAgent.craft_prompt user_query market) w
  = (Ok response, w1) ->
  Json.loads (replace (extract response) [39%N] [34%N]) = Raise e ->
  exists d,
    StockAgent.get_decision env user_query market w = (Ok (VDict d), w1) /\
    StockAgent.status (StockAgent.place_order format d) = lit "no_action" /\
    StockAgent.message (StockAgent.place_order format d)
    = VStr (lit "Failed to parse decision: " ++ str_of_exn e) /\
    dict_get (StockAgent.order (StockAgent.place_order format d))
      (lit "raw_response") = Some (VStr response).
Proof.
  intros Hrag Hfail.
  unfold StockAgent.get_decision.
  rewrite (PipelineFacts.bind_ok _ _ _ _ _ Hrag).
  rewrite parse_decision_extract, Hfail.
  eexists. split; [reflexivity|]. repeat split.
Qed.

Lemma unparsable_response_places_no_order_witness :
  exists d w1,
    StockAgent.get_decision
      (fixed_env [0.5%float] one_doc (lit "{'action': 'buy', 'symbol': AAPL}"))
      (lit "Should I buy?") (lit "NYSE") world0 = (Ok (VDict d), w1) /\
    StockAgent.status (StockAgent.place_order (fun _ => []) d) = lit "no_action".
Proof.
  destruct (unparsable_response_places_no_order (fun _ => [])
              (fixed_env [0.5%float] one_doc
                 (lit "{'action': 'buy', 'symbol': AAPL}"))
              (lit "Should I buy?") (lit "NYSE") world0
              (lit "{'action': 'buy', 'symbol': AAPL}") _
              (JSONDecodeError (lit "Expecting value")
                 [123; 34; 97; 99; 116; 105; 111; 110; 34; 58; 32; 34; 98; 117;
                  121; 34; 44; 32; 34; 115; 121; 109; 98; 111; 108; 34; 58; 32;
                  65; 65; 80; 76; 125]%N 28)
              eq_refl ltac:(vm_compute; reflexivity))
    as (d & Hrun & Hstatus & _).
  exists d. eexists. split; [exact Hrun|exact Hstatus].
Defined.

(** The prompt of [craft_prompt] around its first opening brace. *)
Definition prompt_head : str :=
  lit "You are a stock trading agent. Your job is to analyze the following user query and market context, "
  ++ lit "and recommend a trading action in JSON format." ++ [10%N]
  ++ lit "User Query: ".

Definition prompt_market : str := [10%N] ++ lit "Market: ".

Definition prompt_respond : str :=
  [10%N] ++ lit "Respond ONLY with a JSON object like: ".

Definition prompt_example : str := lit "'action': 'buy'/".

Definition prompt_tail : str :=
  lit "'sell'/'hold', 'symbol': 'AAPL', 'amount': 10, 'reason': '...'}."
  ++ [10%N]
  ++ lit "If you don't have enough information, respond with: {'action': 'hold', 'reason': 'Insufficient data'}.".

Lemma craft_prompt_parts (user_query market : str) :
  StockAgent.craft_prompt user_query market
  = (prompt_head ++ user_query ++ prompt_market ++ market ++ prompt_respond)
      ++ open_brace :: prompt_example ++ prompt_tail.
Proof.
  unfold StockAgent.craft_prompt. rewrite <- !app_assoc. reflexivity.
Qed.

Lemma absent_by_test (c : char) (l : str) :
  forallb (fun x => negb (N.eqb x c)) l = true -> ~ In c l.
Proof.
  intros H Hin. rewrite forallb_forall in H. specialize (H c Hin).
  now rewrite N.eqb_refl in H.
Qed.

(** The decoder on a text that starts as the example of the prompt does,
    once its quotes are normalised: it stops at the slash. *)
Lemma example_does_not_decode (rest : str) :
  let doc := map (swap 39%N 34%N) (open_brace :: prompt_example) ++ rest in
  Json.loads doc = Raise (JSONDecodeError (lit "Expecting ',' delimiter") doc 16)
  /\ str_of_exn (JSONDecodeError (lit "Expecting ',' delimiter") doc 16)
     = lit "Expecting ',' delimiter: line 1 column 17 (char 16)".
Proof.
  cbv zeta. split; vm_compute; reflexivity.
Qed.

(** X9. A model that echoes the prompt of [craft_prompt] is never taken to
    have decided anything.  When the answer holds that prompt with no
    opening brace before it, whatever follows, the span starts at the
    example object of the prompt, which does not decode after its quotes
    are normalised ('buy'/'sell'/'hold' is no value), and [get_decision]
    returns the "hold" fallback. *)
Theorem echoed_prompt_is_no_decision
  env user_query market w before rest w1 :
  ~ In open_brace before ->
  ~ In open_brace user_query -> ~ In open_brace market ->
  let response := before ++ StockAgent.craft_prompt user_query market ++ rest in
  RagEngine.query_rag env (StockAgent.craft_prompt user_query market) w
  = (Ok response, w1) ->
  StockAgent.get_decision env user_query market w
  = (Ok (VDict
           [ (lit "action", VStr (lit "hold"));
             (lit "reason",
              VStr (lit "Failed to parse decision: Expecting ',' delimiter: line 1 column 17 (char 16)"));
             (lit "raw_response", VStr response) ]), w1).
Proof.
  intros Hb Hq Hm response Hrag.
  assert (Hlast : exists body after,
            prompt_tail ++ rest = body ++ close_brace :: after
            /\ ~ In close_brace after).
  { destruct (rfind_from_spec close_brace (prompt_tail ++ rest) 0 ltac:(lia))
      as [[_ Hno]|(p & t & Heq & Ht & _)]; [|eauto].
    exfalso. apply Hno. apply in_or_app. left.
    vm_compute. tauto. }
  destruct Hlast as (body & after & Hsplit & Hafter).
  assert (Hresp :
    response
    = (before ++ prompt_head ++ user_query ++ prompt_market ++ market
         ++ prompt_respond)
        ++ (open_brace :: (prompt_example ++ body) ++ [close_brace]) ++ after).
  { subst response. rewrite craft_prompt_parts.
    rewrite <- !app_assoc. cbn [app]. rewrite <- !app_assoc.
    do 6 f_equal. rewrite Hsplit. reflexivity. }
  assert (Hbefore : ~ In open_brace
            (before ++ prompt_head ++ user_query ++ prompt_market ++ market
               ++ prompt_respond)).
  { intros Hin.
    repeat (apply in_app_or in Hin as [Hin|Hin]; [try contradiction|]);
      try (revert Hin; apply absent_by_test; vm_compute; reflexivity). }
  unfold StockAgent.get_decision.
  rewrite (PipelineFacts.bind_ok _ _ _ _ _ Hrag).
  rewrite parse_decision_extract. rewrite Hresp at 1.
  rewrite extract_object by assumption.
  rewrite replace_char.
  change (open_brace :: (prompt_example ++ body) ++ [close_brace])
    with ((open_brace :: prompt_example) ++ body ++ [close_brace]).
  rewrite map_app.
  destruct (example_does_not_decode
              (map (swap 39%N 34%N) (body ++ [close_brace]))) as [Hl Hs].
  cbv zeta in Hl, Hs. rewrite Hl.
  unfold StockAgent.fallback. rewrite Hs. reflexivity.
Qed.

Lemma echoed_prompt_is_no_decision_witness :
  exists d w1,
    StockAgent.get_decision
      (fixed_env [0.5%float] one_doc
         (lit "Answer: " ++ StockAgent.craft_prompt (lit "Buy AAPL?") (lit "NYSE")
          ++ lit " {'action': 'buy', 'symbol': 'AAPL', 'amount': 10}"))
      (lit "Buy AAPL?") (lit "NYSE") world0 = (Ok (VDict d), w1) /\
    dict_get d (lit "action") = Some (VStr (lit "hold")).
Proof.
  eexists _, _.
  rewrite (echoed_prompt_is_no_decision
             (fixed_env [0.5%float] one_doc
                (lit "Answer: " ++ StockAgent.craft_prompt (lit "Buy AAPL?") (lit "NYSE")
                 ++ lit " {'action': 'buy', 'symbol': 'AAPL', 'amount': 10}"))
             (lit "Buy AAPL?") (lit "NYSE") world0 (lit "Answer: ")
             (lit " {'action': 'buy', 'symbol': 'AAPL', 'amount': 10}") _
             ltac:(apply absent_by_test; vm_compute; reflexivity)
             ltac:(apply absent_by_test; vm_compute; reflexivity)
             ltac:(apply absent_by_test; vm_compute; reflexivity)
             eq_refl).
  split; reflexivity.
Defined.

End AgentMore.

(* ================================================================== *)
(** ** More about the broker *)
(* ================================================================== *)

Section BrokerMore.
Import Py FinancialAgent FloatFacts BrokerFacts BrokerExamples StringFacts.

Lemma ltb_leb (a b : float) : (a <? b)%float = true -> (a <=? b)%float = true.
Proof.
  rewrite ltb_spec, leb_spec. unfold SFltb, SFleb.
  destruct (SFcompare (Prim2SF a) (Prim2SF b)) as [[]|]; congruence.
Qed.

(** Two specification floats, neither below the other and both comparable
    with a third, compare equal. *)
Lemma SFcompare_neither_below (n a b : spec_float) :
  SFcompare n a = Some Lt -> SFcompare n b = Some Lt ->
  SFcompare a b <> Some Lt -> SFcompare b a <> Some Lt ->
  SFcompare a b = Some Eq.
Proof.
  destruct n as [[]|[]| |[] mn en], a as [[]|[]| |[] ma ea],
    b as [[]|[]| |[] mb eb]; cbn [SFcompare];
    change (Pos.compare_cont Eq) with Pos.compare;
    intros Hna Hnb Hab Hba; try discriminate; try reflexivity;
    try (exfalso; apply Hab; reflexivity);
    try (exfalso; apply Hba; reflexivity);
    f_equal; compare_cases; try reflexivity;
    try (exfalso; apply Hab; reflexivity);
    try (exfalso; apply Hba; reflexivity); try lia.
Qed.

Lemma neither_below_equal (n a b : float) :
  (n <? a)%float = true -> (n <? b)%float = true ->
  (a <? b)%float = false -> (b <? a)%float = false ->
  (a =? b)%float = true.
Proof.
  rewrite !ltb_spec, eqb_spec. unfold SFltb, SFeqb.
  intros Hna Hnb Hab Hba.
  rewrite (SFcompare_neither_below (Prim2SF n) (Prim2SF a) (Prim2SF b));
    [reflexivity| | | |].
  - destruct (SFcompare (Prim2SF n) (Prim2SF a)) as [[]|]; congruence.
  - destruct (SFcompare (Prim2SF n) (Prim2SF b)) as [[]|]; congruence.
  - destruct (SFcompare (Prim2SF a) (Prim2SF b)) as [[]|]; congruence.
  - destruct (SFcompare (Prim2SF b) (Prim2SF a)) as [[]|]; congruence.
Qed.

(** The candidate the loop ends on is exceeded by none of the listing. *)
Lemma fold_pick_greatest (cs : list (option Candidate)) (c : Candidate) :
  fold_left pick cs initial = chosen c ->
  In (Some c) cs /\
  (neg_infinity <? c_return c)%float = true /\
  forall c', In (Some c') cs -> (c_return c <? c_return c')%float = false.
Proof.
  intros Hc.
  destruct (fold_pick_spec cs)
    as [[Hb _]|(cs1 & c0 & cs2 & -> & Hb & Hpos & H1 & H2)].
  - rewrite Hb in Hc. discriminate.
  - rewrite Hb in Hc.
    assert (c0 = c) as ->.
    { destruct c0, c. unfold chosen in Hc. cbn in Hc. congruence. }
    split; [apply in_or_app; right; now left|].
    split; [assumption|].
    intros c' Hin. apply in_app_or in Hin as [Hin|[Heq|Hin]].
    + apply leb_false_ltb_false. auto.
    + injection Heq as <-. apply ltb_irrefl.
    + auto.
Qed.

(** X10. The best return does not depend on the order in which the
    directory is listed: over two listings with the same names, the loop
    ends on nothing both times, or on two candidates whose returns are equal
    as floats.  (Which symbol carries that return may differ.) *)
Theorem best_return_ignores_listing_order
  sort_values fs today data_dir fnames fnames' :
  Permutation fnames fnames' ->
  let b := scan sort_values fs today data_dir fnames in
  let b' := scan sort_values fs today data_dir fnames' in
  (b = initial /\ b' = initial) \/
  (exists f c f' c',
     In f fnames /\ In f' fnames /\
     candidate sort_values fs today data_dir f = Some c /\
     candidate sort_values fs today data_dir f' = Some c' /\
     b = chosen c /\ b' = chosen c' /\
     (best_return b =? best_return b')%float = true).
Proof.
  intros Hperm b b'. subst b b'. rewrite !scan_pick.
  set (cand := candidate sort_values fs today data_dir).
  assert (Hp : Permutation (map cand fnames) (map cand fnames'))
    by now apply Permutation_map.
  destruct (fold_pick_spec (map cand fnames))
    as [[Hb Hnone]|(cs1 & c & cs2 & Hsplit & Hb & _)];
    destruct (fold_pick_spec (map cand fnames'))
      as [[Hb' Hnone']|(cs1' & c' & cs2' & Hsplit' & Hb' & _)].
  - left. now split.
  - exfalso. destruct (fold_pick_greatest _ _ Hb') as (Hin & Hpos & _).
    apply (Permutation_in _ (Permutation_sym Hp)) in Hin.
    rewrite (Hnone _ Hin) in Hpos. discriminate.
  - exfalso. destruct (fold_pick_greatest _ _ Hb) as (Hin & Hpos & _).
    apply (Permutation_in _ Hp) in Hin.
    rewrite (Hnone' _ Hin) in Hpos. discriminate.
  - right.
    destruct (fold_pick_greatest _ _ Hb) as (Hin & Hpos & Hmax).
    destruct (fold_pick_greatest _ _ Hb') as (Hin' & Hpos' & Hmax').
    pose proof (Permutation_in _ (Permutation_sym Hp) Hin') as Hin'0.
    pose proof (Permutation_in _ Hp Hin) as Hin0.
    apply in_map_iff in Hin as (f & Hf & Hinf).
    pose proof Hin'0 as Hin'1.
    apply in_map_iff in Hin'1 as (f' & Hf' & Hinf').
    exists f, c, f', c'. rewrite Hb, Hb'.
    repeat split; try assumption.
    cbn [chosen best_return].
    apply (neither_below_equal neg_infinity); auto.
Qed.

Lemma best_return_ignores_listing_order_witness :
  let fs := disk [(lit "A.csv", rising); (lit "B.csv", also_rising)] in
  best_symbol (scan DateSort.sort fs today0 sp500_dir [lit "A.csv"; lit "B.csv"])
  = Some (lit "A") /\
  best_symbol (scan DateSort.sort fs today0 sp500_dir [lit "B.csv"; lit "A.csv"])
  = Some (lit "B") /\
  (best_return (scan DateSort.sort fs today0 sp500_dir [lit "A.csv"; lit "B.csv"])
   =? best_return (scan DateSort.sort fs today0 sp500_dir [lit "B.csv"; lit "A.csv"]))%float
  = true.
Proof.
  intros fs.
  split; [vm_compute; reflexivity|]. split; [vm_compute; reflexivity|].
  destruct (best_return_ignores_listing_order DateSort.sort fs today0 sp500_dir
              [lit "A.csv"; lit "B.csv"] [lit "B.csv"; lit "A.csv"]
              (perm_swap _ _ _))
    as [[H _]|(f & c & f' & c' & _ & _ & _ & _ & _ & _ & H)].
  - vm_compute in H. discriminate H.
  - exact H.
Defined.

Lemma candidate_symbol sort_values fs today data_dir fname c :
  candidate sort_values fs today data_dir fname = Some c ->
  c_symbol c = replace fname (lit ".csv") [].
Proof.
  unfold candidate. destruct (endswith fname (lit ".csv")); [|discriminate].
  destruct (symbol_return _ _ _ _) as [[[[ret s] e]|]|]; try discriminate.
  now intros [= <-].
Qed.

(** X11. A file named just ".csv" has the empty string for symbol, which the
    final test [if best_symbol] takes for no symbol at all.  When the return
    of that file is above the return of every other file of the listing,
    the reply is the insufficient-data one, whatever the other files hold. *)
Theorem nameless_file_hides_the_market
  sort_values fs today question market fnames c :
  isdir fs (data_dir_of fs market) = true ->
  listdir fs (data_dir_of fs market) = Ok fnames ->
  In (lit ".csv") fnames ->
  candidate sort_values fs today (data_dir_of fs market) (lit ".csv") = Some c ->
  (forall f c',
     In f fnames -> f <> lit ".csv" ->
     candidate sort_values fs today (data_dir_of fs market) f = Some c' ->
     (c_return c' <? c_return c)%float = true) ->
  answer sort_values fs today question market = Ok (insufficient market).
Proof.
  intros Hdir Hls Hin Hc Hlow.
  rewrite answer_unfold, Hdir, Hls, scan_pick. cbn [negb].
  set (dir := data_dir_of fs market) in *.
  destruct (fold_pick_spec (map (candidate sort_values fs today dir) fnames))
    as [[Hb _]|(cs1 & c0 & cs2 & Hsplit & Hb & _ & H1 & H2)]; rewrite Hb.
  - apply reply_for_initial.
  - rewrite reply_for_chosen.
    apply map_eq_app in Hsplit as (before & rest & -> & Hm1 & Hrest).
    apply map_eq_cons in Hrest as (f0 & after & -> & Hc0 & Hm2).
    destruct (list_eq_dec N.eq_dec f0 (lit ".csv")) as [->|Hne].
    + rewrite (candidate_symbol _ _ _ _ _ _ Hc0). reflexivity.
    + exfalso.
      assert (Hlt : (c_return c0 <? c_return c)%float = true).
      { apply (Hlow f0); [apply in_or_app; right; now left|assumption..]. }
      apply in_app_or in Hin as [Hin|[Heq|Hin]].
      * assert (Hle : (c_return c0 <=? c_return c)%float = false).
        { apply H1. rewrite <- Hm1, <- Hc. now apply in_map. }
        rewrite (ltb_leb _ _ Hlt) in Hle. discriminate.
      * congruence.
      * assert (Hnlt : (c_return c0 <? c_return c)%float = false).
        { apply H2. rewrite <- Hm2, <- Hc. now apply in_map. }
        congruence.
Qed.

Lemma nameless_file_hides_the_market_witness :
  answer DateSort.sort (disk [(lit "B.csv", falling); (lit ".csv", rising)])
    today0 (lit "Best stock?") (Some (lit "S&P 500"))
  = Ok (insufficient (Some (lit "S&P 500"))).
Proof.
  apply (nameless_file_hides_the_market DateSort.sort
           (disk [(lit "B.csv", falling); (lit ".csv", rising)])
           today0 (lit "Best stock?") (Some (lit "S&P 500"))
           [lit "B.csv"; lit ".csv"]
           {| c_symbol := []; c_return := 10;
              c_start := Float64 100; c_end := Float64 110 |}).
  - vm_compute. reflexivity.
  - vm_compute. reflexivity.
  - right. left. reflexivity.
  - vm_compute. reflexivity.
  - intros f c' [<-|[<-|[]]] Hne Hc'.
    + vm_compute in Hc'. injection Hc' as <-. vm_compute. reflexivity.
    + now contradiction Hne.
Defined.

(** [replace] with nothing, over a text without the first character of what
    is replaced. *)
Lemma replace_aux_absent (old : str) (c : char) (a rest : str) :
  ~ In c a ->
  replace_aux (c :: old) [] 0 (a ++ rest)
  = a ++ replace_aux (c :: old) [] 0 rest.
Proof.
  induction a as [|x a IH]; intros Hno; [reflexivity|].
  cbn [app replace_aux startswith].
  destruct (N.eqb_spec c x) as [->|Hne].
  - exfalso. apply Hno. now left.
  - cbn [andb]. rewrite IH; [reflexivity|].
    intros Hin. apply Hno. now right.
Qed.

Lemma replace_csv_absent (a rest : str) :
  ~ In 46%N a ->
  replace_aux (lit ".csv") [] 0 (a ++ rest)
  = a ++ replace_aux (lit ".csv") [] 0 rest.
Proof. exact (replace_aux_absent [99; 115; 118]%N 46%N a rest). Qed.

Lemma replace_csv_here (rest : str) :
  replace_aux (lit ".csv") [] 0 (lit ".csv" ++ rest)
  = replace_aux (lit ".csv") [] 0 rest.
Proof. cbn. now rewrite startswith_nil. Qed.

(** X12. The symbol of a file is its name with every ".csv" removed, not
    only the extension.  For a name [stem.csv] whose stem has no dot the
    loop, when it takes the file, records the stem; for a name that holds
    ".csv" twice it records what is left of both parts, so that files
    [A.csvB.csv] and [AB.csv] are reported under the same symbol. *)
Theorem recorded_symbol_drops_every_csv
  sort_values fs today data_dir b stem rest :
  ~ In 46%N stem -> ~ In 46%N rest ->
  let once := visit sort_values fs today data_dir b (stem ++ lit ".csv") in
  let twice :=
    visit sort_values fs today data_dir b
      (stem ++ lit ".csv" ++ rest ++ lit ".csv") in
  (once = b \/ best_symbol once = Some stem) /\
  (twice = b \/ best_symbol twice = Some (stem ++ rest)).
Proof.
  intros Hs Hr once twice. subst once twice. rewrite !visit_pick.
  assert (Hsym : forall f c,
            candidate sort_values fs today data_dir f = Some c ->
            pick b (Some c) = b \/
            best_symbol (pick b (Some c)) = Some (replace f (lit ".csv") [])).
  { intros f c Hc. cbn [pick].
    destruct (best_return b <? c_return c)%float; [right|now left].
    cbn [chosen best_symbol]. f_equal. eapply candidate_symbol, Hc. }
  split.
  - destruct (candidate _ _ _ _ (stem ++ lit ".csv")) as [c|] eqn:Hc;
      [|now left].
    destruct (Hsym _ _ Hc) as [H|H]; [now left|right].
    rewrite H. f_equal. change (replace ?s (lit ".csv") [])
      with (replace_aux (lit ".csv") [] 0 s).
    rewrite replace_csv_absent by assumption.
    rewrite <- (app_nil_r (lit ".csv")), replace_csv_here. apply app_nil_r.
  - destruct (candidate _ _ _ _ (stem ++ lit ".csv" ++ rest ++ lit ".csv"))
      as [c|] eqn:Hc; [|now left].
    destruct (Hsym _ _ Hc) as [H|H]; [now left|right].
    rewrite H. f_equal. change (replace ?s (lit ".csv") [])
      with (replace_aux (lit ".csv") [] 0 s).
    rewrite replace_csv_absent by assumption.
    rewrite replace_csv_here.
    rewrite replace_csv_absent by assumption.
    rewrite <- (app_nil_r (lit ".csv")), replace_csv_here.
    cbn [replace_aux]. now rewrite app_nil_r.
Qed.

Lemma recorded_symbol_drops_every_csv_witness :
  let fs := disk [(lit "A.csvB.csv", rising)] in
  best_symbol (visit DateSort.sort fs today0 sp500_dir initial (lit "A.csvB.csv"))
  = Some (lit "AB").
Proof.
  intros fs.
  destruct (proj2 (recorded_symbol_drops_every_csv DateSort.sort fs today0
                     sp500_dir initial (lit "A") (lit "B")
                     ltac:(apply absent_by_test; vm_compute; reflexivity)
                     ltac:(apply absent_by_test; vm_compute; reflexivity)))
    as [H|H].
  - vm_compute in H. discriminate H.
  - exact H.
Defined.

(** X13. Only the files whose name ends in ".csv" (in lower case) are ever
    read: the loop over a listing ends as the loop over its ".csv" names
    does, and two disks that hold the same frames under those names give the
    same result, whatever else they hold. *)
Theorem only_csv_files_are_read sort_values fs fs' today data_dir fnames :
  (forall f, In f fnames -> endswith f (lit ".csv") = true ->
             read_csv fs (path_join data_dir f)
             = read_csv fs' (path_join data_dir f)) ->
  scan sort_values fs today data_dir fnames
  = scan sort_values fs today data_dir
      (filter (fun f => endswith f (lit ".csv")) fnames) /\
  scan sort_values fs today data_dir fnames
  = scan sort_values fs' today data_dir fnames.
Proof.
  intros Hsame. unfold scan. generalize initial as b. split; revert b.
  - clear Hsame. induction fnames as [|f l IH]; intros b; [reflexivity|].
    cbn [fold_left filter]. unfold visit at 2.
    destruct (endswith f (lit ".csv")) eqn:E; cbn [negb].
    + cbn [fold_left]. unfold visit at 3. rewrite E. cbn [negb]. apply IH.
    + apply IH.
  - induction fnames as [|f l IH]; intros b; [reflexivity|].
    cbn [fold_left].
    assert (Hv : visit sort_values fs today data_dir b f
                 = visit sort_values fs' today data_dir b f).
    { unfold visit. destruct (endswith f (lit ".csv")) eqn:E; [|reflexivity].
      cbn [negb]. unfold symbol_return.
      rewrite (Hsame f (or_introl eq_refl) E). reflexivity. }
    rewrite Hv. apply IH. intros g Hg. apply Hsame. now right.
Qed.

Lemma only_csv_files_are_read_witness :
  scan DateSort.sort
    (disk [(lit "A.csv", rising); (lit "B.CSV", also_rising); (lit "notes.txt", thin)])
    today0 sp500_dir [lit "A.csv"; lit "B.CSV"; lit "notes.txt"]
  = scan DateSort.sort (disk [(lit "A.csv", rising)]) today0 sp500_dir
      [lit "A.csv"; lit "B.CSV"; lit "notes.txt"].
Proof.
  apply (only_csv_files_are_read DateSort.sort
           (disk [(lit "A.csv", rising); (lit "B.CSV", also_rising);
                  (lit "notes.txt", thin)])
           (disk [(lit "A.csv", rising)]) today0 sp500_dir
           [lit "A.csv"; lit "B.CSV"; lit "notes.txt"]).
  intros f [<-|[<-|[<-|[]]]] E; vm_compute in E; try discriminate E.
  vm_compute. reflexivity.
Defined.

End BrokerMore.

(* ================================================================== *)
(** ** app/financial_agent.py: get_data_info *)
(* ================================================================== *)

Module DataInfo.
Import Py.

(** What [get_data_info] sees of the disk.  [read_dates] stands for
    [pd.read_csv] followed by [pd.to_datetime(df['Date'], errors='coerce')]:
    the column of dates in nanoseconds since the epoch, [None] for NaT; it
    raises when the file cannot be parsed or has no [Date] column. *)
Record Disk := {
  module_dir : str;
  isdir : str -> bool;
  glob_glob : str -> list str;
  read_dates : str -> result (list (option Z))
}.

(** [f"{n:0{width}d}"] for a non-negative [n]. *)
Definition zero_pad (width : nat) (n : Z) : str :=
  let digits := str_of_Z n in
  repeat 48%N (width - length digits) ++ digits.

(** The proleptic Gregorian date of a day number counted from 1970-01-01. *)
Definition civil (days : Z) : Z * Z * Z :=
  let z := (days + 719468)%Z in
  let era := (z / 146097)%Z in
  let doe := (z - era * 146097)%Z in
  let yoe := ((doe - doe / 1460 + doe / 36524 - doe / 146096) / 365)%Z in
  let doy := (doe - (365 * yoe + yoe / 4 - yoe / 100))%Z in
  let mp := ((5 * doy + 2) / 153)%Z in
  let d := (doy - (153 * mp + 2) / 5 + 1)%Z in
  let m := if (mp <? 10)%Z then (mp + 3)%Z else (mp - 9)%Z in
  let y := (yoe + era * 400 + (if (m <=? 2)%Z then 1 else 0))%Z in
  (y, m, d).

(** [str(d)] for a [datetime.date], given as its day number: [YYYY-MM-DD]. *)
Definition isoformat (days : Z) : str :=
  let '(y, m, d) := civil days in
  zero_pad 4 y ++ lit "-" ++ zero_pad 2 m ++ lit "-" ++ zero_pad 2 d.

(** [df.dropna(subset=['Date'])], on the column of dates. *)
Fixpoint dropna (dates : list (option Z)) : list Z :=
  match dates with
  | [] => []
  | Some t :: rest => t :: dropna rest
  | None :: rest => dropna rest
  end.

(** [df['Date'].min()] and [df['Date'].max()] of a column that is not empty. *)
Definition series_min (t : Z) (ts : list Z) : Z := fold_left Z.min ts t.
Definition series_max (t : Z) (ts : list Z) : Z := fold_left Z.max ts t.

(** [Timestamp.date()], as a day number. *)
Definition date (t : Z) : Z := (t / FinancialAgent.ns_per_day)%Z.

(** The three variables of the loop over the files of one market. *)
Record Range := {
  num_stocks : nat;
  min_date : option Z;
  max_date : option Z
}.

Section WithDisk.
Variable d : Disk.

(** One round of the loop over [glob.glob(...)]. *)
Definition visit (r : Range) (fname : str) : Range :=
  let num_stocks' := S (num_stocks r) in
  let unchanged :=
    {| num_stocks := num_stocks';
       min_date := min_date r;
       max_date := max_date r |} in
  match read_dates d fname with
  | Raise _ => unchanged
  | Ok dates =>
      match dropna dates with
      | [] => unchanged
      | t :: ts =>
          let stock_min := date (series_min t ts) in
          let stock_max := date (series_max t ts) in
          {| num_stocks := num_stocks';
             min_date :=
               match min_date r with
               | None => Some stock_min
               | Some m => if (stock_min <? m)%Z then Some stock_min else Some m
               end;
             max_date :=
               match max_date r with
               | None => Some stock_max
               | Some m => if (m <? stock_max)%Z then Some stock_max else Some m
               end |}
      end
  end.

Definition scan (data_dir : str) : Range :=
  fold_left visit
    (glob_glob d (FinancialAgent.path_join data_dir (lit "*.csv")))
    {| num_stocks := 0; min_date := None; max_date := None |}.

(** [str(x) if x else None] *)
Definition date_str (x : option Z) : value :=
  match x with
  | Some day => VStr (isoformat day)
  | None => VNone
  end.

Definition base_dir : str :=
  FinancialAgent.path_join (module_dir d) (lit "../data").

(** The entry of one market; [None] stands for the [continue] on a missing
    directory. *)
Definition market_entry (market subdir : str) : option value :=
  let data_dir := FinancialAgent.path_join base_dir subdir in
  if negb (isdir d data_dir) then None
  else
    let r := scan data_dir in
    Some (VDict [ (lit "market", VStr market);
                  (lit "num_stocks", VInt (Z.of_nat (num_stocks r)));
                  (lit "min_date", date_str (min_date r));
                  (lit "max_date", date_str (max_date r)) ]).

Fixpoint markets_info (market_dirs : list (str * str)) : list value :=
  match market_dirs with
  | [] => []
  | (market, subdir) :: rest =>
      match market_entry market subdir with
      | Some entry => entry :: markets_info rest
      | None => markets_info rest
      end
  end.

Definition get_data_info : value :=
  VDict [ (lit "markets", VList (markets_info FinancialAgent.market_dirs)) ].

End WithDisk.
End DataInfo.

Section DataInfoFacts.
Import Py DataInfo.

(** [entry[key]] of an entry of the answer. *)
Definition entry_field (entry : value) (key : str) : option value :=
  match entry with
  | VDict items => dict_get items key
  | _ => None
  end.

(** The directory and the pattern of a market. *)
Definition info_dir (d : Disk) (subdir : str) : str :=
  FinancialAgent.path_join
    (FinancialAgent.path_join (module_dir d) (lit "../data")) subdir.

Definition info_files (d : Disk) (subdir : str) : list str :=
  glob_glob d (FinancialAgent.path_join (info_dir d subdir) (lit "*.csv")).

(** The timestamps of a file that can be read, NaT left out. *)
Definition valid_dates (d : Disk) (path : str) : list Z :=
  match read_dates d path with
  | Ok dates => dropna dates
  | Raise _ => []
  end.

Lemma series_min_spec (ts : list Z) (t : Z) :
  In (series_min t ts) (t :: ts) /\
  forall x, In x (t :: ts) -> (series_min t ts <= x)%Z.
Proof.
  unfold series_min. revert t.
  induction ts as [|y ts IH]; intros t; cbn [fold_left].
  - split; [now left|]. intros x [<-|[]]. lia.
  - destruct (IH (Z.min t y)) as [Hin Hle]. split.
    + destruct Hin as [Heq|Hin]; [|right; now right].
      rewrite <- Heq. destruct (Z.min_spec t y) as [[_ ->]|[_ ->]];
        [now left|right; now left].
    + intros x [<-|[<-|Hx]].
      * specialize (Hle _ (or_introl eq_refl)). lia.
      * specialize (Hle _ (or_introl eq_refl)). lia.
      * apply Hle. now right.
Qed.

Lemma series_max_spec (ts : list Z) (t : Z) :
  In (series_max t ts) (t :: ts) /\
  forall x, In x (t :: ts) -> (x <= series_max t ts)%Z.
Proof.
  unfold series_max. revert t.
  induction ts as [|y ts IH]; intros t; cbn [fold_left].
  - split; [now left|]. intros x [<-|[]]. lia.
  - destruct (IH (Z.max t y)) as [Hin Hle]. split.
    + destruct Hin as [Heq|Hin]; [|right; now right].
      rewrite <- Heq. destruct (Z.max_spec t y) as [[_ ->]|[_ ->]];
        [right; now left|now left].
    + intros x [<-|[<-|Hx]].
      * specialize (Hle _ (or_introl eq_refl)). lia.
      * specialize (Hle _ (or_introl eq_refl)). lia.
      * apply Hle. now right.
Qed.

Lemma date_mono (a b : Z) : (a <= b)%Z -> (date a <= date b)%Z.
Proof.
  intros H. unfold date. apply Z.div_le_mono; [|assumption].
  unfold FinancialAgent.ns_per_day. lia.
Qed.

(** What the loop has recorded once it has seen the timestamps [seen]. *)
Definition covers (r : Range) (seen : list Z) : Prop :=
  (seen = [] /\ min_date r = None /\ max_date r = None) \/
  (exists lo hi,
     In lo seen /\ In hi seen /\
     min_date r = Some (date lo) /\ max_date r = Some (date hi) /\
     forall t, In t seen -> (date lo <= date t <= date hi)%Z).

Lemma visit_covers (d : Disk) (r : Range) (seen : list Z) (fname : str) :
  covers r seen -> covers (visit d r fname) (seen ++ valid_dates d fname).
Proof.
  intros Hr. unfold visit, valid_dates.
  destruct (read_dates d fname) as [dates|e];
    [|rewrite app_nil_r; exact Hr].
  destruct (dropna dates) as [|t ts]; [rewrite app_nil_r; exact Hr|].
  destruct (series_min_spec ts t) as [Hmin_in Hmin].
  destruct (series_max_spec ts t) as [Hmax_in Hmax].
  set (lo' := series_min t ts) in *. set (hi' := series_max t ts) in *.
  assert (Hnew : forall x, In x (t :: ts) -> (date lo' <= date x <= date hi')%Z).
  { intros x Hx. split; apply date_mono; auto. }
  right. cbn [min_date max_date].
  destruct Hr as [(-> & -> & ->)|(lo & hi & Hlo & Hhi & -> & -> & Hall)].
  - exists lo', hi'. cbn [app]. repeat split; auto; apply Hnew; assumption.
  - pose proof (Hnew _ Hmin_in) as [_ Hlh'].
    pose proof (Hall _ Hlo) as [_ Hlh].
    destruct (Z.ltb_spec (date lo') (date lo)) as [Hl|Hl];
      destruct (Z.ltb_spec (date hi) (date hi')) as [Hh|Hh].
    + exists lo', hi'. repeat split;
        try (apply in_or_app; right; assumption).
      * apply in_app_or in H as [H|H];
          [specialize (Hall _ H)|specialize (Hnew _ H)]; lia.
      * apply in_app_or in H as [H|H];
          [specialize (Hall _ H)|specialize (Hnew _ H)]; lia.
    + exists lo', hi. repeat split;
        try (apply in_or_app; (left + right); assumption).
      * apply in_app_or in H as [H|H];
          [specialize (Hall _ H)|specialize (Hnew _ H)]; lia.
      * apply in_app_or in H as [H|H];
          [specialize (Hall _ H)|specialize (Hnew _ H)]; lia.
    + exists lo, hi'. repeat split;
        try (apply in_or_app; (left + right); assumption).
      * apply in_app_or in H as [H|H];
          [specialize (Hall _ H)|specialize (Hnew _ H)]; lia.
      * apply in_app_or in H as [H|H];
          [specialize (Hall _ H)|specialize (Hnew _ H)]; lia.
    + exists lo, hi. repeat split;
        try (apply in_or_app; left; assumption).
      * apply in_app_or in H as [H|H];
          [specialize (Hall _ H)|specialize (Hnew _ H)]; lia.
      * apply in_app_or in H as [H|H];
          [specialize (Hall _ H)|specialize (Hnew _ H)]; lia.
Qed.

Lemma fold_visit_covers (d : Disk) (paths : list str) (r : Range) seen :
  covers r seen ->
  covers (fold_left (visit d) paths r) (seen ++ flat_map (valid_dates d) paths).
Proof.
  revert r seen. induction paths as [|p paths IH]; intros r seen Hr.
  - cbn. now rewrite app_nil_r.
  - cbn [fold_left flat_map]. rewrite app_assoc.
    apply IH, visit_covers, Hr.
Qed.

Lemma fold_visit_count (d : Disk) (paths : list str) (r : Range) :
  num_stocks (fold_left (visit d) paths r) = num_stocks r + length paths.
Proof.
  revert r. induction paths as [|p paths IH]; intros r; cbn [fold_left length].
  - lia.
  - rewrite IH. unfold visit.
    destruct (read_dates d p) as [dates|e]; [destruct (dropna dates)|];
      cbn [num_stocks]; lia.
Qed.

Lemma market_entry_present (d : Disk) (market subdir : str) :
  isdir d (info_dir d subdir) = true ->
  market_entry d market subdir
  = Some (VDict [ (lit "market", VStr market);
                  (lit "num_stocks",
                   VInt (Z.of_nat (length (info_files d subdir))));
                  (lit "min_date",
                   date_str (min_date (scan d (info_dir d subdir))));
                  (lit "max_date",
                   date_str (max_date (scan d (info_dir d subdir)))) ]).
Proof.
  intros Hdir. unfold market_entry.
  change (FinancialAgent.path_join (base_dir d) subdir) with (info_dir d subdir).
  rewrite Hdir. cbn [negb].
  unfold scan at 1. rewrite fold_visit_count. reflexivity.
Qed.

Lemma market_entry_absent (d : Disk) (market subdir : str) :
  isdir d (info_dir d subdir) = false -> market_entry d market subdir = None.
Proof.
  intros Hdir. unfold market_entry.
  change (FinancialAgent.path_join (base_dir d) subdir) with (info_dir d subdir).
  now rewrite Hdir.
Qed.

Lemma markets_info_summary (d : Disk) (dirs : list (str * str)) :
  map (fun entry =>
         (entry_field entry (lit "market"), entry_field entry (lit "num_stocks")))
      (markets_info d dirs)
  = map (fun kv =>
           (Some (VStr (fst kv)),
            Some (VInt (Z.of_nat (length (info_files d (snd kv)))))))
        (filter (fun kv => isdir d (info_dir d (snd kv))) dirs).
Proof.
  induction dirs as [|[market subdir] dirs IH]; [reflexivity|].
  cbn [markets_info filter snd].
  destruct (isdir d (info_dir d subdir)) eqn:Hdir.
  - rewrite (market_entry_present d market subdir Hdir).
    cbn [map]. rewrite IH. reflexivity.
  - rewrite (market_entry_absent d market subdir Hdir). exact IH.
Qed.

Lemma markets_info_In (d : Disk) (dirs : list (str * str)) market subdir entry :
  In (market, subdir) dirs -> market_entry d market subdir = Some entry ->
  In entry (markets_info d dirs).
Proof.
  induction dirs as [|[m s] dirs IH]; intros Hin He; [destruct Hin|].
  cbn [markets_info]. destruct Hin as [Heq|Hin].
  - injection Heq as -> ->. rewrite He. now left.
  - destruct (market_entry d m s); [right|]; auto.
Qed.

(** X14. The answer of [get_data_info] lists the known markets whose
    directory exists, in the fixed order of the table, and leaves the others
    out; the number of stocks of a market is the number of paths the pattern
    [*.csv] matches in its directory, whether or not the files can be read
    or hold any date. *)
Theorem data_info_counts_every_csv (d : Disk) :
  exists entries,
    get_data_info d = VDict [ (lit "markets", VList entries) ] /\
    map (fun entry =>
           (entry_field entry (lit "market"),
            entry_field entry (lit "num_stocks"))) entries
    = map (fun kv =>
             (Some (VStr (fst kv)),
              Some (VInt (Z.of_nat (length (info_files d (snd kv)))))))
          (filter (fun kv => isdir d (info_dir d (snd kv)))
                  FinancialAgent.market_dirs).
Proof.
  eexists. split; [reflexivity|]. apply markets_info_summary.
Qed.

(** X15. The dates of a market's entry.  With no valid date in any readable
    file of the market both dates are [None]; otherwise they are the ISO
    dates of two timestamps found in its files, such that no valid timestamp
    of any readable file falls on an earlier day than [min_date] or on a
    later day than [max_date].  Files that cannot be read and rows without a
    date take no part. *)
Theorem data_info_date_range (d : Disk) (market subdir : str) :
  In (market, subdir) FinancialAgent.market_dirs ->
  isdir d (info_dir d subdir) = true ->
  exists entry,
    In entry (markets_info d FinancialAgent.market_dirs) /\
    entry_field entry (lit "market") = Some (VStr market) /\
    let seen := flat_map (valid_dates d) (info_files d subdir) in
    (seen = [] ->
     entry_field entry (lit "min_date") = Some VNone /\
     entry_field entry (lit "max_date") = Some VNone) /\
    (seen <> [] ->
     exists lo hi,
       In lo seen /\ In hi seen /\
       entry_field entry (lit "min_date") = Some (VStr (isoformat (date lo))) /\
       entry_field entry (lit "max_date") = Some (VStr (isoformat (date hi))) /\
       forall t, In t seen -> (date lo <= date t <= date hi)%Z).
Proof.
  intros Hin Hdir.
  pose proof (market_entry_present d market subdir Hdir) as He.
  eexists. split; [eapply markets_info_In; eassumption|].
  split; [reflexivity|].
  assert (Hcov : covers (scan d (info_dir d subdir))
                   (flat_map (valid_dates d) (info_files d subdir))).
  { unfold scan.
    apply (fold_visit_covers d _ _ []). left. repeat split. }
  cbv zeta. cbv [entry_field]. cbn [dict_get].
  change (str_eqb (lit "min_date") (lit "min_date")) with true.
  change (str_eqb (lit "market") (lit "min_date")) with false.
  change (str_eqb (lit "num_stocks") (lit "min_date")) with false.
  change (str_eqb (lit "market") (lit "max_date")) with false.
  change (str_eqb (lit "num_stocks") (lit "max_date")) with false.
  change (str_eqb (lit "min_date") (lit "max_date")) with false.
  change (str_eqb (lit "max_date") (lit "max_date")) with true.
  cbv iota.
  destruct Hcov as [(Hnil & -> & ->)|(lo & hi & Hlo & Hhi & -> & -> & Hall)].
  - split; [intros _; split; reflexivity|]. intros Hne. contradiction.
  - split.
    + intros Hnil. rewrite Hnil in Hlo. destruct Hlo.
    + intros _. exists lo, hi. repeat split; try assumption; apply Hall;
        assumption.
Qed.

(** A disk with the S&P 500 directory only: one file of three rows, one of
    them without a date, and one file that cannot be read. *)
Definition info_disk : Disk :=
  {| module_dir := lit "/srv/app";
     isdir := fun p => str_eqb p (lit "/srv/app/../data/SP500_data");
     glob_glob := fun p =>
       if str_eqb p (lit "/srv/app/../data/SP500_data/*.csv")
       then [ lit "/srv/app/../data/SP500_data/A.csv";
              lit "/srv/app/../data/SP500_data/B.csv" ]
       else [];
     read_dates := fun p =>
       if str_eqb p (lit "/srv/app/../data/SP500_data/A.csv")
       then Ok [ Some (19783 * FinancialAgent.ns_per_day + 5)%Z; None;
                 Some (19700 * FinancialAgent.ns_per_day)%Z ]
       else Raise (External (lit "ParserError") p) |}.

Lemma data_info_date_range_witness :
  get_data_info info_disk
  = VDict [ (lit "markets",
             VList [ VDict [ (lit "market", VStr (lit "S&P 500"));
                             (lit "num_stocks", VInt 2);
                             (lit "min_date", VStr (lit "2023-12-09"));
                             (lit "max_date", VStr (lit "2024-03-01")) ] ]) ] /\
  exists entry,
    In entry (markets_info info_disk FinancialAgent.market_dirs) /\
    entry_field entry (lit "market") = Some (VStr (lit "S&P 500")).
Proof.
  split; [vm_compute; reflexivity|].
  destruct (data_info_date_range info_disk (lit "S&P 500") (lit "SP500_data")
              (or_introl eq_refl) eq_refl)
    as (entry & Hin & Hm & _).
  exists entry. split; assumption.
Defined.

End DataInfoFacts.

(* ================================================================== *)
(** ** main.py: find_free_port *)
(* ================================================================== *)

Module Server.
Import Py.

(** What happens when a fresh socket is opened and bound to a port of
    127.0.0.1: the bind succeeds, the bind raises [OSError] (the port is
    taken or not allowed), or something else is raised, by the bind or when
    the socket is opened, which is outside the [try]. *)
Inductive Bind :=
| Bound
| Busy
| Failed (e : exn).

Section WithSockets.
Variable sock_bind : Z -> Bind.

(** The loop of [find_free_port], with the tries that are left. *)
Fixpoint probe (tries : nat) (port : Z) : result Z :=
  match tries with
  | O => Raise (External (lit "RuntimeError") (lit "No free ports found"))
  | S tries' =>
      match sock_bind port with
      | Bound => Ok port
      | Busy => probe tries' (port + 1)
      | Failed e => Raise e
      end
  end.

(** [range(max_tries)] is empty for a negative [max_tries]. *)
Definition find_free_port (start_port max_tries : Z) : result Z :=
  probe (Z.to_nat max_tries) start_port.

End WithSockets.
End Server.

Section ServerFacts.
Import Py Server.

Lemma probe_spec (sock_bind : Z -> Bind) (tries : nat) (port : Z) :
  match probe sock_bind tries port with
  | Ok p =>
      (port <= p < port + Z.of_nat tries)%Z /\ sock_bind p = Bound /\
      forall q, (port <= q < p)%Z -> sock_bind q = Busy
  | Raise e =>
      (e = External (lit "RuntimeError") (lit "No free ports found") /\
       forall q, (port <= q < port + Z.of_nat tries)%Z -> sock_bind q = Busy) \/
      (exists p,
         (port <= p < port + Z.of_nat tries)%Z /\ sock_bind p = Failed e /\
         forall q, (port <= q < p)%Z -> sock_bind q = Busy)
  end.
Proof.
  revert port. induction tries as [|n IH]; intros port; cbn [probe].
  - left. split; [reflexivity|]. intros q Hq. lia.
  - destruct (sock_bind port) eqn:Hb.
    + split; [lia|]. split; [assumption|]. intros q Hq. lia.
    + specialize (IH (port + 1)%Z).
      assert (Hstep : forall p q, (port + 1 <= p)%Z ->
                (forall q, (port + 1 <= q < p)%Z -> sock_bind q = Busy) ->
                (port <= q < p)%Z -> sock_bind q = Busy).
      { intros p q Hp Hall Hq.
        destruct (Z.eq_dec q port) as [->|Hne]; [assumption|].
        apply Hall. lia. }
      destruct (probe sock_bind n (port + 1)) as [p|e].
      * destruct IH as (Hr & Hp & Hall).
        split; [lia|]. split; [assumption|].
        intros q Hq. apply (Hstep p); [lia|assumption..].
      * destruct IH as [[-> Hall]|(p & Hr & Hp & Hall)].
        -- left. split; [reflexivity|]. intros q Hq.
           apply (Hstep (port + 1 + Z.of_nat n)%Z); [lia|assumption|lia].
        -- right. exists p. split; [lia|]. split; [assumption|].
           intros q Hq. apply (Hstep p); [lia|assumption..].
    + right. exists port. split; [lia|]. split; [assumption|].
      intros q Hq. lia.
Qed.

(** X16. [find_free_port] returns the lowest port of the [max_tries] ports
    from [start_port] on that can be bound, every port below it being taken;
    it raises [RuntimeError] exactly when all of them are taken (always, for
    [max_tries <= 0]); and an exception that is not an [OSError] ends the
    search at once and is passed on. *)
Theorem find_free_port_is_lowest (sock_bind : Z -> Bind) (start_port max_tries : Z) :
  match find_free_port sock_bind start_port max_tries with
  | Ok port =>
      (start_port <= port < start_port + max_tries)%Z /\
      sock_bind port = Bound /\
      forall q, (start_port <= q < port)%Z -> sock_bind q = Busy
  | Raise e =>
      (e = External (lit "RuntimeError") (lit "No free ports found") /\
       forall q, (start_port <= q < start_port + max_tries)%Z ->
                 sock_bind q = Busy) \/
      (exists port,
         (start_port <= port < start_port + max_tries)%Z /\
         sock_bind port = Failed e /\
         forall q, (start_port <= q < port)%Z -> sock_bind q = Busy)
  end.
Proof.
  unfold find_free_port.
  pose proof (probe_spec sock_bind (Z.to_nat max_tries) start_port) as H.
  destruct (probe sock_bind (Z.to_nat max_tries) start_port) as [p|e].
  - destruct H as (Hr & Hp & Hall). split; [lia|]. auto.
  - destruct H as [[-> Hall]|(p & Hr & Hp & Hall)].
    + left. split; [reflexivity|]. intros q Hq. apply Hall. lia.
    + right. exists p. split; [lia|]. auto.
Qed.

End ServerFacts.

(* ================================================================== *)
(** ** app/embedding_model.py: persist_embeddings;
       app/document_loader.py *)
(* ================================================================== *)

Module Ingest.
Import Py.

(** A langchain [Document] (the attribute the code reads). *)
Record Document := { page_content : str }.

(** The arguments of one [collection.add]. *)
Record AddCall := {
  add_documents : list str;
  add_embeddings : list (list float);
  add_ids : list str
}.

(** The collection, as the calls to [add] it has accepted, oldest first. *)
Definition Collection := list AddCall.

(** The collaborators of the ingestion: the embedder, the store, the file
    system and langchain's splitter (with [chunk_size=500] and
    [chunk_overlap=50]). *)
Record Backend := {
  encode : list str -> result (list (list float));
  collection_add : Collection -> AddCall -> result unit;
  os_listdir : str -> result (list str);
  os_path_exists : str -> bool;
  read_text : str -> result str;
  create_documents : list str -> result (list Document)
}.

Section WithBackend.
Variable b : Backend.

(** The loop of [persist_embeddings] from index [i] on. *)
Fixpoint persist_from (i : nat) (chunks : list Document) (c : Collection)
  : result unit * Collection :=
  match chunks with
  | [] => (Ok tt, c)
  | chunk :: rest =>
      match encode b [page_content chunk] with
      | Raise e => (Raise e, c)
      | Ok encoded =>
          match index encoded 0 with
          | Raise e => (Raise e, c)
          | Ok embedding =>
              let call :=
                {| add_documents := [page_content chunk];
                   add_embeddings := [embedding];
                   add_ids := [str_of_nat i] |} in
              match collection_add b c call with
              | Raise e => (Raise e, c)
              | Ok _ => persist_from (S i) rest (c ++ [call])
              end
          end
      end
  end.

Definition persist_embeddings (chunks : list Document) (c : Collection)
  : result unit * Collection :=
  persist_from 0 chunks c.

(** The loop over the names of one directory, shared by [load_documents] and
    [load_market_texts]. *)
Fixpoint load_from (directory : str) (fnames : list str) (docs : list str)
  : result (list str) :=
  match fnames with
  | [] => Ok docs
  | fname :: rest =>
      if endswith fname (lit ".txt") then
        match read_text b (FinancialAgent.path_join directory fname) with
        | Ok text => load_from directory rest (docs ++ [text])
        | Raise e => Raise e
        end
      else load_from directory rest docs
  end.

Definition load_documents (directory : str) : result (list str) :=
  match os_listdir b directory with
  | Ok fnames => load_from directory fnames []
  | Raise e => Raise e
  end.

Definition market_dirs : list str :=
  [ lit "data/SP500_text"; lit "data/NASDAQ_text"; lit "data/SP600_text";
    lit "data/DOWJONES_text"; lit "data/NYSE_text"; lit "data/CRYPTO_text" ].

Fixpoint load_markets (dirs : list str) (docs : list str) : result (list str) :=
  match dirs with
  | [] => Ok docs
  | directory :: rest =>
      if negb (os_path_exists b directory) then load_markets rest docs
      else
        match os_listdir b directory with
        | Raise e => Raise e
        | Ok fnames =>
            match load_from directory fnames docs with
            | Ok docs' => load_markets rest docs'
            | Raise e => Raise e
            end
        end
  end.

Definition load_market_texts : result (list str) := load_markets market_dirs [].

Definition load_financial_concepts (path : str) : result (list str) :=
  if negb (os_path_exists b path) then Ok []
  else
    match read_text b path with
    | Ok text => Ok [text]
    | Raise e => Raise e
    end.

Definition split_documents (raw_texts : list str) : result (list Document) :=
  create_documents b raw_texts.

Definition ingest_docs (c : Collection) : result unit * Collection :=
  match load_documents (lit "data/example_docs") with
  | Raise e => (Raise e, c)
  | Ok texts =>
      match load_market_texts with
      | Raise e => (Raise e, c)
      | Ok market_texts =>
          let texts := texts ++ market_texts in
          match load_financial_concepts (lit "data/financial_concepts.txt") with
          | Raise e => (Raise e, c)
          | Ok concepts =>
              let texts := texts ++ concepts in
              match split_documents texts with
              | Raise e => (Raise e, c)
              | Ok chunks => persist_embeddings chunks c
              end
          end
      end
  end.

End WithBackend.
End Ingest.

Section IngestFacts.
Import Py Ingest.

Lemma lit_inj (s t : string) : lit s = lit t -> s = t.
Proof.
  unfold lit. intros H.
  rewrite <- (string_of_list_ascii_of_string s),
          <- (string_of_list_ascii_of_string t).
  f_equal.
  revert H. generalize (list_ascii_of_string s) (list_ascii_of_string t).
  induction l as [|a l IH]; intros [|a' l'] H; try discriminate; [reflexivity|].
  cbn [map] in H. injection H as Ha Hl. f_equal; [|auto].
  rewrite <- (ascii_N_embedding a), <- (ascii_N_embedding a'). now rewrite Ha.
Qed.

(** [str(i)] tells the integers apart. *)
Lemma str_of_nat_inj (i j : nat) : str_of_nat i = str_of_nat j -> i = j.
Proof.
  unfold str_of_nat, str_of_Z. intros H. apply lit_inj in H.
  assert (Hnn : forall z, Z.to_int z <> Decimal.Pos Decimal.Nil /\
                          Z.to_int z <> Decimal.Neg Decimal.Nil).
  { intros [|p|p]; cbn [Z.to_int]; split; try discriminate;
      intros E; injection E as E;
      exact (DecimalPos.Unsigned.to_uint_nonnil _ E). }
  assert (Hi : NilZero.int_of_string (NilZero.string_of_int (Z.to_int (Z.of_nat i)))
               = Some (Z.to_int (Z.of_nat i)))
    by (apply NilZero.isi; apply Hnn).
  rewrite H, NilZero.isi in Hi by apply Hnn.
  injection Hi as Hi. apply DecimalZ.to_int_inj in Hi. lia.
Qed.

Lemma persist_from_spec (b : Backend) (chunks : list Document) (i : nat)
  (c : Collection) :
  exists added,
    snd (persist_from b i chunks c) = c ++ added /\
    length added <= length chunks /\
    (fst (persist_from b i chunks c) = Ok tt <->
     length added = length chunks) /\
    map add_ids added
    = map (fun k => [str_of_nat k]) (seq i (length added)) /\
    map add_documents added
    = map (fun chunk => [page_content chunk]) (firstn (length added) chunks) /\
    Forall (fun call =>
              exists text encoded embedding,
                add_documents call = [text] /\
                encode b [text] = Ok encoded /\
                index encoded 0 = Ok embedding /\
                add_embeddings call = [embedding]) added.
Proof.
  revert i c. induction chunks as [|chunk rest IH]; intros i c.
  - exists []. cbn. rewrite app_nil_r. repeat split; auto.
  - cbn [persist_from].
    assert (Hstop : forall e,
              exists added,
                snd (Raise e : result unit, c) = c ++ added /\
                length added <= length (chunk :: rest) /\
                (fst (Raise e : result unit, c) = Ok tt <->
                 length added = length (chunk :: rest)) /\
                map add_ids added
                = map (fun k => [str_of_nat k]) (seq i (length added)) /\
                map add_documents added
                = map (fun chunk => [page_content chunk])
                      (firstn (length added) (chunk :: rest)) /\
                Forall (fun call =>
                          exists text encoded embedding,
                            add_documents call = [text] /\
                            encode b [text] = Ok encoded /\
                            index encoded 0 = Ok embedding /\
                            add_embeddings call = [embedding]) added).
    { intros e. exists []. cbn. rewrite app_nil_r.
      repeat split; auto; try lia; discriminate. }
    destruct (encode b [page_content chunk]) as [encoded|e] eqn:Henc;
      [|apply Hstop].
    destruct (index encoded 0) as [embedding|e] eqn:Hidx; [|apply Hstop].
    set (call := {| add_documents := [page_content chunk];
                    add_embeddings := [embedding];
                    add_ids := [str_of_nat i] |}).
    destruct (collection_add b c call) as [[]|e]; [|apply Hstop].
    destruct (IH (S i) (c ++ [call]))
      as (added & Hsnd & Hlen & Hok & Hids & Hdocs & Hall).
    exists (call :: added). cbn [length map seq firstn].
    repeat split.
    + rewrite Hsnd, <- app_assoc. reflexivity.
    + lia.
    + intros H. apply Hok in H. lia.
    + intros H. apply Hok. lia.
    + now rewrite Hids.
    + now rewrite Hdocs.
    + constructor; [|assumption].
      exists (page_content chunk), encoded, embedding. auto.
Qed.

(** X17. [persist_embeddings] adds the chunks one by one and in order, each
    as its text, the first vector the embedder gives for it and its
    position as id, and keeps what was added when a later chunk fails: the
    collection ends as it was, followed by a prefix of the chunks, the whole
    of them exactly when nothing raised.  The ids of one call are distinct,
    and they are "0", "1", ... whatever the collection already holds. *)
Theorem persist_embeddings_adds_a_prefix
  (b : Backend) (chunks : list Document) (c : Collection) :
  exists added,
    snd (persist_embeddings b chunks c) = c ++ added /\
    length added <= length chunks /\
    (fst (persist_embeddings b chunks c) = Ok tt <->
     length added = length chunks) /\
    map add_ids added
    = map (fun k => [str_of_nat k]) (seq 0 (length added)) /\
    NoDup (map add_ids added) /\
    map add_documents added
    = map (fun chunk => [page_content chunk]) (firstn (length added) chunks) /\
    Forall (fun call =>
              exists text encoded embedding,
                add_documents call = [text] /\
                encode b [text] = Ok encoded /\
                index encoded 0 = Ok embedding /\
                add_embeddings call = [embedding]) added.
Proof.
  destruct (persist_from_spec b chunks 0 c)
    as (added & Hsnd & Hlen & Hok & Hids & Hdocs & Hall).
  exists added. unfold persist_embeddings.
  repeat split; try assumption; try apply Hok.
  rewrite Hids. apply Finite.Injective_map_NoDup; [|apply seq_NoDup].
  intros x y H. injection H as H. now apply str_of_nat_inj.
Qed.

Lemma load_markets_absent (b : Backend) (dirs : list str) (docs : list str) :
  (forall directory, In directory dirs -> os_path_exists b directory = false) ->
  load_markets b dirs docs = Ok docs.
Proof.
  induction dirs as [|directory rest IH]; intros Hno; [reflexivity|].
  cbn [load_markets]. rewrite (Hno directory (or_introl eq_refl)).
  cbn [negb]. apply IH. intros x Hx. apply Hno. now right.
Qed.

(** X18. What is fatal for [ingest_docs] and what is not.  When the
    directory of the example documents cannot be listed the exception is
    passed on and nothing is added to the collection; missing market
    directories and a missing concepts file are skipped instead: the texts
    of the example documents alone then go to the splitter, whose chunks
    are persisted. *)
Theorem ingest_needs_the_example_directory (b : Backend) (c : Collection) :
  (forall e,
     os_listdir b (lit "data/example_docs") = Raise e ->
     ingest_docs b c = (Raise e, c)) /\
  (forall texts chunks,
     load_documents b (lit "data/example_docs") = Ok texts ->
     (forall directory, In directory market_dirs ->
                        os_path_exists b directory = false) ->
     os_path_exists b (lit "data/financial_concepts.txt") = false ->
     create_documents b texts = Ok chunks ->
     ingest_docs b c = persist_embeddings b chunks c).
Proof.
  split.
  - intros e He. unfold ingest_docs, load_documents. now rewrite He.
  - intros texts chunks Hload Hmarkets Hconcepts Hsplit.
    unfold ingest_docs, load_market_texts, load_financial_concepts,
      split_documents.
    rewrite Hload, (load_markets_absent b _ _ Hmarkets), Hconcepts.
    cbn [negb]. rewrite !app_nil_r, Hsplit. reflexivity.
Qed.

(** A backend with two example files, one of them a text, and nothing
    else; the splitter gives one chunk for each text. *)
Definition small_backend : Backend :=
  {| encode := fun sentences => Ok (map (fun _ => [0.5%float]) sentences);
     collection_add := fun _ _ => Ok tt;
     os_listdir := fun p =>
       if str_eqb p (lit "data/example_docs")
       then Ok [lit "a.txt"; lit "b.pdf"]
       else Raise (External (lit "FileNotFoundError") p);
     os_path_exists := fun _ => false;
     read_text := fun p =>
       if str_eqb p (lit "data/example_docs/a.txt")
       then Ok (lit "Stocks are shares.")
       else Raise (External (lit "FileNotFoundError") p);
     create_documents := fun texts =>
       Ok (map (fun t => {| page_content := t |}) texts) |}.

Lemma ingest_needs_the_example_directory_witness :
  ingest_docs small_backend []
  = (Ok tt, [ {| add_documents := [lit "Stocks are shares."];
                 add_embeddings := [[0.5%float]];
                 add_ids := [lit "0"] |} ]).
Proof.
  rewrite (proj2 (ingest_needs_the_example_directory small_backend [])
             [lit "Stocks are shares."]
             [ {| page_content := lit "Stocks are shares." |} ]
             eq_refl (fun _ _ => eq_refl) eq_refl eq_refl).
  reflexivity.
Defined.

End IngestFacts.

(* ================================================================== *)
(** ** Invariants of the broker's loop and of the agent's prompt *)
(* ================================================================== *)

Section LoopInvariants.
Import Py FinancialAgent FloatFacts BrokerFacts BrokerExamples.

Lemma above_is_number (n x : float) :
  (n <? x)%float = true -> is_nan x = false.
Proof.
  unfold is_nan. rewrite ltb_spec, eqb_spec. unfold SFltb, SFeqb.
  destruct (Prim2SF n) as [[]|[]| |[] mn en],
    (Prim2SF x) as [[]|[]| |[] mx ex];
    cbn [SFcompare negb]; try discriminate; try reflexivity;
    intros _; change (Pos.compare_cont Eq) with Pos.compare;
    rewrite Z.compare_refl, Pos.compare_refl; reflexivity.
Qed.

Lemma window_is_number (today : Z) (df : list Row) (t : Z) (x : scalar) :
  In (t, x) (window today df) -> isna x = false.
Proof.
  unfold window. intros Hin. apply filter_In in Hin as [Hin _].
  induction df as [|r df IH]; [destruct Hin|].
  cbn [FinancialAgent.dropna] in Hin.
  destruct (Date r) as [d0|]; [|auto].
  destruct (isna (Close r)) eqn:Hnan; [auto|].
  destruct Hin as [Heq|Hin]; [|auto].
  injection Heq as _ <-. exact Hnan.
Qed.

(** X19. What the loop of the broker holds at its end is made of numbers.
    The best return is never NaN; when a symbol was recorded, the return is
    above minus infinity, both prices were recorded with it, neither is NaN,
    and the return is the one the code computes from these two prices, in
    the arithmetic of their dtype.  (The return may still be plus infinity,
    for a first close of 0.) *)
Theorem recorded_figures_are_numbers sort_values fs today data_dir fnames :
  sorts sort_values ->
  let b := scan sort_values fs today data_dir fnames in
  is_nan (best_return b) = false /\
  (best_symbol b = None -> b = initial) /\
  (forall symbol,
     best_symbol b = Some symbol ->
     (neg_infinity <? best_return b)%float = true /\
     exists start_price end_price,
       best_start b = Some start_price /\ best_end b = Some end_price /\
       isna start_price = false /\ isna end_price = false /\
       best_return b = percent_return start_price end_price).
Proof.
  intros Hsort b. subst b. rewrite scan_pick.
  destruct (fold_pick_spec (map (candidate sort_values fs today data_dir) fnames))
    as [[Hb _]|(cs1 & c & cs2 & Hsplit & Hb & Hpos & _)]; rewrite Hb.
  - split; [reflexivity|]. split; [reflexivity|]. intros symbol H. discriminate H.
  - cbn [chosen best_return best_symbol best_start best_end].
    split; [exact (above_is_number _ _ Hpos)|].
    split; [discriminate|]. intros symbol _. split; [assumption|].
    assert (Hin : In (Some c) (map (candidate sort_values fs today data_dir) fnames))
      by (rewrite Hsplit; apply in_or_app; right; now left).
    apply in_map_iff in Hin as (fname & Hc & _).
    destruct (candidate_some sort_values Hsort today fs data_dir fname c Hc)
      as (_ & _ & Hret & df & d0 & d1 & _ & _ & H0 & H1 & _).
    exists (c_start c), (c_end c). repeat split; try assumption.
    + exact (window_is_number _ _ _ _ H0).
    + exact (window_is_number _ _ _ _ H1).
Qed.

Lemma recorded_figures_are_numbers_witness :
  let b := scan DateSort.sort (disk [(lit "X.csv", worthless); (lit "A.csv", rising)])
             today0 sp500_dir [lit "X.csv"; lit "A.csv"] in
  best_symbol b = Some (lit "A") /\ is_nan (best_return b) = false.
Proof.
  intros b. split; [vm_compute; reflexivity|].
  exact (proj1 (recorded_figures_are_numbers DateSort.sort
                  (disk [(lit "X.csv", worthless); (lit "A.csv", rising)])
                  today0 sp500_dir [lit "X.csv"; lit "A.csv"] date_sort_sorts)).
Defined.

(** X20. [craft_prompt] pastes the query and the market into the prompt as
    they are, with no quoting: a query that ends in a line "Market: m" reads
    in the prompt as the market line itself.  Two different requests then
    give the same prompt, and [get_decision] cannot tell them apart. *)
Theorem prompt_fields_are_not_delimited env user_query market extra w :
  let market_line := [10%N] ++ lit "Market: " in
  StockAgent.craft_prompt (user_query ++ market_line ++ market) extra
  = StockAgent.craft_prompt user_query (market ++ market_line ++ extra) /\
  StockAgent.get_decision env (user_query ++ market_line ++ market) extra w
  = StockAgent.get_decision env user_query (market ++ market_line ++ extra) w.
Proof.
  cbv zeta.
  assert (H : StockAgent.craft_prompt
                (user_query ++ ([10%N] ++ lit "Market: ") ++ market) extra
              = StockAgent.craft_prompt user_query
                  (market ++ ([10%N] ++ lit "Market: ") ++ extra)).
  { unfold StockAgent.craft_prompt. rewrite <- !app_assoc. reflexivity. }
  split; [exact H|]. unfold StockAgent.get_decision. now rewrite H.
Qed.

End LoopInvariants.
